(** * Family-group membership and invitation: a shallow embedding

    Embeds [RecipeOrganizerBackend/src/controllers/familyController.ts]
    together with the [FamilyGroup] mongoose model it persists, and proves
    the membership properties of the design note against it.

    Modelling conventions.
    - Mongo ObjectIds, e-mail addresses and invite codes are [string]s; the
      comparison [a.toString() === b] is [String.eqb].
    - [Date] values are milliseconds since the epoch ([Z]); each handler
      receives the reading of [new Date()] as an argument [now].
    - The [FamilyGroup] collection is a list in insertion order.  [findOne]
      and [Array.prototype.find] return the first match.
    - A handler is a state-and-exception computation over the store: it
      either sends a response or throws; the store only changes through
      [save].
    - [populate] replaces an id by the document it refers to.  Where a
      handler compares [member.userId.toString()] with an id after
      [populate('members.userId', ...)], the comparison is made with the
      document's text, not with the id (see [populatedUserIdIs]); what
      [populate] adds to the documents that are sent back is left out.
    - Strings are treated as ASCII text; [toUpperCase], [toLowerCase] and
      [trim] act on the ASCII letters and the ASCII white space. *)

From Stdlib Require Import Bool Arith ZArith QArith Qround Lia List.
From Stdlib Require Import Ascii String.
Import ListNotations.

Local Open Scope string_scope.
Local Open Scope list_scope.
Local Open Scope nat_scope.

(* ------------------------------------------------------------------ *)
(** ** JavaScript string primitives *)

Module JS.

Definition toUpperCaseChar (c : ascii) : ascii :=
  let n := nat_of_ascii c in
  if (97 <=? n) && (n <=? 122) then ascii_of_nat (n - 32) else c.

Definition toLowerCaseChar (c : ascii) : ascii :=
  let n := nat_of_ascii c in
  if (65 <=? n) && (n <=? 90) then ascii_of_nat (n + 32) else c.

Fixpoint smap (f : ascii -> ascii) (s : string) : string :=
  match s with
  | EmptyString => EmptyString
  | String c s' => String (f c) (smap f s')
  end.

Definition toUpperCase : string -> string := smap toUpperCaseChar.
Definition toLowerCase : string -> string := smap toLowerCaseChar.

(** White space stripped by [String.prototype.trim] (ASCII part):
    TAB, LF, VT, FF, CR and SPACE. *)
Definition isWhiteSpace (c : ascii) : bool :=
  let n := nat_of_ascii c in
  ((9 <=? n) && (n <=? 13)) || (n =? 32).

Fixpoint trimStart (s : string) : string :=
  match s with
  | EmptyString => EmptyString
  | String c s' => if isWhiteSpace c then trimStart s' else s
  end.

Fixpoint trimEnd (s : string) : string :=
  match s with
  | EmptyString => EmptyString
  | String c s' =>
      match trimEnd s' with
      | EmptyString => if isWhiteSpace c then EmptyString else String c EmptyString
      | r => String c r
      end
  end.

Definition trim (s : string) : string := trimEnd (trimStart s).

(** [s.charAt(i)]: the one-character string at index [i], or the empty
    string when [i] is out of range. *)
Definition charAt (s : string) (i : Z) : string :=
  if (i <? 0)%Z then EmptyString
  else match String.get (Z.to_nat i) s with
       | Some c => String c EmptyString
       | None => EmptyString
       end.

(** [Math.floor(x * n)] on an exact rational reading of [Math.random()]. *)
Definition floorMul (x : Q) (n : nat) : Z :=
  Qfloor (x * inject_Z (Z.of_nat n)).

Fixpoint join (sep : string) (l : list string) : string :=
  match l with
  | [] => EmptyString
  | [x] => x
  | x :: rest => x ++ sep ++ join sep rest
  end.

End JS.

(* ------------------------------------------------------------------ *)
(** ** Data model ([models/FamilyGroup]) *)

Inductive Role : Type := admin | member.

Definition Role_eqb (a b : Role) : bool :=
  match a, b with
  | admin, admin | member, member => true
  | _, _ => false
  end.

Record FamilyMember : Type := mkMember {
  userId : string;
  role : Role;
  joinedAt : Z;
  isActive : bool
}.

Record FamilyGroupSettings : Type := mkSettings {
  allowMemberInvites : bool;
  requireApprovalForRecipes : bool;
  sharedPantry : bool;
  sharedMealPlans : bool;
  sharedShoppingLists : bool
}.

Record FamilyGroup : Type := mkGroup {
  _id : string;
  name : string;
  description : option string;
  adminId : string;
  members : list FamilyMember;
  inviteCode : string;
  settings : FamilyGroupSettings
}.

Record User : Type := mkUser {
  user_id : string;
  user_email : string;
  user_name : string
}.

(** The two collections the controller reads and writes. *)
Record Store : Type := mkStore {
  groups : list FamilyGroup;
  users : list User
}.

(** [ApiError(message, statusCode)]. *)
Record ApiError : Type := mkApiError {
  message : string;
  statusCode : nat
}.

Definition BadRequest : nat := 400.
Definition Unauthorized : nat := 401.
Definition Forbidden : nat := 403.
Definition NotFound : nat := 404.
Definition Conflict : nat := 409.

(* ------------------------------------------------------------------ *)
(** ** Invite code generator *)

Definition chars : string := "ABCDEFGHIJKLMNOPQRSTUVWXYZ0123456789".

(** The [for (let i = 0; i < 8; i++)] loop; [n] is the number of
    iterations left, [rnd i] the value of [Math.random()] at iteration [i]. *)
Fixpoint generateInviteCode_loop (n : nat) (rnd : nat -> Q) (i : nat)
  (result : string) : string :=
  match n with
  | O => result
  | S n' =>
      generateInviteCode_loop n' rnd (S i)
        (result ++ JS.charAt chars (JS.floorMul (rnd i) (String.length chars)))
  end.

Definition generateInviteCode (rnd : nat -> Q) : string :=
  generateInviteCode_loop 8 rnd 0 "".

(** Membership in the alphabet [A-Z0-9]. *)
Definition isCodeChar (c : ascii) : bool :=
  let n := nat_of_ascii c in
  ((65 <=? n) && (n <=? 90)) || ((48 <=? n) && (n <=? 57)).

Definition isUnitSample (x : Q) : Prop := (0 <= x)%Q /\ (x < 1)%Q.

(* ------------------------------------------------------------------ *)
(** ** Handlers as state-and-exception computations *)

(** What a handler run ends in: a response was sent, an [ApiError] was
    thrown, [save()] rejected the document with a mongoose
    [ValidationError] on the given paths (which the handlers rethrow as it
    is), or the invite-code loop was still running when the fuel of the
    model ran out. *)
Inductive Outcome (A : Type) : Type :=
| Sent (a : A)
| Thrown (e : ApiError)
| Rejected (paths : list string)
| OutOfFuel.

Arguments Sent {A} a.
Arguments Thrown {A} e.
Arguments Rejected {A} paths.
Arguments OutOfFuel {A}.

Definition Handler (A : Type) : Type := Store -> Outcome A * Store.

Definition ret {A} (a : A) : Handler A := fun st => (Sent a, st).

Definition bind {A B} (c : Handler A) (k : A -> Handler B) : Handler B :=
  fun st =>
    match c st with
    | (Sent a, st') => k a st'
    | (Thrown e, st') => (Thrown e, st')
    | (Rejected paths, st') => (Rejected paths, st')
    | (OutOfFuel, st') => (OutOfFuel, st')
    end.

Definition throw {A} (msg : string) (code : nat) : Handler A :=
  fun st => (Thrown (mkApiError msg code), st).

Definition outOfFuel {A} : Handler A := fun st => (OutOfFuel, st).

Declare Scope handler_scope.
Delimit Scope handler_scope with handler.
Notation "x <- c1 ;; c2" := (bind c1 (fun x => c2))
  (at level 100, c1 at next level, right associativity) : handler_scope.
Local Open Scope handler_scope.

(** [if (b) throw new ApiError(msg, code)]. *)
Definition throwIf (b : bool) (msg : string) (code : nat) : Handler unit :=
  if b then throw msg code else ret tt.

(** [if (!x) throw new ApiError(msg, code)] for a possibly missing [x]. *)
Definition orThrow {A} (o : option A) (msg : string) (code : nat) : Handler A :=
  match o with
  | Some a => ret a
  | None => throw msg code
  end.

(** *** Collection access *)

(** The stored group with a given [_id], as [findById] reads it. *)
Definition lookupGroup (id : string) (st : Store) : option FamilyGroup :=
  find (fun g => _id g =? id)%string (groups st).

Definition FamilyGroup_findById (id : string) : Handler (option FamilyGroup) :=
  fun st => (Sent (lookupGroup id st), st).

Definition FamilyGroup_findOne_adminId (uid : string)
  : Handler (option FamilyGroup) :=
  fun st => (Sent (find (fun g => adminId g =? uid)%string (groups st)), st).

Definition FamilyGroup_findOne_inviteCode (code : string)
  : Handler (option FamilyGroup) :=
  fun st => (Sent (find (fun g => inviteCode g =? code)%string (groups st)), st).

Definition User_findOne_email (email : string) : Handler (option User) :=
  fun st => (Sent (find (fun u => user_email u =? email)%string (users st)), st).

(** Writing back a loaded document: the stored document with the same
    [_id] is replaced.  The handlers that do so changed the roster only,
    whose entries always validate, on a document that was validated when
    it was stored; the validation [save] runs first is left out here. *)
Fixpoint replaceDoc (g : FamilyGroup) (l : list FamilyGroup) : list FamilyGroup :=
  match l with
  | [] => []
  | h :: t => if (_id h =? _id g)%string then g :: t else h :: replaceDoc g t
  end.

Definition save (g : FamilyGroup) : Handler unit :=
  fun st => (Sent tt, mkStore (replaceDoc g (groups st)) (users st)).

(** The validators of [familyGroupSchema] that a string value can fail:
    [required] (which an empty string does not satisfy) and [maxlength]. *)
Definition invalidPaths (g : FamilyGroup) : list string :=
  (if (String.length (name g) =? 0) || (50 <? String.length (name g))
   then ["name"] else [])
  ++ (match description g with
      | Some d => if 200 <? String.length d then ["description"] else []
      | None => []
      end)
  ++ (if String.length (inviteCode g) =? 0 then ["inviteCode"] else []).

(** Saving a document built with [new FamilyGroup(...)]: it is validated
    and, when valid, inserted. *)
Definition saveNew (g : FamilyGroup) : Handler unit :=
  fun st =>
    match invalidPaths g with
    | [] => (Sent tt, mkStore (groups st ++ [g]) (users st))
    | paths => (Rejected paths, st)
    end.

(** *** Rosters *)

(** An assignment through the reference that [members.find(p)] returned:
    the first entry satisfying [p] is changed in place. *)
Fixpoint updateFirst (p : FamilyMember -> bool)
  (f : FamilyMember -> FamilyMember) (l : list FamilyMember) : list FamilyMember :=
  match l with
  | [] => []
  | m :: t => if p m then f m :: t else m :: updateFirst p f t
  end.

Definition hasUserId (uid : string) (m : FamilyMember) : bool :=
  (userId m =? uid)%string.

Definition setActive (b : bool) (m : FamilyMember) : FamilyMember :=
  mkMember (userId m) (role m) (joinedAt m) b.

(** [m.isActive = true; m.joinedAt = new Date()]. *)
Definition reactivate (now : Z) (m : FamilyMember) : FamilyMember :=
  mkMember (userId m) (role m) now true.

Definition withMembers (g : FamilyGroup) (ms : list FamilyMember) : FamilyGroup :=
  mkGroup (_id g) (name g) (description g) (adminId g) ms (inviteCode g)
    (settings g).

Definition isUserFamilyAdmin (uid : string) (familyGroup : FamilyGroup) : bool :=
  (adminId familyGroup =? uid)%string.

Definition isUserFamilyMember (uid : string) (familyGroup : FamilyGroup) : bool :=
  existsb (fun m => (userId m =? uid)%string && isActive m) (members familyGroup).

(** [member.userId.toString() === uid] on a group that was loaded with
    [.populate('members.userId', 'name email')]: the field then holds the
    [User] document it refers to, and [toString()] of a mongoose document
    is its inspect text ([{ _id: ..., name: ..., email: ... }]), which is
    not the id, so the comparison fails for every entry.  (A roster only
    holds ids of users that the auth middleware or [User.findOne] found,
    and nothing deletes a user: every reference resolves to a document.) *)
Definition populatedUserIdIs (uid : string) (m : FamilyMember) : bool := false.

(** [familyGroup.adminId.toString() === uid] after
    [.populate('adminId', 'name email')], for the same reason. *)
Definition populatedAdminIdIs (uid : string) (g : FamilyGroup) : bool := false.

(** [isUserFamilyMember] called on a populated group. *)
Definition isUserFamilyMember_populated (uid : string) (familyGroup : FamilyGroup)
  : bool :=
  existsb (fun m => populatedUserIdIs uid m && isActive m) (members familyGroup).

(** [members.filter(m => m.role === 'admin' && m.isActive).length]. *)
Definition adminCount (ms : list FamilyMember) : nat :=
  List.length (filter (fun m => Role_eqb (role m) admin && isActive m) ms).

(** [members.filter(m => m.isActive).length]. *)
Definition memberCount (ms : list FamilyMember) : nat :=
  List.length (filter isActive ms).

(** *** Requests and responses *)

Inductive ResponseData : Type :=
| NoData
| MemberData (m : FamilyMember)
| InviteData (code : string) (count : nat)
| GroupData (g : FamilyGroup) (userRole : Role) (isAdmin : bool) (count : nat).

Record Response : Type := mkResponse {
  status : nat;
  res_message : string;
  data : ResponseData
}.

Definition requireAuth (req_user : option User) : Handler User :=
  orThrow req_user "Authentication required" Unauthorized.

(** Optional keys of a JS object are [option]s; a missing key is [None]. *)
Record SettingsObj : Type := mkSettingsObj {
  o_allowMemberInvites : option bool;
  o_requireApprovalForRecipes : option bool;
  o_sharedPantry : option bool;
  o_sharedMealPlans : option bool;
  o_sharedShoppingLists : option bool
}.

Record CreateBody : Type := mkCreateBody {
  b_name : string;
  b_description : option string;
  b_settings : option SettingsObj
}.

Record MemberUpdates : Type := mkMemberUpdates {
  u_role : option Role;
  u_isActive : option bool
}.

Definition orDefault {A} (d : A) (o : option A) : A :=
  match o with Some a => a | None => d end.

(** [z.boolean().default(d)] on every key of the settings object. *)
Definition zodSettings (o : SettingsObj) : SettingsObj :=
  mkSettingsObj
    (Some (orDefault true (o_allowMemberInvites o)))
    (Some (orDefault false (o_requireApprovalForRecipes o)))
    (Some (orDefault true (o_sharedPantry o)))
    (Some (orDefault true (o_sharedMealPlans o)))
    (Some (orDefault true (o_sharedShoppingLists o))).

(** Object spread [{ ...a, ...b }] where [b] may be [undefined]. *)
Definition spreadSettings (a : SettingsObj) (b : option SettingsObj) : SettingsObj :=
  match b with
  | None => a
  | Some b =>
      mkSettingsObj
        (match o_allowMemberInvites b with Some v => Some v | None => o_allowMemberInvites a end)
        (match o_requireApprovalForRecipes b with Some v => Some v | None => o_requireApprovalForRecipes a end)
        (match o_sharedPantry b with Some v => Some v | None => o_sharedPantry a end)
        (match o_sharedMealPlans b with Some v => Some v | None => o_sharedMealPlans a end)
        (match o_sharedShoppingLists b with Some v => Some v | None => o_sharedShoppingLists a end)
  end.

(** Casting to [familyGroupSettingsSchema], which has its own defaults. *)
Definition castSettings (o : SettingsObj) : FamilyGroupSettings :=
  mkSettings
    (orDefault true (o_allowMemberInvites o))
    (orDefault false (o_requireApprovalForRecipes o))
    (orDefault true (o_sharedPantry o))
    (orDefault true (o_sharedMealPlans o))
    (orDefault true (o_sharedShoppingLists o)).

Definition validationError {A} (issues : list string) : Handler A :=
  throw ("Validation error: " ++ JS.join ", " issues) BadRequest.

(** [createFamilyGroupSchema.parse]: the length checks run on the raw
    strings, then the name is trimmed. *)
Definition createFamilyGroupSchema (body : CreateBody) : Handler CreateBody :=
  let issues :=
    (if String.length (b_name body) <? 1 then ["Family group name is required"] else [])
    ++ (if 50 <? String.length (b_name body) then ["Name too long"] else [])
    ++ (match b_description body with
        | Some d => if 200 <? String.length d then ["Description too long"] else []
        | None => []
        end) in
  match issues with
  | [] => ret (mkCreateBody (JS.trim (b_name body)) (b_description body)
                 (option_map zodSettings (b_settings body)))
  | _ => validationError issues
  end.

(** [joinByInviteCodeSchema.parse]: [min(1)] on the raw string, then
    [trim], then [toUpperCase]. *)
Definition joinByInviteCodeSchema (raw : string) : Handler string :=
  if String.length raw <? 1 then validationError ["Invite code is required"]
  else ret (JS.toUpperCase (JS.trim raw)).

(** [inviteMemberSchema.parse]; [isEmail] is zod's e-mail check, which
    runs on the raw string before [toLowerCase] and [trim]. *)
Definition inviteMemberSchema (isEmail : string -> bool) (raw : string)
  : Handler string :=
  if isEmail raw then ret (JS.trim (JS.toLowerCase raw))
  else validationError ["Invalid email format"].

(** [Object.assign(member, updates)]: only the keys present are written. *)
Definition assignMember (m : FamilyMember) (updates : MemberUpdates) : FamilyMember :=
  mkMember (userId m) (orDefault (role m) (u_role updates)) (joinedAt m)
    (orDefault (isActive m) (u_isActive updates)).

(* ------------------------------------------------------------------ *)
(** ** The controller *)

(** The [do { ... } while (!isUnique)] loop of [createFamilyGroup];
    attempt [k] consumes the draws [8k .. 8k+7] of [Math.random()]. *)
Fixpoint uniqueInviteCode (fuel : nat) (rnd : nat -> Q) (attempt : nat)
  : Handler string :=
  match fuel with
  | O => outOfFuel
  | S fuel' =>
      let inviteCode := generateInviteCode (fun i => rnd (8 * attempt + i)) in
      existingGroup <- FamilyGroup_findOne_inviteCode inviteCode ;;
      match existingGroup with
      | None => ret inviteCode
      | Some _ => uniqueInviteCode fuel' rnd (S attempt)
      end
  end.

Definition defaultSettingsObj : SettingsObj :=
  mkSettingsObj (Some true) (Some false) (Some true) (Some true) (Some true).

(** [new FamilyGroup({...})]: the schema trims [name] and upper-cases
    [inviteCode]; [newId] is the ObjectId the driver allocates. *)
Definition newFamilyGroup (newId : string) (groupData : CreateBody)
  (uid : string) (now : Z) (code : string) : FamilyGroup :=
  mkGroup newId (JS.trim (b_name groupData)) (b_description groupData) uid
    [mkMember uid admin now true]
    (JS.toUpperCase code)
    (castSettings (spreadSettings defaultSettingsObj (b_settings groupData))).

Definition createFamilyGroup (fuel : nat) (rnd : nat -> Q) (newId : string)
  (now : Z) (req_user : option User) (body : CreateBody) : Handler Response :=
  user <- requireAuth req_user ;;
  groupData <- createFamilyGroupSchema body ;;
  existingAdminGroup <- FamilyGroup_findOne_adminId (user_id user) ;;
  _ <- throwIf (match existingAdminGroup with Some _ => true | None => false end)
         "You can only create one family group. Please leave your current group first."
         Conflict ;;
  inviteCode <- uniqueInviteCode fuel rnd 0 ;;
  let g := newFamilyGroup newId groupData (user_id user) now inviteCode in
  _ <- saveNew g ;;
  ret (mkResponse 201 "Family group created successfully" (GroupData g admin true 1)).

Definition inviteMember (isEmail : string -> bool) (now : Z)
  (req_user : option User) (id : string) (body_email : string)
  : Handler Response :=
  user <- requireAuth req_user ;;
  _ <- throwIf (id =? "")%string "Valid family group ID is required" BadRequest ;;
  email <- inviteMemberSchema isEmail body_email ;;
  found <- FamilyGroup_findById id ;;
  familyGroup <- orThrow found "Family group not found" NotFound ;;
  userMember <- orThrow
    (find (fun m => (userId m =? user_id user)%string && isActive m)
       (members familyGroup))
    "You are not a member of this family group" Forbidden ;;
  _ <- throwIf (negb (Role_eqb (role userMember) admin)
                && negb (allowMemberInvites (settings familyGroup)))
         "Only admins can invite members to this family group" Forbidden ;;
  invitee <- User_findOne_email (JS.toLowerCase email) ;;
  inviteeUser <- orThrow invitee "User with this email does not exist" NotFound ;;
  match find (hasUserId (user_id inviteeUser)) (members familyGroup) with
  | Some existingMember =>
      if isActive existingMember
      then throw "User is already a member of this family group" Conflict
      else
        _ <- save (withMembers familyGroup
                     (updateFirst (hasUserId (user_id inviteeUser)) (reactivate now)
                        (members familyGroup))) ;;
        ret (mkResponse 200 "Member reactivated successfully"
               (MemberData (reactivate now existingMember)))
  | None =>
      let g := withMembers familyGroup
                 (members familyGroup
                  ++ [mkMember (user_id inviteeUser) member now true]) in
      _ <- save g ;;
      ret (mkResponse 200 "Member added successfully"
             (InviteData (inviteCode g) (memberCount (members g))))
  end.

(** The group is loaded populated, so the search for the caller's entry
    compares documents with an id: it finds nothing, and the caller is
    appended whatever entries the roster already has for them. *)
Definition joinByInviteCode (now : Z) (req_user : option User)
  (body_inviteCode : string) : Handler Response :=
  user <- requireAuth req_user ;;
  inviteCode <- joinByInviteCodeSchema body_inviteCode ;;
  (* [findOne({ inviteCode }).populate('adminId').populate('members.userId')] *)
  found <- FamilyGroup_findOne_inviteCode (JS.toUpperCase inviteCode) ;;
  familyGroup <- orThrow found "Invalid invite code" NotFound ;;
  let existingMember :=
    find (populatedUserIdIs (user_id user)) (members familyGroup) in
  _ <- throwIf (match existingMember with Some m => isActive m | None => false end)
         "You are already a member of this family group" Conflict ;;
  let g :=
    match existingMember with
    | Some m =>
        (* here [m.isActive] is false: reactivate *)
        withMembers familyGroup
          (updateFirst (populatedUserIdIs (user_id user)) (reactivate now)
             (members familyGroup))
    | None =>
        withMembers familyGroup
          (members familyGroup ++ [mkMember (user_id user) member now true])
    end in
  _ <- save g ;;
  ret (mkResponse 200 "Successfully joined family group"
         (GroupData g member false (memberCount (members g)))).

Definition updateMember (req_user : option User) (id memberId : string)
  (updates : MemberUpdates) : Handler Response :=
  user <- requireAuth req_user ;;
  _ <- throwIf ((id =? "") || (memberId =? ""))%string
         "Valid family group ID and member ID are required" BadRequest ;;
  found <- FamilyGroup_findById id ;;
  familyGroup <- orThrow found "Family group not found" NotFound ;;
  _ <- throwIf (negb (isUserFamilyAdmin (user_id user) familyGroup))
         "Only family group admin can update members" Forbidden ;;
  target <- orThrow (find (hasUserId memberId) (members familyGroup))
              "Member not found" NotFound ;;
  _ <- throwIf ((userId target =? user_id user)%string
                && (match u_role updates with Some member => true | _ => false end)
                && (adminCount (members familyGroup) <=? 1))
         "Cannot remove admin role. Family group must have at least one admin."
         BadRequest ;;
  _ <- save (withMembers familyGroup
               (updateFirst (hasUserId memberId) (fun m => assignMember m updates)
                  (members familyGroup))) ;;
  ret (mkResponse 200 "Member updated successfully"
         (MemberData (assignMember target updates))).

Definition removeMember (req_user : option User) (id memberId : string)
  : Handler Response :=
  user <- requireAuth req_user ;;
  _ <- throwIf ((id =? "") || (memberId =? ""))%string
         "Valid family group ID and member ID are required" BadRequest ;;
  found <- FamilyGroup_findById id ;;
  familyGroup <- orThrow found "Family group not found" NotFound ;;
  target <- orThrow (find (hasUserId memberId) (members familyGroup))
              "Member not found" NotFound ;;
  let isAdmin := isUserFamilyAdmin (user_id user) familyGroup in
  let isSelf := (user_id user =? memberId)%string in
  _ <- throwIf (negb isAdmin && negb isSelf)
         "You can only remove yourself from the family group" Forbidden ;;
  _ <- throwIf (Role_eqb (role target) admin
                && (adminCount (members familyGroup) <=? 1))
         "Cannot remove the last admin. Please assign another admin first."
         BadRequest ;;
  _ <- save (withMembers familyGroup
               (updateFirst (hasUserId memberId) (setActive false)
                  (members familyGroup))) ;;
  ret (mkResponse 200 "Member removed successfully" NoData).

Definition leaveFamilyGroup (req_user : option User) (id : string)
  : Handler Response :=
  user <- requireAuth req_user ;;
  _ <- throwIf (id =? "")%string "Valid family group ID is required" BadRequest ;;
  found <- FamilyGroup_findById id ;;
  familyGroup <- orThrow found "Family group not found" NotFound ;;
  let found_member := find (hasUserId (user_id user)) (members familyGroup) in
  _ <- throwIf (match found_member with Some m => negb (isActive m) | None => true end)
         "You are not a member of this family group" NotFound ;;
  _ <- throwIf (match found_member with
                | Some m => Role_eqb (role m) admin
                            && (adminCount (members familyGroup) <=? 1)
                | None => false
                end)
         "Cannot leave family group. You are the last admin. Please assign another admin first."
         BadRequest ;;
  _ <- save (withMembers familyGroup
               (updateFirst (hasUserId (user_id user)) (setActive false)
                  (members familyGroup))) ;;
  ret (mkResponse 200 "Successfully left family group" NoData).

(** The membership-mutating requests of the API. *)
Inductive MembershipOp : Type :=
| Invite (isEmail : string -> bool) (now : Z) (req_user : option User)
    (id : string) (email : string)
| Join (now : Z) (req_user : option User) (code : string)
| UpdateMember (req_user : option User) (id memberId : string)
    (updates : MemberUpdates)
| RemoveMember (req_user : option User) (id memberId : string)
| Leave (req_user : option User) (id : string).

Definition runOp (op : MembershipOp) : Handler Response :=
  match op with
  | Invite isEmail now u id email => inviteMember isEmail now u id email
  | Join now u code => joinByInviteCode now u code
  | UpdateMember u id memberId updates => updateMember u id memberId updates
  | RemoveMember u id memberId => removeMember u id memberId
  | Leave u id => leaveFamilyGroup u id
  end.

(** *** Predicates of the design note *)

(** "At least one member with role = admin and isActive = true". *)
Definition hasActiveAdmin (g : FamilyGroup) : Prop :=
  1 <= adminCount (members g).

(** No user has two entries in the roster. *)
Definition uniqueRoster (g : FamilyGroup) : Prop :=
  NoDup (map userId (members g)).

(** [_id] is the primary key of the collection. *)
Definition uniqueIds (st : Store) : Prop :=
  NoDup (map _id (groups st)).

Definition isRemoval (op : MembershipOp) : bool :=
  match op with
  | RemoveMember _ _ _ | Leave _ _ => true
  | _ => false
  end.

(** Reactivate-or-append, as [inviteMember] writes it. *)
Definition enrolled (uid : string) (now : Z) (ms ms' : list FamilyMember) : Prop :=
  (exists m, find (hasUserId uid) ms = Some m /\ isActive m = false
             /\ ms' = updateFirst (hasUserId uid) (reactivate now) ms)
  \/ (find (hasUserId uid) ms = None
      /\ ms' = ms ++ [mkMember uid member now true]).

(** A new entry at the end, as [joinByInviteCode] writes it. *)
Definition appended (uid : string) (now : Z) (ms ms' : list FamilyMember) : Prop :=
  ms' = ms ++ [mkMember uid member now true].

(** Deactivation, as [removeMember] and [leaveFamilyGroup] write it. *)
Definition dismissed (uid : string) (ms ms' : list FamilyMember) : Prop :=
  exists m, find (hasUserId uid) ms = Some m
            /\ (role m = member \/ 2 <= adminCount ms)
            /\ ms' = updateFirst (hasUserId uid) (setActive false) ms.

(** The roster a request writes back, in terms of the roster it loaded. *)
Definition opStep (op : MembershipOp) (ms ms' : list FamilyMember) : Prop :=
  match op with
  | Invite _ now _ _ _ => exists uid, enrolled uid now ms ms'
  | Join now _ _ => exists uid, appended uid now ms ms'
  | UpdateMember _ _ memberId updates =>
      ms' = updateFirst (hasUserId memberId) (fun m => assignMember m updates) ms
  | RemoveMember _ _ memberId => dismissed memberId ms ms'
  | Leave _ _ => exists uid, dismissed uid ms ms'
  end.

(** A request either leaves the store as it is, or writes back one loaded
    group with a roster obtained by the step of that request. *)
Definition footprint (op : MembershipOp) (st st' : Store) : Prop :=
  st' = st
  \/ exists g ms',
       lookupGroup (_id g) st = Some g
       /\ st' = mkStore (replaceDoc (withMembers g ms') (groups st)) (users st)
       /\ opStep op (members g) ms'.

(** Soft removal, between the roster a request loaded and the one it
    left: no entry is gone and every entry still belongs to the same user. *)
Definition rosterKept (ms ms' : list FamilyMember) : Prop :=
  List.length ms <= List.length ms'
  /\ exists added, map userId ms' = map userId ms ++ added.

(** Entry by entry, nothing changed except possibly [isActive := false]. *)
Definition onlyDeactivated (ms ms' : list FamilyMember) : Prop :=
  Forall2 (fun m m' => m' = m \/ m' = setActive false m) ms ms'.

(** No stored group holds [code]. *)
Definition codeFree (st : Store) (code : string) : Prop :=
  forall h, In h (groups st) -> inviteCode h <> code.

(** Settings as the design note words them: the five defaults, each
    overridden by the caller's value when the caller gave one. *)
Definition specSettings (caller : option SettingsObj) : FamilyGroupSettings :=
  let pick (d : bool) (f : SettingsObj -> option bool) : bool :=
    match caller with
    | Some o => match f o with Some v => v | None => d end
    | None => d
    end in
  mkSettings (pick true o_allowMemberInvites)
    (pick false o_requireApprovalForRecipes)
    (pick true o_sharedPantry)
    (pick true o_sharedMealPlans)
    (pick true o_sharedShoppingLists).

Definition statusOf {A} (o : Outcome A) : option nat :=
  match o with
  | Sent _ => None
  | Thrown e => Some (statusCode e)
  | Rejected _ => None
  | OutOfFuel => None
  end.

Definition isSent {A} (o : Outcome A) : bool :=
  match o with Sent _ => true | _ => false end.

(* ------------------------------------------------------------------ *)
(** ** A worked history of one group

    The "Smith Family" scenario of the design note, run through the
    handlers themselves: every store below is what the previous request
    left behind. *)

Module Scenario.

Definition alice : User := mkUser "A" "alice@example.com" "Alice".
Definition bob : User := mkUser "B" "bob@example.com" "Bob".
Definition carol : User := mkUser "C" "carol@example.com" "Carol".

Definition noGroups : Store := mkStore [] [alice; bob; carol].

(** [Math.random()] returning 0 every time: the code "AAAAAAAA". *)
Definition zeros : nat -> Q := fun _ => 0%Q.

(** [Math.random()] returning 0 eight times and 1/36 from then on: the
    codes "AAAAAAAA", then "BBBBBBBB". *)
Definition secondTry : nat -> Q := fun i => if i <? 8 then 0%Q else (1 # 36)%Q.

Definition anyEmail : string -> bool := fun _ => true.

Definition smith : CreateBody := mkCreateBody "Smith Family" None None.

Definition after {A} (h : Handler A) (st : Store) : Store := snd (h st).

(** Alice creates the group: [A admin active]. *)
Definition created : Store :=
  after (createFamilyGroup 1 zeros "g1" 1000 (Some alice) smith) noGroups.

(** Alice invites Bob: [A admin active; B member active]. *)
Definition invited : Store :=
  after (inviteMember anyEmail 2000 (Some alice) "g1" "bob@example.com") created.

(** Alice promotes Bob: [A admin active; B admin active]. *)
Definition promoted : Store :=
  after (updateMember (Some alice) "g1" "B" (mkMemberUpdates (Some admin) None))
    invited.

(** Alice removes Bob: [A admin active; B admin inactive]. *)
Definition bobRemoved : Store :=
  after (removeMember (Some alice) "g1" "B") promoted.

(** Alice gives up her own admin role while Bob is an admin too:
    [A member active; B admin active]. *)
Definition aliceDemoted : Store :=
  after (updateMember (Some alice) "g1" "A" (mkMemberUpdates (Some member) None))
    promoted.

(** Another history of the same group: Bob joins with the invite code,
    [A admin active; B member active]. *)
Definition bobJoined : Store :=
  after (joinByInviteCode 2000 (Some bob) "aaaaaaaa") created.

(** Bob leaves: [A admin active; B member inactive]. *)
Definition bobLeft : Store :=
  after (leaveFamilyGroup (Some bob) "g1") bobJoined.

(** Bob joins again with the code:
    [A admin active; B member inactive; B member active]. *)
Definition bobRejoined : Store :=
  after (joinByInviteCode 3000 (Some bob) "AAAAAAAA") bobLeft.

(** The group of this history with roster [ms]. *)
Definition smithGroup (ms : list FamilyMember) : FamilyGroup :=
  mkGroup "g1" "Smith Family" None "A" ms "AAAAAAAA"
    (mkSettings true false true true true).

End Scenario.

(* ------------------------------------------------------------------ *)
(** ** The read handlers of the family controller

    [getUserFamilyGroups] and [getFamilyGroupById] wrap their whole body
    in [try { ... } catch (error) { throw new ApiError(..., 500) }]. *)

(** [try { body } catch (error) { throw new ApiError(msg, code) }]. *)
Definition rethrowAs {A} (msg : string) (code : nat) (body : Handler A)
  : Handler A :=
  fun st =>
    match body st with
    | (Thrown _, st') => (Thrown (mkApiError msg code), st')
    | (Rejected _, st') => (Thrown (mkApiError msg code), st')
    | r => r
    end.

(** [{ ...group.toObject(), userRole, isAdmin, memberCount }]. *)
Record GroupView : Type := mkGroupView {
  view_group : FamilyGroup;
  view_userRole : option Role;
  view_isAdmin : bool;
  view_memberCount : nat
}.

(** The view of a group that was loaded populated: [userRole] is
    [userMember?.role] with [userMember = members.find(m =>
    m.userId.toString() === uid)], [isAdmin] is [adminId.toString() === uid],
    both computed on the populated documents. *)
Definition viewFor (uid : string) (g : FamilyGroup) : GroupView :=
  mkGroupView g
    (option_map role (find (populatedUserIdIs uid) (members g)))
    (populatedAdminIdIs uid g)
    (memberCount (members g)).

(** The Mongo filter [{ 'members.userId': uid, 'members.isActive': true }]:
    each dotted condition must hold of some element of the array, not
    necessarily of the same one. *)
Definition matchesMembership (uid : string) (g : FamilyGroup) : bool :=
  existsb (hasUserId uid) (members g) && existsb isActive (members g).

(** [createdAt] is stamped when a group is inserted, so sorting by it in
    descending order reverses the insertion order of the collection. *)
Definition getUserFamilyGroups (req_user : option User)
  : Handler (list GroupView) :=
  user <- requireAuth req_user ;;
  rethrowAs "Failed to fetch family groups" 500
    (fun st =>
       (Sent (map (viewFor (user_id user))
                (rev (filter (matchesMembership (user_id user)) (groups st)))),
        st)).

Definition getFamilyGroupById (req_user : option User) (id : string)
  : Handler GroupView :=
  user <- requireAuth req_user ;;
  _ <- throwIf (id =? "")%string "Valid family group ID is required" BadRequest ;;
  rethrowAs "Failed to fetch family group" 500
    ((* [findById(id).populate('adminId').populate('members.userId')] *)
     found <- FamilyGroup_findById id ;;
     familyGroup <- orThrow found "Family group not found" NotFound ;;
     _ <- throwIf (negb (isUserFamilyMember_populated (user_id user) familyGroup))
            "Access denied. You are not a member of this family group."
            Forbidden ;;
     ret (viewFor (user_id user) familyGroup)).

(* ------------------------------------------------------------------ *)
(** ** [updateFamilyGroup]

    Its [catch] turns a [ZodError] into a 400 [ApiError] and rethrows
    everything else untouched, so a mongoose [ValidationError] raised by
    [save] leaves the handler as it is.  The handler is therefore written
    over exceptions of three kinds. *)

Inductive Raised : Type :=
| RaisedApi (e : ApiError)
| RaisedZod (issues : list string)
| RaisedValidation (paths : list string).

(** A computation over a state [S] that returns or raises. *)
Definition Try (S A : Type) : Type := S -> (A + Raised) * S.

Definition tret {S A} (a : A) : Try S A := fun s => (inl a, s).

Definition traise {S A} (e : Raised) : Try S A := fun s => (inr e, s).

Definition tbind {S A B} (c : Try S A) (k : A -> Try S B) : Try S B :=
  fun s =>
    match c s with
    | (inl a, s') => k a s'
    | (inr e, s') => (inr e, s')
    end.

(** [try { body } catch (error) { handler(error) }]: what [body] wrote
    before raising stays written. *)
Definition tcatch {S A} (body : Try S A) (handler : Raised -> Try S A)
  : Try S A :=
  fun s =>
    match body s with
    | (inr e, s') => handler e s'
    | r => r
    end.

Declare Scope try_scope.
Delimit Scope try_scope with try.
Notation "x <~ c1 ;; c2" := (tbind c1 (fun x => c2))
  (at level 100, c1 at next level, right associativity) : try_scope.

Definition raiseApi {S A} (msg : string) (code : nat) : Try S A :=
  traise (RaisedApi (mkApiError msg code)).

Definition raiseIf {S} (b : bool) (msg : string) (code : nat) : Try S unit :=
  if b then raiseApi msg code else tret tt.

Definition orRaise {S A} (o : option A) (msg : string) (code : nat) : Try S A :=
  match o with
  | Some a => tret a
  | None => raiseApi msg code
  end.

(** The [catch] shared by the handlers that parse a body:
    [if (error instanceof z.ZodError) throw new ApiError(`Validation error:
    ...`, 400)]. *)
Definition zodAsBadRequest (e : Raised) : option Raised :=
  match e with
  | RaisedZod issues =>
      Some (RaisedApi (mkApiError ("Validation error: " ++ JS.join ", " issues)
                         BadRequest))
  | _ => None
  end.

Definition statusOfRaised {A} (r : A + Raised) : option nat :=
  match r with
  | inr (RaisedApi e) => Some (statusCode e)
  | _ => None
  end.

Definition isReturned {A} (r : A + Raised) : bool :=
  match r with inl _ => true | inr _ => false end.

Record UpdateBody : Type := mkUpdateBody {
  ub_name : option string;
  ub_description : option string;
  ub_settings : option SettingsObj
}.

(** [createFamilyGroupSchema.partial().parse]: every key is optional; a
    key that is present is checked as in [createFamilyGroupSchema]. *)
Definition updateFamilyGroupSchema {S} (body : UpdateBody) : Try S UpdateBody :=
  let issues :=
    (match ub_name body with
     | Some n =>
         (if String.length n <? 1 then ["Family group name is required"] else [])
         ++ (if 50 <? String.length n then ["Name too long"] else [])
     | None => []
     end)
    ++ (match ub_description body with
        | Some d => if 200 <? String.length d then ["Description too long"] else []
        | None => []
        end) in
  match issues with
  | [] => tret (mkUpdateBody (option_map JS.trim (ub_name body))
                  (ub_description body)
                  (option_map zodSettings (ub_settings body)))
  | _ => traise (RaisedZod issues)
  end.

(** [Object.assign(familyGroup, updates)]: the keys present are set through
    the schema (the [trim] setter of [name], the cast of [settings]). *)
Definition assignGroup (g : FamilyGroup) (updates : UpdateBody) : FamilyGroup :=
  mkGroup (_id g)
    (match ub_name updates with Some n => JS.trim n | None => name g end)
    (match ub_description updates with Some d => Some d | None => description g end)
    (adminId g) (members g) (inviteCode g)
    (match ub_settings updates with Some s => castSettings s | None => settings g end).

(** [await familyGroup.save()]: validation, then the write. *)
Definition saveValidated (g : FamilyGroup) : Try Store unit :=
  fun st =>
    match invalidPaths g with
    | [] => (inl tt, mkStore (replaceDoc g (groups st)) (users st))
    | paths => (inr (RaisedValidation paths), st)
    end.

Definition updateFamilyGroup (req_user : option User) (id : string)
  (body : UpdateBody) : Try Store FamilyGroup :=
  (user <~ orRaise req_user "Authentication required" Unauthorized ;;
   _ <~ raiseIf (id =? "")%string "Valid family group ID is required" BadRequest ;;
   tcatch
     (updates <~ updateFamilyGroupSchema body ;;
      familyGroup <~ (fun st => orRaise (lookupGroup id st)
                                  "Family group not found" NotFound st) ;;
      _ <~ raiseIf (negb (isUserFamilyAdmin (user_id user) familyGroup))
             "Only family group admin can update settings" Forbidden ;;
      let g := assignGroup familyGroup updates in
      _ <~ saveValidated g ;;
      tret g)
     (fun e => match zodAsBadRequest e with
               | Some e' => traise e'
               | None => traise e
               end))%try.

(** A body that [updateFamilyGroupSchema] accepts. *)
Definition validUpdateBody (body : UpdateBody) : Prop :=
  (forall n, ub_name body = Some n -> 1 <= String.length n <= 50)
  /\ (forall d, ub_description body = Some d -> String.length d <= 200).

(** No two groups hold the same invite code. *)
Definition uniqueCodes (st : Store) : Prop :=
  NoDup (map inviteCode (groups st)).

(** No user is the [adminId] of two groups. *)
Definition oneGroupPerAdmin (st : Store) : Prop :=
  NoDup (map adminId (groups st)).

(** What a membership request must leave alone in a group. *)
Definition sameGroupFields (g g' : FamilyGroup) : Prop :=
  _id g' = _id g /\ name g' = name g /\ description g' = description g
  /\ adminId g' = adminId g /\ inviteCode g' = inviteCode g
  /\ settings g' = settings g.

(** A string of white space only. *)
Definition blank (s : string) : Prop :=
  Forall (fun c => JS.isWhiteSpace c = true) (list_ascii_of_string s).

(* ------------------------------------------------------------------ *)
(** ** The shopping-list controller

    The second controller of the same source file.  Every handler runs
    its body inside [try { ... } catch (error) { ... }], and the [catch]
    replaces whatever was thrown - the 404s of the body included - by a 500
    [ApiError], except that a [ZodError] becomes a 400.

    JavaScript numbers (quantities and prices) are kept abstract: a type
    [Num] with the operations the controller uses.  [findOne], [find] and
    [findIndex] return the first match; an item pushed onto a list gets
    its [_id] from the driver ([newItemId]). *)

Module ShoppingList.

Local Set Implicit Arguments.

Section WithNumbers.

Variable Num : Type.
(** [0], [a + b], [x > 0], [x >= 0] and the truthiness of a number. *)
Variable zero : Num.
Variable plus : Num -> Num -> Num.
Variable isPositive : Num -> bool.
Variable isNonNegative : Num -> bool.
Variable truthy : Num -> bool.
(** [Math.round((purchased / total) * 100)]. *)
Variable roundPercent : nat -> nat -> Num.

Inductive Status : Type := active | completed | archived.

Definition Status_eqb (a b : Status) : bool :=
  match a, b with
  | active, active | completed, completed | archived, archived => true
  | _, _ => false
  end.

Record Item : Type := mkItem {
  item_id : string;
  ingredientName : string;
  quantity : Num;
  item_unit : string;
  category : option string;
  isPurchased : bool;
  estimatedPrice : option Num;
  actualPrice : option Num;
  notes : option string
}.

Record List : Type := mkList {
  _id : string;
  userId : string;
  name : string;
  items : list Item;
  status : Status;
  totalBudget : option Num;
  list_notes : option string
}.

(** The [ShoppingList] collection. *)
Definition Lists : Type := list List.

(** *** Request bodies and their schemas *)

Record AddItemBody : Type := mkAddItemBody {
  ab_ingredientName : string;
  ab_quantity : Num;
  ab_unit : string;
  ab_category : option string;
  ab_notes : option string;
  ab_estimatedPrice : option Num
}.

Record UpdateItemBody : Type := mkUpdateItemBody {
  ui_quantity : option Num;
  ui_unit : option string;
  ui_category : option string;
  ui_notes : option string;
  ui_estimatedPrice : option Num;
  ui_isPurchased : option bool;
  ui_actualPrice : option Num
}.

Record MarkPurchasedBody : Type := mkMarkPurchasedBody {
  mp_isPurchased : bool;
  mp_actualPrice : option Num
}.

Definition minZeroIssue (o : option Num) : list string :=
  match o with
  | Some p => if isNonNegative p then []
              else ["Number must be greater than or equal to 0"]
  | None => []
  end.

(** [addItemSchema.parse]: the length checks run before [trim]. *)
Definition addItemSchema (body : AddItemBody) : Try Lists AddItemBody :=
  let issues :=
    (if String.length (ab_ingredientName body) <? 1
     then ["Ingredient name is required"] else [])
    ++ (if isPositive (ab_quantity body) then [] else ["Quantity must be positive"])
    ++ (if String.length (ab_unit body) <? 1 then ["Unit is required"] else [])
    ++ minZeroIssue (ab_estimatedPrice body) in
  match issues with
  | [] => tret (mkAddItemBody (JS.trim (ab_ingredientName body))
                  (ab_quantity body) (JS.trim (ab_unit body))
                  (ab_category body) (ab_notes body) (ab_estimatedPrice body))
  | _ => traise (RaisedZod issues)
  end.

Definition updateItemSchema (body : UpdateItemBody) : Try Lists UpdateItemBody :=
  let issues :=
    (match ui_quantity body with
     | Some q => if isPositive q then [] else ["Number must be greater than 0"]
     | None => []
     end)
    ++ (match ui_unit body with
        | Some u => if String.length u <? 1
                    then ["String must contain at least 1 character(s)"] else []
        | None => []
        end)
    ++ minZeroIssue (ui_estimatedPrice body)
    ++ minZeroIssue (ui_actualPrice body) in
  match issues with
  | [] => tret body
  | _ => traise (RaisedZod issues)
  end.

Definition markPurchasedSchema (body : MarkPurchasedBody)
  : Try Lists MarkPurchasedBody :=
  match minZeroIssue (mp_actualPrice body) with
  | [] => tret body
  | issues => traise (RaisedZod issues)
  end.

(** *** Collection access *)

(** [ShoppingList.findOne({ _id: id, userId: uid })]. *)
Definition findOwned (id uid : string) (ls : Lists) : option List :=
  find (fun l => (_id l =? id)%string && (userId l =? uid)%string) ls.

Fixpoint replaceList (l : List) (ls : Lists) : Lists :=
  match ls with
  | [] => []
  | h :: t => if (_id h =? _id l)%string then l :: t else h :: replaceList l t
  end.

(** [ShoppingList.findOneAndDelete({ _id: id, userId: uid })]. *)
Fixpoint deleteOwned (id uid : string) (ls : Lists) : Lists :=
  match ls with
  | [] => []
  | h :: t =>
      if (_id h =? id)%string && (userId h =? uid)%string then t
      else h :: deleteOwned id uid t
  end.

Definition optNonNegative (o : option Num) : bool :=
  match o with Some p => isNonNegative p | None => true end.

(** The validators of [shoppingListItemSchema]: [required] strings must
    not be empty, numbers have [min: 0]. *)
Definition validItem (i : Item) : bool :=
  negb (ingredientName i =? "")%string
  && negb (item_unit i =? "")%string
  && isNonNegative (quantity i)
  && optNonNegative (estimatedPrice i)
  && optNonNegative (actualPrice i).

Definition validList (l : List) : bool :=
  negb (name l =? "")%string
  && forallb validItem (items l)
  && optNonNegative (totalBudget l).

(** [await list.save()]: validation, then the write. *)
Definition saveList (l : List) : Try Lists unit :=
  fun ls =>
    if validList l then (inl tt, replaceList l ls)
    else (inr (RaisedValidation ["items"]), ls).

(** *** Items *)

(** An assignment through the reference [items.find(p)] returned. *)
Fixpoint updateFirstItem (p : Item -> bool) (f : Item -> Item) (l : list Item)
  : list Item :=
  match l with
  | [] => []
  | i :: t => if p i then f i :: t else i :: updateFirstItem p f t
  end.

(** [items.splice(items.findIndex(p), 1)] for an index that was found. *)
Fixpoint removeFirstItem (p : Item -> bool) (l : list Item) : list Item :=
  match l with
  | [] => []
  | i :: t => if p i then t else i :: removeFirstItem p t
  end.

Definition hasItemId (itemId : string) (i : Item) : bool :=
  (item_id i =? itemId)%string.

(** [item.ingredientName.toLowerCase() === name.toLowerCase()]. *)
Definition sameIngredient (ingredient : string) (i : Item) : bool :=
  (JS.toLowerCase (ingredientName i) =? JS.toLowerCase ingredient)%string.

Definition withItems (l : List) (its : list Item) : List :=
  mkList (_id l) (userId l) (name l) its (status l) (totalBudget l) (list_notes l).

Definition withStatus (l : List) (s : Status) : List :=
  mkList (_id l) (userId l) (name l) (items l) s (totalBudget l) (list_notes l).

(** [existingItem.quantity += q; if (price) existingItem.estimatedPrice = price]. *)
Definition topUp (itemData : AddItemBody) (i : Item) : Item :=
  mkItem (item_id i) (ingredientName i)
    (plus (quantity i) (ab_quantity itemData)) (item_unit i) (category i)
    (isPurchased i)
    (match ab_estimatedPrice itemData with
     | Some p => if truthy p then Some p else estimatedPrice i
     | None => estimatedPrice i
     end)
    (actualPrice i) (notes i).

(** [{ ...itemData, isPurchased: false }] cast to an item subdocument. *)
Definition newItem (newItemId : string) (itemData : AddItemBody) : Item :=
  mkItem newItemId (JS.trim (ab_ingredientName itemData)) (ab_quantity itemData)
    (ab_unit itemData) (ab_category itemData) false
    (ab_estimatedPrice itemData) None (ab_notes itemData).

(** [Object.assign(item, updates)]. *)
Definition assignItem (updates : UpdateItemBody) (i : Item) : Item :=
  mkItem (item_id i) (ingredientName i)
    (match ui_quantity updates with Some q => q | None => quantity i end)
    (match ui_unit updates with Some u => u | None => item_unit i end)
    (match ui_category updates with Some c => Some c | None => category i end)
    (match ui_isPurchased updates with Some b => b | None => isPurchased i end)
    (match ui_estimatedPrice updates with Some p => Some p | None => estimatedPrice i end)
    (match ui_actualPrice updates with Some p => Some p | None => actualPrice i end)
    (match ui_notes updates with Some n => Some n | None => notes i end).

(** [item.isPurchased = b; if (price !== undefined) item.actualPrice = price]. *)
Definition markItem (body : MarkPurchasedBody) (i : Item) : Item :=
  mkItem (item_id i) (ingredientName i) (quantity i) (item_unit i) (category i)
    (mp_isPurchased body) (estimatedPrice i)
    (match mp_actualPrice body with Some p => Some p | None => actualPrice i end)
    (notes i).

(** *** The [catch] blocks *)

(** [catch (error) { if (error instanceof z.ZodError) throw 400; throw
    new ApiError(msg, 500) }]. *)
Definition catchZodOr500 {A} (msg : string) (body : Try Lists A) : Try Lists A :=
  tcatch body
    (fun e => match zodAsBadRequest e with
              | Some e' => traise e'
              | None => raiseApi msg 500
              end).

(** [catch (error) { throw new ApiError(msg, 500) }]. *)
Definition catch500 {A} (msg : string) (body : Try Lists A) : Try Lists A :=
  tcatch body (fun _ => raiseApi msg 500).

Definition requireUser (req_user : option User) : Try Lists User :=
  orRaise req_user "Authentication required" Unauthorized.

(** *** Handlers *)

Record Statistics : Type := mkStatistics {
  totalItems : nat;
  purchasedItems : nat;
  remainingItems : nat;
  completionPercentage : Num;
  totalEstimatedCost : Num;
  totalActualCost : Num
}.

(** [price || 0]. *)
Definition orZero (o : option Num) : Num :=
  match o with
  | Some p => if truthy p then p else zero
  | None => zero
  end.

Definition statisticsOf (l : List) : Statistics :=
  let total := List.length (items l) in
  let purchased := List.length (filter isPurchased (items l)) in
  mkStatistics total purchased (total - purchased)
    (if 0 <? total then roundPercent purchased total else zero)
    (fold_left (fun sum i => plus sum (orZero (estimatedPrice i))) (items l) zero)
    (fold_left (fun sum i => plus sum (orZero (actualPrice i))) (items l) zero).

Definition getListById (req_user : option User) (id : string)
  : Try Lists (List * Statistics) :=
  (user <~ requireUser req_user ;;
   _ <~ raiseIf (id =? "")%string "Shopping list ID is required" BadRequest ;;
   catch500 "Failed to fetch shopping list"
     (list <~ (fun ls => orRaise (findOwned id (user_id user) ls)
                           "Shopping list not found" NotFound ls) ;;
      tret (list, statisticsOf list)))%try.

Definition deleteList (req_user : option User) (id : string) : Try Lists unit :=
  (user <~ requireUser req_user ;;
   _ <~ raiseIf (id =? "")%string "Shopping list ID is required" BadRequest ;;
   catch500 "Failed to delete shopping list"
     (fun ls =>
        match findOwned id (user_id user) ls with
        | Some _ => (inl tt, deleteOwned id (user_id user) ls)
        | None => raiseApi "Shopping list not found" NotFound ls
        end))%try.

Definition addItem (newItemId : string) (req_user : option User) (id : string)
  (body : AddItemBody) : Try Lists List :=
  (user <~ requireUser req_user ;;
   _ <~ raiseIf (id =? "")%string "Shopping list ID is required" BadRequest ;;
   catchZodOr500 "Failed to add item to shopping list"
     (itemData <~ addItemSchema body ;;
      list <~ (fun ls => orRaise (findOwned id (user_id user) ls)
                            "Shopping list not found" NotFound ls) ;;
      let list' :=
        match find (sameIngredient (ab_ingredientName itemData)) (items list) with
        | Some _ =>
            withItems list
              (updateFirstItem (sameIngredient (ab_ingredientName itemData))
                 (topUp itemData) (items list))
        | None => withItems list (items list ++ [newItem newItemId itemData])
        end in
      _ <~ saveList list' ;;
      tret list'))%try.

Definition updateItem (req_user : option User) (id itemId : string)
  (body : UpdateItemBody) : Try Lists List :=
  (user <~ requireUser req_user ;;
   _ <~ raiseIf ((id =? "") || (itemId =? ""))%string
          "Shopping list ID and item ID are required" BadRequest ;;
   catchZodOr500 "Failed to update shopping list item"
     (updates <~ updateItemSchema body ;;
      list <~ (fun ls => orRaise (findOwned id (user_id user) ls)
                            "Shopping list not found" NotFound ls) ;;
      _ <~ orRaise (find (hasItemId itemId) (items list))
             "Item not found in shopping list" NotFound ;;
      let list' := withItems list
                     (updateFirstItem (hasItemId itemId) (assignItem updates)
                        (items list)) in
      _ <~ saveList list' ;;
      tret list'))%try.

Definition removeItem (req_user : option User) (id itemId : string)
  : Try Lists List :=
  (user <~ requireUser req_user ;;
   _ <~ raiseIf ((id =? "") || (itemId =? ""))%string
          "Shopping list ID and item ID are required" BadRequest ;;
   catch500 "Failed to remove item from shopping list"
     (list <~ (fun ls => orRaise (findOwned id (user_id user) ls)
                            "Shopping list not found" NotFound ls) ;;
      _ <~ orRaise (find (hasItemId itemId) (items list))
             "Item not found in shopping list" NotFound ;;
      let list' := withItems list (removeFirstItem (hasItemId itemId) (items list)) in
      _ <~ saveList list' ;;
      tret list'))%try.

Definition markItemPurchased (req_user : option User) (id itemId : string)
  (body : MarkPurchasedBody) : Try Lists List :=
  (user <~ requireUser req_user ;;
   catchZodOr500 "Failed to update item purchase status"
     (parsed <~ markPurchasedSchema body ;;
      list <~ (fun ls => orRaise (findOwned id (user_id user) ls)
                            "Shopping list not found" NotFound ls) ;;
      _ <~ orRaise (find (hasItemId itemId) (items list))
             "Item not found in shopping list" NotFound ;;
      let list' := withItems list
                     (updateFirstItem (hasItemId itemId) (markItem parsed)
                        (items list)) in
      _ <~ saveList list' ;;
      if forallb isPurchased (items list') && Status_eqb (status list') active
      then
        (let list'' := withStatus list' completed in
         _ <~ saveList list'' ;;
         tret list'')
      else tret list'))%try.

(** *** Predicates *)

(** No two items of the list have the same ingredient name up to case. *)
Definition distinctIngredients (l : List) : Prop :=
  NoDup (map (fun i => JS.toLowerCase (ingredientName i)) (items l)).

(** Arithmetic the validators rely on: a positive number is non-negative,
    and adding a positive number to a non-negative one gives a
    non-negative one. *)
Definition numbersBehave : Prop :=
  (forall a, isPositive a = true -> isNonNegative a = true)
  /\ (forall a b, isNonNegative a = true -> isPositive b = true ->
                  isNonNegative (plus a b) = true).

(** [_id] is the primary key of the collection. *)
Definition uniqueListIds (ls : Lists) : Prop :=
  NoDup (map _id ls).

(** A body that [addItemSchema] accepts. *)
Definition acceptedAddItem (body : AddItemBody) : Prop :=
  1 <= String.length (ab_ingredientName body)
  /\ isPositive (ab_quantity body) = true
  /\ 1 <= String.length (ab_unit body)
  /\ optNonNegative (ab_estimatedPrice body) = true.

(** Each item request either leaves the collection alone or writes back
    one list that keeps whatever [P] the request preserves. *)
Definition writesBack (P : List -> Prop) (ls ls' : Lists) : Prop :=
  ls' = ls
  \/ exists lst final, In lst ls /\ ls' = replaceList final ls /\ (P lst -> P final).

(** What the handler sends back, if anything: an [ApiError] with one of
    the statuses in [codes]. *)
Definition refusedWith (codes : list nat) {A} (r : A + Raised) : Prop :=
  match r with
  | inl _ => True
  | inr (RaisedApi e) => In (statusCode e) codes
  | inr _ => False
  end.

End WithNumbers.

End ShoppingList.

(** Two shopping lists with whole-number quantities, to run the
    shopping-list handlers on. *)
Module ShoppingScenario.

Definition isPositive (x : Z) : bool := (0 <? x)%Z.
Definition isNonNegative (x : Z) : bool := (0 <=? x)%Z.
Definition truthy (x : Z) : bool := negb (x =? 0)%Z.

(** [Math.round((p / t) * 100)] on whole numbers. *)
Definition roundPercent (p t : nat) : Z := Z.of_nat ((200 * p + t) / (2 * t)).

Definition milk : ShoppingList.Item Z :=
  ShoppingList.mkItem "i1" "Milk" 2%Z "l" None false None None None.

Definition eggs : ShoppingList.Item Z :=
  ShoppingList.mkItem "i2" "Eggs" 12%Z "pcs" None true None None None.

Definition groceries : ShoppingList.List Z :=
  ShoppingList.mkList "l1" "A" "Groceries" [milk; eggs] ShoppingList.active
    None None.

Definition bobsList : ShoppingList.List Z :=
  ShoppingList.mkList "l2" "B" "Party" [] ShoppingList.active None None.

Definition lists : ShoppingList.Lists Z := [groceries; bobsList].

End ShoppingScenario.

(* ================================================================== *)
(** * Properties *)

(* ------------------------------------------------------------------ *)
(** ** Strings *)

Section StringFacts.

Lemma length_append (s t : string) :
  String.length (s ++ t) = String.length s + String.length t.
Proof. induction s as [|c s IH]; simpl; [reflexivity | now rewrite IH]. Qed.

Lemma list_ascii_append (s t : string) :
  list_ascii_of_string (s ++ t)
  = (list_ascii_of_string s ++ list_ascii_of_string t)%list.
Proof. induction s as [|c s IH]; simpl; [reflexivity | now rewrite IH]. Qed.

Lemma smap_length f (s : string) : String.length (JS.smap f s) = String.length s.
Proof. induction s as [|c s IH]; simpl; [reflexivity | now rewrite IH]. Qed.

Lemma toUpperCaseChar_idem c :
  JS.toUpperCaseChar (JS.toUpperCaseChar c) = JS.toUpperCaseChar c.
Proof. destruct c as [[] [] [] [] [] [] [] []]; reflexivity. Qed.

Lemma toUpperCaseChar_ws c :
  JS.isWhiteSpace (JS.toUpperCaseChar c) = JS.isWhiteSpace c.
Proof. destruct c as [[] [] [] [] [] [] [] []]; reflexivity. Qed.

Lemma toUpperCase_idem s : JS.toUpperCase (JS.toUpperCase s) = JS.toUpperCase s.
Proof.
  unfold JS.toUpperCase.
  induction s as [|c s IH]; cbn [JS.smap]; [reflexivity|].
  now rewrite toUpperCaseChar_idem, IH.
Qed.

Lemma toUpperCase_trimStart s :
  JS.toUpperCase (JS.trimStart s) = JS.trimStart (JS.toUpperCase s).
Proof.
  unfold JS.toUpperCase.
  induction s as [|c s IH]; cbn [JS.smap JS.trimStart]; [reflexivity|].
  rewrite toUpperCaseChar_ws. destruct (JS.isWhiteSpace c); [exact IH | reflexivity].
Qed.

Lemma toUpperCase_trimEnd s :
  JS.toUpperCase (JS.trimEnd s) = JS.trimEnd (JS.toUpperCase s).
Proof.
  unfold JS.toUpperCase.
  induction s as [|c s IH]; cbn [JS.smap JS.trimEnd]; [reflexivity|].
  rewrite <- IH, toUpperCaseChar_ws.
  destruct (JS.trimEnd s); cbn [JS.smap];
    [destruct (JS.isWhiteSpace c)|]; reflexivity.
Qed.

(** Upper-casing and trimming commute. *)
Lemma toUpperCase_trim s : JS.toUpperCase (JS.trim s) = JS.trim (JS.toUpperCase s).
Proof. unfold JS.trim. now rewrite toUpperCase_trimEnd, toUpperCase_trimStart. Qed.

Lemma length_zero_iff (s : string) : (String.length s <? 1) = true <-> s = "".
Proof.
  destruct s as [|c s]; split; intro H; try reflexivity; discriminate H.
Qed.

End StringFacts.

Section Trim.

Lemma trimStart_length s : String.length (JS.trimStart s) <= String.length s.
Proof.
  induction s as [|c s IH]; simpl; [lia|].
  destruct (JS.isWhiteSpace c); simpl; lia.
Qed.

Lemma trimEnd_length s : String.length (JS.trimEnd s) <= String.length s.
Proof.
  induction s as [|c s IH]; simpl; [lia|].
  destruct (JS.trimEnd s); [destruct (JS.isWhiteSpace c)|]; simpl in *; lia.
Qed.

Lemma trim_length s : String.length (JS.trim s) <= String.length s.
Proof.
  unfold JS.trim. pose proof (trimEnd_length (JS.trimStart s)).
  pose proof (trimStart_length s). lia.
Qed.

Lemma trimStart_head s :
  JS.trimStart s = "" \/ exists c r, JS.trimStart s = String c r
                                     /\ JS.isWhiteSpace c = false.
Proof.
  induction s as [|c s IH]; simpl; [now left|].
  destruct (JS.isWhiteSpace c) eqn:E; [exact IH|]. right. eauto.
Qed.

Lemma trimEnd_idem s : JS.trimEnd (JS.trimEnd s) = JS.trimEnd s.
Proof.
  induction s as [|c s IH]; cbn [JS.trimEnd]; [reflexivity|].
  destruct (JS.trimEnd s) as [|c' r] eqn:E.
  - destruct (JS.isWhiteSpace c) eqn:Ec; cbn [JS.trimEnd]; [reflexivity|].
    now rewrite Ec.
  - cbn [JS.trimEnd] in *. rewrite IH. reflexivity.
Qed.

(** Trimming a trimmed string changes nothing. *)
Lemma trim_idem s : JS.trim (JS.trim s) = JS.trim s.
Proof.
  unfold JS.trim.
  destruct (trimStart_head s) as [-> | (c & r & -> & Hc)]; [reflexivity|].
  assert (H : JS.trimStart (JS.trimEnd (String c r)) = JS.trimEnd (String c r)).
  { cbn [JS.trimEnd]. rewrite Hc.
    destruct (JS.trimEnd r); cbn [JS.trimStart]; now rewrite Hc. }
  rewrite H. apply trimEnd_idem.
Qed.

End Trim.

(* ------------------------------------------------------------------ *)
(** ** The invite-code generator *)

Section Generator.

Lemma floorMul_range x :
  isUnitSample x -> (0 <= JS.floorMul x 36 < 36)%Z.
Proof.
  intros [H0 H1]. unfold JS.floorMul. simpl Z.of_nat. split.
  - change 0%Z with (Qfloor (inject_Z 0)). apply Qfloor_resp_le.
    change (inject_Z 0) with (0 * inject_Z 36)%Q.
    apply Qmult_le_compat_r; [exact H0 | discriminate].
  - rewrite Zlt_Qlt. eapply Qle_lt_trans; [apply Qfloor_le|].
    change (inject_Z 36) with (1 * inject_Z 36)%Q at 2.
    apply Qmult_lt_compat_r; [reflexivity | exact H1].
Qed.

Lemma charAt_chars k :
  (0 <= k < 36)%Z ->
  exists c, JS.charAt chars k = String c "" /\ isCodeChar c = true.
Proof.
  intros Hk.
  assert (Hn : exists n, n < 36 /\ k = Z.of_nat n)
    by (exists (Z.to_nat k); lia).
  destruct Hn as (n & Hn & ->).
  do 36 (destruct n as [|n]; [eexists; split; reflexivity|]).
  lia.
Qed.

(** The loop appends exactly [n] characters of the alphabet. *)
Lemma generateInviteCode_loop_spec n :
  forall rnd i acc,
    (forall j, i <= j < i + n -> isUnitSample (rnd j)) ->
    exists suffix,
      generateInviteCode_loop n rnd i acc = (acc ++ suffix)%string
      /\ String.length suffix = n
      /\ Forall (fun c => isCodeChar c = true) (list_ascii_of_string suffix).
Proof.
  induction n as [|n IH]; intros rnd i acc Hs; simpl.
  - exists "". split; [|split; [reflexivity | constructor]].
    clear. induction acc as [|c acc IH]; simpl; [reflexivity | now rewrite <- IH].
  - destruct (charAt_chars (JS.floorMul (rnd i) 36)) as (c & Hc & Hok).
    { apply floorMul_range, Hs. lia. }
    change (String.length chars) with 36. rewrite Hc.
    destruct (IH rnd (S i) (acc ++ String c "")%string) as (suf & Heq & Hlen & Hall).
    { intros j Hj. apply Hs. lia. }
    exists (String c suf). rewrite Heq. split; [|split].
    + clear. induction acc as [|a acc IH]; simpl; [reflexivity | now rewrite IH].
    + simpl. now rewrite Hlen.
    + simpl. constructor; assumption.
Qed.

Lemma generateInviteCode_chars rnd :
  (forall i, i < 8 -> isUnitSample (rnd i)) ->
  String.length (generateInviteCode rnd) = 8
  /\ Forall (fun c => isCodeChar c = true)
       (list_ascii_of_string (generateInviteCode rnd)).
Proof.
  intros Hs. unfold generateInviteCode.
  destruct (generateInviteCode_loop_spec 8 rnd 0 "") as (suf & Heq & Hlen & Hall).
  { intros j Hj. apply Hs. lia. }
  rewrite Heq. simpl. split; assumption.
Qed.

End Generator.

(** C8. Invite code generator: whenever the eight readings of
    [Math.random()] lie in [0, 1), the string returned by
    [generateInviteCode] has exactly 8 characters and each of them belongs
    to the alphabet A-Z0-9. *)
Theorem generateInviteCode_shape (rnd : nat -> Q) :
  (forall i, i < 8 -> isUnitSample (rnd i)) ->
  String.length (generateInviteCode rnd) = 8
  /\ Forall (fun c => isCodeChar c = true)
       (list_ascii_of_string (generateInviteCode rnd)).
Proof.
  intros Hs. unfold generateInviteCode.
  destruct (generateInviteCode_loop_spec 8 rnd 0 "") as (suf & Heq & Hlen & Hall).
  { intros j Hj. apply Hs. lia. }
  rewrite Heq. simpl. split; assumption.
Qed.

Lemma generateInviteCode_shape_witness :
  (forall i, i < 8 -> isUnitSample ((fun k => (Z.of_nat k # 8)%Q) i))
  /\ String.length (generateInviteCode (fun k => (Z.of_nat k # 8)%Q)) = 8
  /\ Forall (fun c => isCodeChar c = true)
       (list_ascii_of_string (generateInviteCode (fun k => (Z.of_nat k # 8)%Q))).
Proof.
  assert (H : forall i, i < 8 -> isUnitSample ((fun k => (Z.of_nat k # 8)%Q) i)).
  { intros i Hi. unfold isUnitSample, Qle, Qlt. simpl. lia. }
  split; [exact H | apply (generateInviteCode_shape _ H)].
Defined.

(* ------------------------------------------------------------------ *)
(** ** Stores and rosters *)

(** Expose the state-passing form of a handler run, reducing the steps
    whose result is already known. *)
Ltac handler_unfold :=
  unfold requireAuth, validationError, FamilyGroup_findById,
    FamilyGroup_findOne_adminId, FamilyGroup_findOne_inviteCode,
    User_findOne_email, save, saveNew;
  unfold throwIf, orThrow;
  unfold bind, ret, throw, outOfFuel;
  cbv beta iota.

(** Use a known intermediate result and carry on. *)
Ltac handler_step H := rewrite H; cbv beta iota.

(** The run left the store as it was. *)
Ltac unchanged := left; reflexivity.

(** The run wrote the group [g] back. *)
Ltac written g :=
  right; exists g; eexists; split; [|split; [reflexivity|]].

(** Take the next branch of the run. *)
Ltac branch_bool :=
  match goal with
  | |- context [if ?b then _ else _] => destruct b eqn:?; cbv beta iota; cbn [snd]
  end.

Section StoreFacts.

Lemma lookupGroup_id id st g : lookupGroup id st = Some g -> _id g = id.
Proof.
  unfold lookupGroup. intros H. apply find_some in H.
  now apply String.eqb_eq.
Qed.

Lemma find_replaceDoc id (l : list FamilyGroup) g g' :
  find (fun h => _id h =? id)%string l = Some g ->
  _id g' = id ->
  find (fun h => _id h =? id)%string (replaceDoc g' l) = Some g'.
Proof.
  intros Hf <-. induction l as [|h t IH]; simpl in *; [discriminate|].
  destruct (_id h =? _id g')%string eqn:E.
  - cbn [find]. now rewrite String.eqb_refl.
  - cbn [find]. rewrite E. now apply IH.
Qed.

(** Writing a document back replaces the stored one in place: the
    documents before and after it stay as they are. *)
Lemma replaceDoc_split id (l : list FamilyGroup) g g' :
  find (fun h => (_id h =? id)%string) l = Some g -> _id g' = id ->
  exists before after,
    l = before ++ g :: after
    /\ Forall (fun h => _id h <> id) before
    /\ replaceDoc g' l = before ++ g' :: after.
Proof.
  intros Hf Hid. subst id. induction l as [|h t IH]; [discriminate|].
  simpl in *. destruct (_id h =? _id g')%string eqn:E.
  - injection Hf as ->. exists [], t. repeat split. constructor.
  - destruct (IH Hf) as (before & after & -> & Hb & ->).
    exists (h :: before), after. repeat split.
    constructor; [now apply String.eqb_neq | exact Hb].
Qed.

Lemma Forall2_refl {A} (R : A -> A -> Prop) (l : list A) :
  (forall x, R x x) -> Forall2 R l l.
Proof. intros H. induction l; constructor; auto. Qed.

(** Saving a loaded group changes that stored group and no other. *)
Lemma replaceDoc_Forall2 (R : FamilyGroup -> FamilyGroup -> Prop) id l g g' :
  (forall x, R x x) ->
  find (fun h => _id h =? id)%string l = Some g ->
  _id g' = id ->
  R g g' ->
  Forall2 R l (replaceDoc g' l).
Proof.
  intros Hrefl Hf <- HR. induction l as [|h t IH]; simpl in *; [discriminate|].
  destruct (_id h =? _id g')%string eqn:E.
  - injection Hf as ->. constructor; [exact HR | now apply Forall2_refl].
  - constructor; [apply Hrefl | now apply IH].
Qed.

(** What an assignment through [find]'s result does to the roster. *)
(** On a populated roster no entry is recognised as anybody's. *)
Lemma find_populated uid (ms : list FamilyMember) :
  find (populatedUserIdIs uid) ms = None.
Proof. induction ms as [|m ms IH]; [reflexivity | exact IH]. Qed.

Lemma updateFirst_split p f (l : list FamilyMember) m :
  find p l = Some m ->
  exists pre post,
    l = pre ++ m :: post
    /\ Forall (fun x => p x = false) pre
    /\ updateFirst p f l = pre ++ f m :: post.
Proof.
  induction l as [|x t IH]; simpl; [discriminate|].
  destruct (p x) eqn:E; intros H.
  - injection H as ->. exists [], t. repeat split; constructor.
  - destruct (IH H) as (pre & post & -> & Hpre & Hup).
    exists (x :: pre), post. simpl. rewrite Hup.
    repeat split. now constructor.
Qed.

Lemma find_none_iff_notin uid (l : list FamilyMember) :
  find (hasUserId uid) l = None <-> ~ In uid (map userId l).
Proof.
  unfold hasUserId. induction l as [|x t IH]; simpl; [tauto|].
  destruct (String.eqb_spec (userId x) uid) as [E|E].
  - split; [discriminate | intros H; exfalso; apply H; now left].
  - rewrite IH. split; [intros H [?|?]; [congruence | contradiction] | tauto].
Qed.

Lemma find_hasUserId uid (l : list FamilyMember) m :
  find (hasUserId uid) l = Some m -> In m l /\ userId m = uid.
Proof.
  intros H. apply find_some in H. destruct H as [Hin H].
  split; [assumption | now apply String.eqb_eq].
Qed.

Lemma adminCount_app l1 l2 :
  adminCount (l1 ++ l2) = adminCount l1 + adminCount l2.
Proof. unfold adminCount. now rewrite filter_app, length_app. Qed.

Lemma adminCount_cons m l :
  adminCount (m :: l)
  = (if Role_eqb (role m) admin && isActive m then 1 else 0) + adminCount l.
Proof.
  unfold adminCount. simpl.
  destruct (Role_eqb (role m) admin && isActive m); reflexivity.
Qed.

Lemma updateFirst_userIds p f l :
  (forall m, userId (f m) = userId m) ->
  map userId (updateFirst p f l) = map userId l.
Proof.
  intros Hf. induction l as [|x t IH]; simpl; [reflexivity|].
  destruct (p x); simpl; [now rewrite Hf | now rewrite IH].
Qed.

Lemma updateFirst_length p f l : List.length (updateFirst p f l) = List.length l.
Proof.
  induction l as [|x t IH]; simpl; [reflexivity|].
  destruct (p x); simpl; congruence.
Qed.

Lemma updateFirst_pointwise p f l :
  Forall2 (fun m m' => m' = m \/ m' = f m) l (updateFirst p f l).
Proof.
  induction l as [|x t IH]; simpl; [constructor|].
  destruct (p x); constructor; auto.
  apply Forall2_refl. auto.
Qed.

End StoreFacts.

(* ------------------------------------------------------------------ *)
(** ** Remove member *)

Section RemoveMember.

Variables (st : Store) (user : User) (id memberId : string).
Variables (g : FamilyGroup) (target : FamilyMember).
Hypothesis Hid : id <> "".
Hypothesis Hmid : memberId <> "".
Hypothesis Hg : lookupGroup id st = Some g.
Hypothesis Ht : find (hasUserId memberId) (members g) = Some target.

(** The run of [removeMember] once the group and the entry are found. *)
Lemma removeMember_run :
  removeMember (Some user) id memberId st =
  if negb (isUserFamilyAdmin (user_id user) g)
     && negb (user_id user =? memberId)%string
  then (Thrown (mkApiError "You can only remove yourself from the family group"
                  Forbidden), st)
  else if Role_eqb (role target) admin && (adminCount (members g) <=? 1)
  then (Thrown (mkApiError
                  "Cannot remove the last admin. Please assign another admin first."
                  BadRequest), st)
  else (Sent (mkResponse 200 "Member removed successfully" NoData),
        mkStore (replaceDoc
                   (withMembers g
                      (updateFirst (hasUserId memberId) (setActive false)
                         (members g)))
                   (groups st))
          (users st)).
Proof.
  unfold removeMember. handler_unfold.
  apply String.eqb_neq in Hid, Hmid.
  rewrite Hid, Hmid. cbn [orb]. cbv beta iota.
  handler_step Hg. handler_step Ht.
  destruct (negb (isUserFamilyAdmin (user_id user) g)
            && negb (user_id user =? memberId)%string); [reflexivity|].
  destruct (Role_eqb (role target) admin && (adminCount (members g) <=? 1));
    reflexivity.
Qed.

End RemoveMember.

Section ScenarioFacts.
Import Scenario.

Lemma created_eq :
  created = mkStore [smithGroup [mkMember "A" admin 1000 true]] (users noGroups).
Proof. vm_compute. reflexivity. Qed.

Lemma invited_eq :
  invited = mkStore [smithGroup [mkMember "A" admin 1000 true;
                                 mkMember "B" member 2000 true]] (users noGroups).
Proof. vm_compute. reflexivity. Qed.

Lemma promoted_eq :
  promoted = mkStore [smithGroup [mkMember "A" admin 1000 true;
                                  mkMember "B" admin 2000 true]] (users noGroups).
Proof. vm_compute. reflexivity. Qed.

Lemma bobRemoved_eq :
  bobRemoved = mkStore [smithGroup [mkMember "A" admin 1000 true;
                                    mkMember "B" admin 2000 false]] (users noGroups).
Proof. vm_compute. reflexivity. Qed.

Lemma aliceDemoted_eq :
  aliceDemoted = mkStore [smithGroup [mkMember "A" member 1000 true;
                                      mkMember "B" admin 2000 true]] (users noGroups).
Proof. vm_compute. reflexivity. Qed.

End ScenarioFacts.

Lemma removal_permitted g user memberId :
  adminId g = user_id user \/ user_id user = memberId ->
  negb (isUserFamilyAdmin (user_id user) g)
  && negb (user_id user =? memberId)%string = false.
Proof.
  unfold isUserFamilyAdmin.
  intros [H|H]; rewrite H, String.eqb_refl; cbn;
    [reflexivity | apply andb_false_r].
Qed.

(** C7 (amended). Remove member, for a found group and a found target
    entry: an actor who is neither the [adminId] holder nor the target is
    refused with Forbidden; a target whose role is admin is refused with
    BadRequest whenever the group has at most one active admin, whether or
    not the target itself is active; otherwise the target entry's
    [isActive] becomes false and nothing else in the roster, or in any other
    group, changes. *)
Theorem removeMember_effect st user id memberId g target :
  id <> "" -> memberId <> "" ->
  lookupGroup id st = Some g ->
  find (hasUserId memberId) (members g) = Some target ->
  let r := removeMember (Some user) id memberId st in
  (adminId g <> user_id user -> user_id user <> memberId ->
     statusOf (fst r) = Some Forbidden /\ snd r = st)
  /\ ((adminId g = user_id user \/ user_id user = memberId) ->
      role target = admin -> adminCount (members g) <= 1 ->
      statusOf (fst r) = Some BadRequest /\ snd r = st)
  /\ ((adminId g = user_id user \/ user_id user = memberId) ->
      (role target = member \/ 2 <= adminCount (members g)) ->
      isSent (fst r) = true
      /\ users (snd r) = users st
      /\ exists pre post,
           members g = pre ++ target :: post
           /\ lookupGroup id (snd r)
              = Some (withMembers g (pre ++ setActive false target :: post))
           /\ role (setActive false target) = role target
           /\ Forall2 (fun h h' => h' = h
                         \/ h' = withMembers g (pre ++ setActive false target :: post))
                (groups st) (groups (snd r))).
Proof.
  intros Hid Hmid Hg Ht r. subst r.
  rewrite (removeMember_run st user id memberId g target Hid Hmid Hg Ht).
  split; [|split].
  - intros Ha Hs. unfold isUserFamilyAdmin.
    rewrite (proj2 (String.eqb_neq _ _) Ha), (proj2 (String.eqb_neq _ _) Hs).
    split; reflexivity.
  - intros Hperm Hrole Hcount.
    rewrite (removal_permitted g user memberId Hperm), Hrole.
    apply Nat.leb_le in Hcount. rewrite Hcount. split; reflexivity.
  - intros Hperm Hsafe.
    rewrite (removal_permitted g user memberId Hperm).
    assert (E : Role_eqb (role target) admin && (adminCount (members g) <=? 1)
                = false).
    { destruct Hsafe as [Hr|Hc]; [rewrite Hr; reflexivity|].
      apply andb_false_iff. right. apply Nat.leb_gt. lia. }
    rewrite E. cbn [fst snd groups users isSent].
    destruct (updateFirst_split (hasUserId memberId) (setActive false) _ _ Ht)
      as (pre & post & Hm & _ & Hup).
    split; [reflexivity | split; [reflexivity|]].
    exists pre, post. rewrite Hup.
    pose proof (lookupGroup_id _ _ _ Hg) as Hgid.
    split; [exact Hm | split; [|split; [reflexivity|]]].
    + unfold lookupGroup. cbn [groups].
      now apply find_replaceDoc with (g := g).
    + apply replaceDoc_Forall2 with (id := id) (g := g); auto.
Qed.

Lemma removeMember_effect_witness :
  let st := Scenario.promoted in
  let g := Scenario.smithGroup [mkMember "A" admin 1000 true;
                                mkMember "B" admin 2000 true] in
  let r := removeMember (Some Scenario.alice) "g1" "B" st in
  isSent (fst r) = true
  /\ lookupGroup "g1" (snd r)
     = Some (Scenario.smithGroup [mkMember "A" admin 1000 true;
                                  mkMember "B" admin 2000 false]).
Proof.
  intros st g r.
  assert (Hid : "g1" <> "") by discriminate.
  assert (Hmid : "B" <> "") by discriminate.
  assert (Hg : lookupGroup "g1" st = Some g) by (vm_compute; reflexivity).
  assert (Ht : find (hasUserId "B") (members g) = Some (mkMember "B" admin 2000 true))
    by reflexivity.
  destruct (removeMember_effect st Scenario.alice "g1" "B" g _ Hid Hmid Hg Ht)
    as (_ & _ & Hok).
  destruct Hok as (Hsent & _ & pre & post & _ & _ & _ & _).
  - left. reflexivity.
  - right. vm_compute. lia.
  - split; [exact Hsent | vm_compute; reflexivity].
Defined.

(** C7, as written, fails: in the group [A admin active; B admin inactive]
    the [adminId] holder A removes B.  B is not an active admin, so by the
    note the entry would (again) be set inactive; the handler throws
    BadRequest instead. *)
Lemma removeMember_inactive_admin_refused :
  let st := Scenario.bobRemoved in
  let r := removeMember (Some Scenario.alice) "g1" "B" st in
  exists g target,
    lookupGroup "g1" st = Some g
    /\ find (hasUserId "B") (members g) = Some target
    /\ adminId g = user_id Scenario.alice
    /\ (Role_eqb (role target) admin && isActive target) = false
    /\ isSent (fst r) = false
    /\ statusOf (fst r) = Some BadRequest.
Proof.
  eexists. eexists.
  split; [vm_compute; reflexivity|].
  split; [vm_compute; reflexivity|].
  repeat split.
Qed.

(** C10. The sole-admin guard of [removeMember] looks at the target's role
    only: in a group with at most one active admin, a permitted removal of
    an entry whose role is admin throws BadRequest and changes nothing,
    whatever that entry's [isActive] is (so also when it is already
    deactivated). *)
Theorem removeMember_guard_ignores_activity st user id memberId g target :
  id <> "" -> memberId <> "" ->
  lookupGroup id st = Some g ->
  find (hasUserId memberId) (members g) = Some target ->
  (adminId g = user_id user \/ user_id user = memberId) ->
  adminCount (members g) <= 1 ->
  role target = admin ->
  statusOf (fst (removeMember (Some user) id memberId st)) = Some BadRequest
  /\ snd (removeMember (Some user) id memberId st) = st.
Proof.
  intros Hid Hmid Hg Ht Hperm Hcount Hrole.
  rewrite (removeMember_run st user id memberId g target Hid Hmid Hg Ht).
  rewrite (removal_permitted g user memberId Hperm), Hrole.
  apply Nat.leb_le in Hcount. rewrite Hcount. split; reflexivity.
Qed.

Lemma removeMember_guard_ignores_activity_witness :
  let st := Scenario.bobRemoved in
  isActive (mkMember "B" admin 2000 false) = false
  /\ statusOf (fst (removeMember (Some Scenario.bob) "g1" "B" st)) = Some BadRequest
  /\ snd (removeMember (Some Scenario.bob) "g1" "B" st) = st.
Proof.
  intros st. split; [reflexivity|].
  apply (removeMember_guard_ignores_activity st Scenario.bob "g1" "B"
           (Scenario.smithGroup [mkMember "A" admin 1000 true;
                                 mkMember "B" admin 2000 false])
           (mkMember "B" admin 2000 false)).
  - discriminate.
  - discriminate.
  - vm_compute. reflexivity.
  - reflexivity.
  - right. reflexivity.
  - vm_compute. lia.
  - reflexivity.
Defined.

(* ------------------------------------------------------------------ *)
(** ** What a request writes *)

Section Footprint.

Lemma lookup_of_In (l : list FamilyGroup) g :
  NoDup (map _id l) -> In g l ->
  find (fun h => _id h =? _id g)%string l = Some g.
Proof.
  induction l as [|x t IH]; simpl; [contradiction|].
  intros Hnd [->|Hin].
  - now rewrite String.eqb_refl.
  - inversion Hnd as [|? ? Hx Hnd']; subst.
    destruct (String.eqb_spec (_id x) (_id g)) as [E|E].
    + exfalso. apply Hx. rewrite E. now apply in_map.
    + now apply IH.
Qed.

Lemma lookupGroup_self id st g : lookupGroup id st = Some g ->
  lookupGroup (_id g) st = Some g.
Proof. intros H. now rewrite (lookupGroup_id _ _ _ H). Qed.

Lemma removeMember_footprint u id memberId st :
  footprint (RemoveMember u id memberId) st
    (snd (removeMember u id memberId st)).
Proof.
  unfold removeMember. handler_unfold.
  destruct u as [user|]; cbv beta iota; [|unchanged].
  destruct ((id =? "") || (memberId =? ""))%string; cbv beta iota; [unchanged|].
  destruct (lookupGroup id st) as [g|] eqn:Hg; cbv beta iota; [|unchanged].
  destruct (find (hasUserId memberId) (members g)) as [t|] eqn:Ht;
    cbv beta iota; [|unchanged].
  destruct (negb (isUserFamilyAdmin (user_id user) g)
            && negb (user_id user =? memberId)%string);
    cbv beta iota; [unchanged|].
  destruct (Role_eqb (role t) admin && (adminCount (members g) <=? 1)) eqn:Hguard;
    cbv beta iota; cbn [snd]; [unchanged|].
  written g. { eauto using lookupGroup_self. }
  exists t. split; [assumption | split; [|reflexivity]].
  apply andb_false_iff in Hguard. destruct Hguard as [H|H].
  - left. destruct (role t); [discriminate | reflexivity].
  - right. apply Nat.leb_gt in H. lia.
Qed.

Lemma leaveFamilyGroup_footprint u id st :
  footprint (Leave u id) st (snd (leaveFamilyGroup u id st)).
Proof.
  unfold leaveFamilyGroup. handler_unfold.
  destruct u as [user|]; cbv beta iota; [|unchanged].
  destruct (id =? "")%string; cbv beta iota; [unchanged|].
  destruct (lookupGroup id st) as [g|] eqn:Hg; cbv beta iota; [|unchanged].
  destruct (find (hasUserId (user_id user)) (members g)) as [t|] eqn:Ht;
    cbv beta iota; [|unchanged].
  destruct (negb (isActive t)); cbv beta iota; [unchanged|].
  destruct (Role_eqb (role t) admin && (adminCount (members g) <=? 1)) eqn:Hguard;
    cbv beta iota; cbn [snd]; [unchanged|].
  written g. { eauto using lookupGroup_self. }
  exists (user_id user), t. split; [assumption | split; [|reflexivity]].
  apply andb_false_iff in Hguard. destruct Hguard as [H|H].
  - left. destruct (role t); [discriminate | reflexivity].
  - right. apply Nat.leb_gt in H. lia.
Qed.

Lemma updateMember_footprint u id memberId updates st :
  footprint (UpdateMember u id memberId updates) st
    (snd (updateMember u id memberId updates st)).
Proof.
  unfold updateMember. handler_unfold.
  destruct u as [user|]; cbv beta iota; [|unchanged].
  destruct ((id =? "") || (memberId =? ""))%string; cbv beta iota; [unchanged|].
  destruct (lookupGroup id st) as [g|] eqn:Hg; cbv beta iota; [|unchanged].
  destruct (negb (isUserFamilyAdmin (user_id user) g)); cbv beta iota; [unchanged|].
  destruct (find (hasUserId memberId) (members g)) as [t|] eqn:Ht;
    cbv beta iota; [|unchanged].
  branch_bool; [unchanged|].
  written g. { eauto using lookupGroup_self. }
  reflexivity.
Qed.

Lemma inviteMember_footprint isEmail now u id email st :
  footprint (Invite isEmail now u id email) st
    (snd (inviteMember isEmail now u id email st)).
Proof.
  unfold inviteMember, inviteMemberSchema. handler_unfold.
  destruct u as [user|]; cbv beta iota; [|unchanged].
  destruct (id =? "")%string; cbv beta iota; [unchanged|].
  destruct (isEmail email); cbv beta iota; [|unchanged].
  destruct (lookupGroup id st) as [g|] eqn:Hg; cbv beta iota; [|unchanged].
  destruct (find _ (members g)) as [actor|]; cbv beta iota; [|unchanged].
  branch_bool; [unchanged|].
  destruct (find _ (users st)) as [invitee|]; cbv beta iota; [|unchanged].
  destruct (find (hasUserId (user_id invitee)) (members g)) as [m|] eqn:Hm;
    cbv beta iota.
  - destruct (isActive m) eqn:Hact; cbv beta iota; cbn [snd]; [unchanged|].
    written g. { eauto using lookupGroup_self. }
    exists (user_id invitee). left. exists m. auto.
  - cbn [snd]. written g. { eauto using lookupGroup_self. }
    exists (user_id invitee). right. auto.
Qed.

Lemma joinByInviteCode_footprint now u code st :
  uniqueIds st ->
  footprint (Join now u code) st (snd (joinByInviteCode now u code st)).
Proof.
  intros Hids. unfold joinByInviteCode, joinByInviteCodeSchema. handler_unfold.
  destruct u as [user|]; cbv beta iota; [|unchanged].
  destruct (String.length code <? 1); cbv beta iota; [unchanged|].
  destruct (find _ (groups st)) as [g|] eqn:Hg; cbv beta iota; [|unchanged].
  assert (Hlook : lookupGroup (_id g) st = Some g).
  { apply lookup_of_In; [exact Hids|]. now apply find_some in Hg. }
  rewrite find_populated. cbv beta iota. cbn [snd].
  written g; [exact Hlook|].
  exists (user_id user). reflexivity.
Qed.

(** Every membership request has the footprint of its step. *)
Lemma runOp_footprint op st :
  uniqueIds st -> footprint op st (snd (runOp op st)).
Proof.
  intros Hids. destruct op; simpl runOp.
  - apply inviteMember_footprint.
  - now apply joinByInviteCode_footprint.
  - apply updateMember_footprint.
  - apply removeMember_footprint.
  - apply leaveFamilyGroup_footprint.
Qed.

End Footprint.

(* ------------------------------------------------------------------ *)
(** ** Roster steps *)

Section RosterSteps.

Lemma replaceDoc_ids g' l : map _id (replaceDoc g' l) = map _id l.
Proof.
  induction l as [|h t IH]; simpl; [reflexivity|].
  destruct (String.eqb_spec (_id h) (_id g')) as [E|E]; simpl;
    [now rewrite E | now rewrite IH].
Qed.

(** A document that is written back over a stored one is in the
    collection afterwards. *)
Lemma replaceDoc_In g g' (l : list FamilyGroup) :
  In g l -> _id g = _id g' -> In g' (replaceDoc g' l).
Proof.
  intros Hin Hid. induction l as [|h t IH]; [contradiction|]. simpl.
  destruct (_id h =? _id g')%string eqn:E; [now left|].
  destruct Hin as [->|Hin].
  - rewrite Hid, String.eqb_refl in E. discriminate.
  - right. now apply IH.
Qed.

Lemma replaceDoc_Forall (P : FamilyGroup -> Prop) g' l :
  Forall P l -> P g' -> Forall P (replaceDoc g' l).
Proof.
  intros Hl Hg. induction Hl as [|h t Hh Ht IH]; simpl; [constructor|].
  destruct (_id h =? _id g')%string; constructor; assumption.
Qed.

Lemma enrolled_kept uid now ms ms' : enrolled uid now ms ms' -> rosterKept ms ms'.
Proof.
  intros [(m & _ & _ & ->) | (_ & ->)]; split.
  - now rewrite updateFirst_length.
  - exists []. rewrite app_nil_r. now apply updateFirst_userIds.
  - rewrite length_app. lia.
  - eexists. now rewrite map_app.
Qed.

Lemma updateFirst_kept p f ms :
  (forall m, userId (f m) = userId m) -> rosterKept ms (updateFirst p f ms).
Proof.
  intros Hf. split.
  - now rewrite updateFirst_length.
  - exists []. rewrite app_nil_r. now apply updateFirst_userIds.
Qed.

Lemma opStep_kept op ms ms' : opStep op ms ms' -> rosterKept ms ms'.
Proof.
  destruct op; simpl.
  - intros (uid & H). eapply enrolled_kept, H.
  - intros (uid & ->). split.
    + rewrite length_app. lia.
    + eexists. now rewrite map_app.
  - intros ->. now apply updateFirst_kept.
  - intros (m & _ & _ & ->). now apply updateFirst_kept.
  - intros (uid & m & _ & _ & ->). now apply updateFirst_kept.
Qed.

Lemma opStep_removal op ms ms' :
  opStep op ms ms' -> isRemoval op = true -> onlyDeactivated ms ms'.
Proof.
  destruct op; simpl; try discriminate.
  - intros (m & _ & _ & ->) _. apply updateFirst_pointwise.
  - intros (uid & m & _ & _ & ->) _. apply updateFirst_pointwise.
Qed.

Lemma opStep_unique op ms ms' :
  (forall now u code, op <> Join now u code) ->
  opStep op ms ms' -> NoDup (map userId ms) -> NoDup (map userId ms').
Proof.
  intros Hop.
  assert (Hadm : forall uid now, enrolled uid now ms ms' ->
                   NoDup (map userId ms) -> NoDup (map userId ms')).
  { intros uid now [(m & _ & _ & ->) | (Hnone & ->)] Hnd.
    - now rewrite updateFirst_userIds.
    - rewrite map_app. simpl. apply find_none_iff_notin in Hnone.
      apply NoDup_app; [assumption | repeat constructor; simpl; tauto |].
      intros x Hx [<-|[]]. contradiction. }
  destruct op; simpl.
  - intros (uid & H). eapply Hadm, H.
  - exfalso. eapply Hop. reflexivity.
  - intros -> Hnd. now rewrite updateFirst_userIds.
  - intros (m & _ & _ & ->) Hnd. now rewrite updateFirst_userIds.
  - intros (uid & m & _ & _ & ->) Hnd. now rewrite updateFirst_userIds.
Qed.

Lemma enrolled_adminCount uid now ms ms' :
  enrolled uid now ms ms' -> adminCount ms <= adminCount ms'.
Proof.
  intros [(m & Hm & Hact & ->) | (_ & ->)].
  - destruct (updateFirst_split _ (reactivate now) _ _ Hm)
      as (pre & post & -> & _ & ->).
    rewrite !adminCount_app, !adminCount_cons. simpl. rewrite Hact.
    rewrite andb_false_r. lia.
  - rewrite adminCount_app. lia.
Qed.

Lemma dismissed_adminCount uid ms ms' :
  dismissed uid ms ms' -> 1 <= adminCount ms -> 1 <= adminCount ms'.
Proof.
  intros (m & Hm & Hsafe & ->).
  destruct (updateFirst_split _ (setActive false) _ _ Hm)
    as (pre & post & -> & _ & ->).
  rewrite !adminCount_app, !adminCount_cons in *. simpl.
  rewrite andb_false_r.
  destruct Hsafe as [Hr|Hc].
  - rewrite Hr. simpl. lia.
  - destruct (Role_eqb (role m) admin && isActive m); lia.
Qed.

End RosterSteps.

(** The sole-admin invariant survives every request that is not an
    [updateMember]. *)
Lemma hasActiveAdmin_preserved op st :
  uniqueIds st ->
  (forall u id memberId updates, op <> UpdateMember u id memberId updates) ->
  Forall hasActiveAdmin (groups st) ->
  Forall hasActiveAdmin (groups (snd (runOp op st))).
Proof.
  intros Hids Hop Hinv.
  destruct (runOp_footprint op st Hids) as [-> | (g & ms' & Hg & -> & Hstep)];
    [assumption|].
  cbn [groups]. apply replaceDoc_Forall; [assumption|].
  assert (Hgin : hasActiveAdmin g).
  { unfold lookupGroup in Hg. apply find_some in Hg.
    rewrite Forall_forall in Hinv. now apply Hinv. }
  unfold hasActiveAdmin in *. cbn [withMembers members].
  destruct op; simpl in Hstep.
  - destruct Hstep as (uid & H). apply enrolled_adminCount in H. lia.
  - destruct Hstep as (uid & ->). rewrite adminCount_app. lia.
  - exfalso. eapply Hop. reflexivity.
  - eapply dismissed_adminCount; eassumption.
  - destruct Hstep as (uid & H). eapply dismissed_adminCount; eassumption.
Qed.

(** Rosters without duplicate users stay so under every request that is
    not a join, and the primary key stays a key. *)
Lemma uniqueRoster_preserved op st :
  uniqueIds st ->
  (forall now u code, op <> Join now u code) ->
  Forall uniqueRoster (groups st) ->
  uniqueIds (snd (runOp op st))
  /\ Forall uniqueRoster (groups (snd (runOp op st))).
Proof.
  intros Hids Hop Hinv.
  destruct (runOp_footprint op st Hids) as [-> | (g & ms' & Hg & -> & Hstep)];
    [split; assumption|].
  split.
  - unfold uniqueIds. cbn [groups]. now rewrite replaceDoc_ids.
  - cbn [groups]. apply replaceDoc_Forall; [assumption|].
    unfold uniqueRoster. cbn [withMembers members].
    eapply opStep_unique; [exact Hop | exact Hstep|].
    unfold lookupGroup in Hg. apply find_some in Hg.
    rewrite Forall_forall in Hinv. now apply Hinv.
Qed.

(** C9. Soft removal only: under every membership request (invite, join,
    update member, remove member, leave), each stored group keeps all its
    roster entries, in place and with their [userId]s, and its roster never
    gets shorter; under remove and leave an entry differs from what it was, if
    at all, only in [isActive] having become false. *)
Theorem membership_soft_removal op st :
  uniqueIds st ->
  Forall2 (fun g g' =>
             rosterKept (members g) (members g')
             /\ (isRemoval op = true -> onlyDeactivated (members g) (members g')))
    (groups st) (groups (snd (runOp op st))).
Proof.
  intros Hids.
  assert (Hrefl : forall g : FamilyGroup,
             rosterKept (members g) (members g)
             /\ (isRemoval op = true -> onlyDeactivated (members g) (members g))).
  { intros g. split; [split; [lia | exists []; now rewrite app_nil_r]|].
    intros _. apply Forall2_refl. auto. }
  destruct (runOp_footprint op st Hids) as [-> | (g & ms' & Hg & -> & Hstep)].
  - now apply Forall2_refl.
  - cbn [groups].
    apply replaceDoc_Forall2 with (id := _id g) (g := g);
      [exact Hrefl | exact Hg | reflexivity |].
    cbn [withMembers members]. split.
    + eapply opStep_kept, Hstep.
    + now apply opStep_removal.
Qed.

Lemma membership_soft_removal_witness :
  Forall2 (fun g g' =>
             rosterKept (members g) (members g')
             /\ (isRemoval (Leave (Some Scenario.bob) "g1") = true ->
                 onlyDeactivated (members g) (members g')))
    (groups Scenario.promoted)
    (groups (snd (runOp (Leave (Some Scenario.bob) "g1") Scenario.promoted))).
Proof.
  apply (membership_soft_removal (Leave (Some Scenario.bob) "g1") Scenario.promoted).
  unfold uniqueIds. rewrite promoted_eq. simpl.
  constructor; [simpl; tauto | constructor].
Defined.

(* ------------------------------------------------------------------ *)
(** ** Invite member *)

Section InviteMember.

Variables (isEmail : string -> bool) (now : Z) (st : Store) (user : User).
Variables (id raw : string) (g : FamilyGroup) (actor : FamilyMember).
Variable target : User.
Hypothesis Hid : id <> "".
Hypothesis Hmail : isEmail raw = true.
Hypothesis Hg : lookupGroup id st = Some g.
Hypothesis Hactor :
  find (fun m => (userId m =? user_id user)%string && isActive m) (members g)
  = Some actor.
Hypothesis Hperm : role actor = admin \/ allowMemberInvites (settings g) = true.
Hypothesis Htarget :
  find (fun u => (user_email u =? JS.toLowerCase (JS.trim (JS.toLowerCase raw)))%string)
    (users st) = Some target.

(** The run of [inviteMember] once the preconditions of the request hold. *)
Lemma inviteMember_run :
  inviteMember isEmail now (Some user) id raw st =
  match find (hasUserId (user_id target)) (members g) with
  | Some m =>
      if isActive m
      then (Thrown (mkApiError "User is already a member of this family group"
                      Conflict), st)
      else (Sent (mkResponse 200 "Member reactivated successfully"
                    (MemberData (reactivate now m))),
            mkStore (replaceDoc
                       (withMembers g
                          (updateFirst (hasUserId (user_id target)) (reactivate now)
                             (members g)))
                       (groups st))
              (users st))
  | None =>
      (Sent (mkResponse 200 "Member added successfully"
               (InviteData (inviteCode g)
                  (memberCount (members g
                                ++ [mkMember (user_id target) member now true])))),
       mkStore (replaceDoc
                  (withMembers g
                     (members g ++ [mkMember (user_id target) member now true]))
                  (groups st))
         (users st))
  end.
Proof.
  unfold inviteMember, inviteMemberSchema. handler_unfold.
  apply String.eqb_neq in Hid. handler_step Hid. handler_step Hmail.
  handler_step Hg. handler_step Hactor.
  assert (E : negb (Role_eqb (role actor) admin)
              && negb (allowMemberInvites (settings g)) = false).
  { destruct Hperm as [H|H]; rewrite H; [reflexivity | apply andb_false_r]. }
  handler_step E. handler_step Htarget.
  destruct (find (hasUserId (user_id target)) (members g)) as [m|];
    [destruct (isActive m)|]; reflexivity.
Qed.

End InviteMember.

(** What [inviteMember] does once the permission checks pass and the e-mail
    resolves to the user [target], by the first roster entry of [target]:
    if it is active the request fails with Conflict and nothing is
    written; if it is inactive that entry becomes active with [joinedAt] =
    now and nothing else changes; if there is none, exactly the entry
    [{userId: target, role: member, isActive: true, joinedAt: now}] is
    appended. *)
Lemma inviteMember_cases isEmail now st user id raw g actor target :
  id <> "" ->
  isEmail raw = true ->
  lookupGroup id st = Some g ->
  find (fun m => (userId m =? user_id user)%string && isActive m) (members g)
  = Some actor ->
  (role actor = admin \/ allowMemberInvites (settings g) = true) ->
  find (fun u => (user_email u =? JS.toLowerCase (JS.trim (JS.toLowerCase raw)))%string)
    (users st) = Some target ->
  let r := inviteMember isEmail now (Some user) id raw st in
  (forall m, find (hasUserId (user_id target)) (members g) = Some m ->
     isActive m = true ->
     statusOf (fst r) = Some Conflict /\ snd r = st)
  /\ (forall m, find (hasUserId (user_id target)) (members g) = Some m ->
      isActive m = false ->
      isSent (fst r) = true
      /\ exists pre post,
           members g = pre ++ m :: post
           /\ lookupGroup id (snd r)
              = Some (withMembers g
                        (pre ++ mkMember (userId m) (role m) now true :: post)))
  /\ (find (hasUserId (user_id target)) (members g) = None ->
      isSent (fst r) = true
      /\ lookupGroup id (snd r)
         = Some (withMembers g
                   (members g ++ [mkMember (user_id target) member now true]))).
Proof.
  intros Hid Hmail Hg Hactor Hperm Htarget r. subst r.
  rewrite (inviteMember_run isEmail now st user id raw g actor target
             Hid Hmail Hg Hactor Hperm Htarget).
  pose proof (lookupGroup_id _ _ _ Hg) as Hgid.
  split; [|split].
  - intros m -> ->. split; reflexivity.
  - intros m Hf Hact. rewrite Hf, Hact. split; [reflexivity|].
    destruct (updateFirst_split _ (reactivate now) _ _ Hf)
      as (pre & post & Hms & _ & Hup).
    exists pre, post. rewrite Hup. unfold reactivate.
    split; [exact Hms|].
    unfold lookupGroup. cbn [snd groups]. now apply find_replaceDoc with (g := g).
  - intros ->. split; [reflexivity|].
    unfold lookupGroup. cbn [snd groups]. now apply find_replaceDoc with (g := g).
Qed.

(** C3 (failing input). Bob joined with the invite code, left, and joined
    again; the second join did not find his entry and appended another one,
    so the roster is [A admin active; B member inactive; B member active].
    Bob is an active member of the group, yet Alice's invitation of his
    address is not refused with Conflict: the handler looks at Bob's first
    entry only, answers "Member reactivated successfully" and writes the
    roster [A admin active; B member active; B member active]. *)
Theorem inviteMember_reactivates_active_member :
  let g := Scenario.smithGroup [mkMember "A" admin 1000 true;
                                mkMember "B" member 2000 false;
                                mkMember "B" member 3000 true] in
  let r := inviteMember Scenario.anyEmail 4000 (Some Scenario.alice) "g1"
             "bob@example.com" Scenario.bobRejoined in
  lookupGroup "g1" Scenario.bobRejoined = Some g
  /\ isUserFamilyMember "B" g = true
  /\ fst r = Sent (mkResponse 200 "Member reactivated successfully"
                     (MemberData (mkMember "B" member 4000 true)))
  /\ lookupGroup "g1" (snd r)
     = Some (Scenario.smithGroup [mkMember "A" admin 1000 true;
                                  mkMember "B" member 4000 true;
                                  mkMember "B" member 3000 true]).
Proof. vm_compute. repeat split. Qed.

(* ------------------------------------------------------------------ *)
(** ** Join by invite code *)

Section JoinByInviteCode.

(** The code the lookup is made with: the schema trims and upper-cases,
    and the handler upper-cases once more. *)
Lemma join_lookup_key raw :
  JS.toUpperCase (JS.toUpperCase (JS.trim raw)) = JS.toUpperCase (JS.trim raw).
Proof. apply toUpperCase_idem. Qed.

(** The run of [joinByInviteCode] for an authenticated caller and a
    non-empty code: the search on the populated roster finds nothing, so
    neither the Conflict nor the reactivation is ever reached. *)
Lemma joinByInviteCode_run now user raw st :
  raw <> "" ->
  joinByInviteCode now (Some user) raw st =
  match find (fun h => (inviteCode h =? JS.toUpperCase (JS.trim raw))%string)
          (groups st) with
  | None => (Thrown (mkApiError "Invalid invite code" NotFound), st)
  | Some g =>
      let g' := withMembers g
                  (members g ++ [mkMember (user_id user) member now true]) in
      (Sent (mkResponse 200 "Successfully joined family group"
               (GroupData g' member false (memberCount (members g')))),
       mkStore (replaceDoc g' (groups st)) (users st))
  end.
Proof.
  intros Hraw. unfold joinByInviteCode, joinByInviteCodeSchema. handler_unfold.
  assert (E : (String.length raw <? 1) = false).
  { destruct (String.length raw <? 1) eqn:E; [|reflexivity].
    apply length_zero_iff in E. contradiction. }
  handler_step E. rewrite join_lookup_key.
  destruct (find _ (groups st)) as [g|]; cbv beta iota; [|reflexivity].
  rewrite find_populated. reflexivity.
Qed.

(** Two spellings of a code that differ in letter case only are the same
    request. *)
Lemma joinByInviteCode_case now u raw raw' st :
  JS.toUpperCase raw' = JS.toUpperCase raw ->
  joinByInviteCode now u raw' st = joinByInviteCode now u raw st.
Proof.
  intros Heq. unfold joinByInviteCode, joinByInviteCodeSchema.
  assert (Hlen : String.length raw' = String.length raw).
  { rewrite <- (smap_length JS.toUpperCaseChar raw'),
            <- (smap_length JS.toUpperCaseChar raw).
    fold (JS.toUpperCase raw') (JS.toUpperCase raw). now rewrite Heq. }
  rewrite Hlen, !toUpperCase_trim, Heq. reflexivity.
Qed.

(** A code that no group holds, once trimmed and upper-cased, is refused
    with NotFound and nothing is written. *)
Lemma joinByInviteCode_unknown_code now user raw st :
  raw <> "" ->
  (forall h, In h (groups st) -> inviteCode h <> JS.toUpperCase (JS.trim raw)) ->
  statusOf (fst (joinByInviteCode now (Some user) raw st)) = Some NotFound
  /\ snd (joinByInviteCode now (Some user) raw st) = st.
Proof.
  intros Hraw Hnone. rewrite (joinByInviteCode_run now user raw st Hraw).
  destruct (find _ (groups st)) as [h|] eqn:Hf; [|split; reflexivity].
  exfalso. apply find_some in Hf. destruct Hf as [Hin Hcode].
  apply String.eqb_eq in Hcode. exact (Hnone h Hin Hcode).
Qed.

(** A request that is answered came from an authenticated caller with a
    non-empty code that some group holds. *)
Lemma joinByInviteCode_sent_inv now u raw st :
  isSent (fst (joinByInviteCode now u raw st)) = true ->
  exists user g,
    u = Some user /\ raw <> ""
    /\ find (fun h => (inviteCode h =? JS.toUpperCase (JS.trim raw))%string)
         (groups st) = Some g.
Proof.
  destruct u as [user|]; [|discriminate].
  destruct (String.eqb_spec raw "") as [->|Hraw]; [discriminate|].
  rewrite (joinByInviteCode_run now user raw st Hraw).
  destruct (find _ (groups st)) as [g|]; [|discriminate].
  intros _. exists user, g. auto.
Qed.

End JoinByInviteCode.

(** C5 (failing input). Bob is an active member of the group (Alice
    invited him: [A admin active; B member active]) and presents its invite
    code, in lower case and with a blank in front.  The code is normalised
    and the group is found, but the request is not refused with Conflict:
    the handler answers 200 and appends a second entry for Bob. *)
Theorem joinByInviteCode_admits_active_member :
  let g := Scenario.smithGroup [mkMember "A" admin 1000 true;
                                mkMember "B" member 2000 true] in
  let g' := Scenario.smithGroup [mkMember "A" admin 1000 true;
                                 mkMember "B" member 2000 true;
                                 mkMember "B" member 3000 true] in
  let r := joinByInviteCode 3000 (Some Scenario.bob) " aaaaaaaa" Scenario.invited in
  lookupGroup "g1" Scenario.invited = Some g
  /\ isUserFamilyMember "B" g = true
  /\ fst r = Sent (mkResponse 200 "Successfully joined family group"
                     (GroupData g' member false 3))
  /\ lookupGroup "g1" (snd r) = Some g'.
Proof. vm_compute. repeat split. Qed.



(* ------------------------------------------------------------------ *)
(** ** Create family group *)

Section CreateFamilyGroup.

Lemma smap_append f (s t : string) :
  JS.smap f (s ++ t) = (JS.smap f s ++ JS.smap f t)%string.
Proof. induction s as [|c s IH]; simpl; [reflexivity | now rewrite IH]. Qed.

(** Whatever [Math.random()] returns, [charAt] on the alphabet gives nothing
    that upper-casing would change. *)
Lemma charAt_chars_upper k : JS.toUpperCase (JS.charAt chars k) = JS.charAt chars k.
Proof.
  unfold JS.charAt. destruct (k <? 0)%Z; [reflexivity|].
  generalize (Z.to_nat k) as n. intros n.
  do 36 (destruct n as [|n]; [reflexivity|]). reflexivity.
Qed.

Lemma generateInviteCode_loop_upper n :
  forall rnd i acc,
    JS.toUpperCase acc = acc ->
    JS.toUpperCase (generateInviteCode_loop n rnd i acc)
    = generateInviteCode_loop n rnd i acc.
Proof.
  induction n as [|n IH]; intros rnd i acc Hacc; simpl; [exact Hacc|].
  apply IH. unfold JS.toUpperCase in *.
  rewrite smap_append, Hacc. f_equal. apply charAt_chars_upper.
Qed.

(** The schema's upper-casing setter leaves a generated code as it is. *)
Lemma generateInviteCode_upper rnd :
  JS.toUpperCase (generateInviteCode rnd) = generateInviteCode rnd.
Proof. apply generateInviteCode_loop_upper. reflexivity. Qed.

Lemma codeFree_find st code :
  codeFree st code ->
  find (fun h => (inviteCode h =? code)%string) (groups st) = None.
Proof.
  intros Hfree. destruct (find _ (groups st)) as [h|] eqn:Hf; [|reflexivity].
  exfalso. apply find_some in Hf. destruct Hf as [Hin Hc].
  apply String.eqb_eq in Hc. exact (Hfree h Hin Hc).
Qed.

(** The uniqueness loop stops, with a free code, as soon as the fuel covers
    an attempt whose code is free. *)
Lemma uniqueInviteCode_finds fuel :
  forall rnd attempt st k,
    k < fuel ->
    codeFree st (generateInviteCode (fun i => rnd (8 * (attempt + k) + i))) ->
    exists code,
      uniqueInviteCode fuel rnd attempt st = (Sent code, st)
      /\ codeFree st code
      /\ JS.toUpperCase code = code.
Proof.
  induction fuel as [|fuel IH]; intros rnd attempt st k Hk Hfree; [lia|].
  cbn [uniqueInviteCode]. handler_unfold.
  destruct (find _ (groups st)) as [h|] eqn:Hf; cbv beta iota.
  - destruct k as [|k].
    + rewrite Nat.add_0_r in Hfree. rewrite (codeFree_find _ _ Hfree) in Hf.
      discriminate.
    + apply (IH rnd (S attempt) st k); [lia|].
      replace (S attempt + k) with (attempt + S k) by lia. exact Hfree.
  - eexists. split; [reflexivity|]. split; [|apply generateInviteCode_upper].
    intros h Hin Hc. apply (find_none _ _ Hf) in Hin.
    apply String.eqb_neq in Hin. contradiction.
Qed.

Lemma createFamilyGroupSchema_valid body st :
  1 <= String.length (b_name body) <= 50 ->
  (forall d, b_description body = Some d -> String.length d <= 200) ->
  createFamilyGroupSchema body st
  = (Sent (mkCreateBody (JS.trim (b_name body)) (b_description body)
             (option_map zodSettings (b_settings body))), st).
Proof.
  intros [Hlo Hhi] Hd. unfold createFamilyGroupSchema.
  assert (E1 : (String.length (b_name body) <? 1) = false)
    by (apply Nat.ltb_ge; lia).
  assert (E2 : (50 <? String.length (b_name body)) = false)
    by (apply Nat.ltb_ge; lia).
  rewrite E1, E2.
  destruct (b_description body) as [d|]; [|reflexivity].
  assert (E3 : (200 <? String.length d) = false)
    by (apply Nat.ltb_ge; now apply Hd).
  rewrite E3. reflexivity.
Qed.

Lemma invalidPaths_nil g :
  invalidPaths g = []
  <-> (String.length (name g) <> 0 /\ String.length (name g) <= 50)
      /\ (forall d, description g = Some d -> String.length d <= 200)
      /\ String.length (inviteCode g) <> 0.
Proof.
  unfold invalidPaths. split.
  - intros H. apply app_eq_nil in H. destruct H as [H1 H2].
    apply app_eq_nil in H2. destruct H2 as [H2 H3].
    split; [|split].
    + destruct (String.length (name g) =? 0) eqn:E1; [discriminate|].
      destruct (50 <? String.length (name g)) eqn:E2; [discriminate|].
      apply Nat.eqb_neq in E1. apply Nat.ltb_ge in E2. tauto.
    + intros d Hd. rewrite Hd in H2.
      destruct (200 <? String.length d) eqn:E; [discriminate|].
      now apply Nat.ltb_ge in E.
    + destruct (String.length (inviteCode g) =? 0) eqn:E; [discriminate|].
      now apply Nat.eqb_neq in E.
  - intros ((Hn0 & Hn50) & Hd & Hc).
    apply Nat.eqb_neq in Hn0, Hc. apply Nat.ltb_ge in Hn50.
    rewrite Hn0, Hn50, Hc. cbn [orb].
    destruct (description g) as [d|]; [|reflexivity].
    pose proof (Hd d eq_refl) as H. apply Nat.ltb_ge in H. now rewrite H.
Qed.

Lemma length_nonzero (s : string) : String.length s <> 0 <-> s <> "".
Proof. destruct s; simpl; split; intros H; congruence. Qed.

(** A loop that returns gives a code of eight characters. *)
Lemma uniqueInviteCode_length fuel :
  forall rnd attempt st code st',
    (forall i, isUnitSample (rnd i)) ->
    uniqueInviteCode fuel rnd attempt st = (Sent code, st') ->
    String.length code = 8.
Proof.
  induction fuel as [|fuel IH]; intros rnd attempt st code st' Hs H;
    [discriminate H|].
  cbn [uniqueInviteCode] in H. revert H. handler_unfold.
  destruct (find _ (groups st)) as [h|]; cbv beta iota; intros H.
  - eapply IH; eassumption.
  - injection H as <- _. apply generateInviteCode_chars. intros i _. apply Hs.
Qed.

(** What the validators say about a group built by [newFamilyGroup] from a
    body the schema accepted: only a name that was trimmed to nothing is
    refused. *)
Lemma newFamilyGroup_paths newId body uid now code :
  String.length (b_name body) <= 50 ->
  (forall d, b_description body = Some d -> String.length d <= 200) ->
  String.length code <> 0 ->
  invalidPaths
    (newFamilyGroup newId
       (mkCreateBody (JS.trim (b_name body)) (b_description body)
          (option_map zodSettings (b_settings body)))
       uid now code)
  = if (JS.trim (b_name body) =? "")%string then ["name"] else [].
Proof.
  intros Hname Hdesc Hcode. unfold invalidPaths, newFamilyGroup.
  cbn [name description inviteCode b_name b_description].
  rewrite trim_idem.
  assert (E50 : (50 <? String.length (JS.trim (b_name body))) = false).
  { apply Nat.ltb_ge. pose proof (trim_length (b_name body)). lia. }
  assert (Ed : match b_description body with
               | Some d => if 200 <? String.length d then ["description"] else []
               | None => []
               end = []).
  { destruct (b_description body) as [d|]; [|reflexivity].
    pose proof (Hdesc d eq_refl) as H. apply Nat.ltb_ge in H. now rewrite H. }
  assert (Ec : (String.length (JS.toUpperCase code) =? 0) = false).
  { apply Nat.eqb_neq. unfold JS.toUpperCase. now rewrite smap_length. }
  rewrite E50, Ed, Ec, orb_false_r. cbn [app].
  destruct (JS.trim (b_name body)); reflexivity.
Qed.

(** The run of [createFamilyGroup] when the body passes the schema, the
    caller administers no group and the loop reaches a free code: the
    group is inserted unless its name was trimmed to nothing, in which case
    [save] rejects it. *)
Lemma createFamilyGroup_run fuel rnd newId now user body st :
  1 <= String.length (b_name body) <= 50 ->
  (forall d, b_description body = Some d -> String.length d <= 200) ->
  (forall i, isUnitSample (rnd i)) ->
  (forall h, In h (groups st) -> adminId h <> user_id user) ->
  (exists k, k < fuel
             /\ codeFree st (generateInviteCode (fun i => rnd (8 * k + i)))) ->
  exists code,
    let g := newFamilyGroup newId
               (mkCreateBody (JS.trim (b_name body)) (b_description body)
                  (option_map zodSettings (b_settings body)))
               (user_id user) now code in
    createFamilyGroup fuel rnd newId now (Some user) body st
    = (if (JS.trim (b_name body) =? "")%string
       then (Rejected ["name"], st)
       else (Sent (mkResponse 201 "Family group created successfully"
                     (GroupData g admin true 1)),
             mkStore (groups st ++ [g]) (users st)))
    /\ codeFree st code /\ JS.toUpperCase code = code.
Proof.
  intros Hname Hdesc Hs Hnone (k & Hk & Hfree).
  destruct (uniqueInviteCode_finds fuel rnd 0 st k Hk Hfree)
    as (code & Hrun & Hcode & Hupper).
  exists code. cbv zeta. split; [|split; assumption].
  unfold createFamilyGroup. handler_unfold.
  rewrite (createFamilyGroupSchema_valid body st Hname Hdesc). cbv beta iota.
  destruct (find (fun g => (adminId g =? user_id user)%string) (groups st))
    as [h|] eqn:Hf; cbv beta iota.
  { exfalso. apply find_some in Hf. destruct Hf as [Hin Hadm].
    apply String.eqb_eq in Hadm. exact (Hnone h Hin Hadm). }
  rewrite Hrun. cbv beta iota.
  rewrite newFamilyGroup_paths;
    [| lia | exact Hdesc
     | rewrite (uniqueInviteCode_length _ _ _ _ _ _ Hs Hrun); discriminate].
  destruct (JS.trim (b_name body) =? "")%string; reflexivity.
Qed.

(** The settings the controller builds are the ones the note describes. *)
Lemma settings_refine caller :
  castSettings (spreadSettings defaultSettingsObj (option_map zodSettings caller))
  = specSettings caller.
Proof.
  destruct caller as [[a b c d e]|]; [|reflexivity].
  destruct a as [[]|], b as [[]|], c as [[]|], d as [[]|], e as [[]|]; reflexivity.
Qed.

End CreateFamilyGroup.

(** C6. Create family group, for a body that passes the schema: if some
    stored group has [adminId] = the initiator, the request fails with
    Conflict and no group is created; otherwise, for a name that is not
    blank, once the invite-code loop (with readings of [Math.random()] in
    [0, 1)) reaches a code no group holds, one group is inserted whose
    [adminId] is the initiator, whose roster is exactly
    [{userId: initiator, role: admin, isActive: true, joinedAt: now}], whose
    settings are the five defaults overridden field by field by the caller's
    partial settings, and whose invite code no other group holds. *)
Theorem createFamilyGroup_effect fuel rnd newId now user body st :
  1 <= String.length (b_name body) <= 50 ->
  (forall d, b_description body = Some d -> String.length d <= 200) ->
  let r := createFamilyGroup fuel rnd newId now (Some user) body st in
  ((exists h, In h (groups st) /\ adminId h = user_id user) ->
     statusOf (fst r) = Some Conflict /\ snd r = st)
  /\ ((forall h, In h (groups st) -> adminId h <> user_id user) ->
      JS.trim (b_name body) <> "" ->
      (forall i, isUnitSample (rnd i)) ->
      (exists k, k < fuel
                 /\ codeFree st (generateInviteCode (fun i => rnd (8 * k + i)))) ->
      exists g,
        isSent (fst r) = true
        /\ groups (snd r) = groups st ++ [g]
        /\ adminId g = user_id user
        /\ members g = [mkMember (user_id user) admin now true]
        /\ settings g = specSettings (b_settings body)
        /\ codeFree st (inviteCode g)).
Proof.
  intros Hname Hdesc r. subst r. split.
  - intros (h & Hin & Hadm).
    unfold createFamilyGroup. handler_unfold.
    rewrite (createFamilyGroupSchema_valid body st Hname Hdesc). cbv beta iota.
    destruct (find (fun g => (adminId g =? user_id user)%string) (groups st))
      as [h'|] eqn:Hf; cbv beta iota; [split; reflexivity|].
    exfalso. apply (find_none _ _ Hf) in Hin.
    apply String.eqb_neq in Hin. contradiction.
  - intros Hnone Hblank Hs Hloop.
    destruct (createFamilyGroup_run fuel rnd newId now user body st
                Hname Hdesc Hs Hnone Hloop) as (code & Hrun & Hcode & Hupper).
    cbv zeta in Hrun. rewrite Hrun.
    apply String.eqb_neq in Hblank. rewrite Hblank.
    cbn [fst snd groups isSent].
    eexists. split; [reflexivity|]. split; [reflexivity|].
    unfold newFamilyGroup. cbn [adminId members settings inviteCode b_settings].
    split; [reflexivity|]. split; [reflexivity|].
    split; [apply settings_refine | now rewrite Hupper].
Qed.

Lemma createFamilyGroup_effect_witness :
  let body := mkCreateBody "Smith Family" (Some "ours")
                (Some (mkSettingsObj None None (Some false) None None)) in
  let r := createFamilyGroup 1 Scenario.zeros "g1" 1000 (Some Scenario.alice)
             body Scenario.noGroups in
  exists g,
    isSent (fst r) = true
    /\ groups (snd r) = [g]
    /\ adminId g = "A"
    /\ members g = [mkMember "A" admin 1000 true]
    /\ settings g = mkSettings true false false true true.
Proof.
  intros body r.
  assert (Hname : 1 <= String.length (b_name body) <= 50) by (simpl; lia).
  assert (Hdesc : forall d, b_description body = Some d -> String.length d <= 200).
  { intros d Hd. injection Hd as <-. simpl. lia. }
  destruct (createFamilyGroup_effect 1 Scenario.zeros "g1" 1000 Scenario.alice
              body Scenario.noGroups Hname Hdesc) as (_ & Hnew).
  destruct Hnew as (g & Hsent & Hgroups & Hadm & Hms & Hset & _).
  - intros h [].
  - vm_compute. discriminate.
  - intros i. unfold isUnitSample, Scenario.zeros, Qle, Qlt. simpl. lia.
  - exists 0. split; [lia | intros h []].
  - exists g. repeat split; assumption.
Defined.

(* ------------------------------------------------------------------ *)
(** ** Update member *)

(** The guard of [updateMember] as it stands: the [adminId] holder cannot
    take the admin role from their own entry while the group has at most
    one active admin. *)
Lemma updateMember_self_demotion_refused st user id g target isActive' :
  id <> "" -> user_id user <> "" ->
  lookupGroup id st = Some g ->
  adminId g = user_id user ->
  find (hasUserId (user_id user)) (members g) = Some target ->
  adminCount (members g) <= 1 ->
  let r := updateMember (Some user) id (user_id user)
             (mkMemberUpdates (Some member) isActive') st in
  statusOf (fst r) = Some BadRequest /\ snd r = st.
Proof.
  intros Hid Huid Hg Hadm Ht Hcount r. subst r.
  unfold updateMember. handler_unfold.
  apply String.eqb_neq in Hid, Huid. rewrite Hid, Huid. cbn [orb]. cbv beta iota.
  handler_step Hg. unfold isUserFamilyAdmin. rewrite Hadm, String.eqb_refl.
  cbn [negb]. cbv beta iota. handler_step Ht.
  rewrite (proj2 (find_hasUserId _ _ _ Ht)), String.eqb_refl.
  apply Nat.leb_le in Hcount. rewrite Hcount. cbn. split; reflexivity.
Qed.

(** C2 (failing input). After Alice, the [adminId] holder, promoted Bob and
    gave up her own admin role, Bob is the sole active admin.  Alice's
    request to set Bob's role to member is not refused: a response is sent
    and the group is left without any active admin. *)
Theorem updateMember_demotes_other_sole_admin :
  let st := Scenario.aliceDemoted in
  let r := updateMember (Some Scenario.alice) "g1" "B"
             (mkMemberUpdates (Some member) None) st in
  lookupGroup "g1" st
  = Some (Scenario.smithGroup [mkMember "A" member 1000 true;
                               mkMember "B" admin 2000 true])
  /\ adminCount [mkMember "A" member 1000 true; mkMember "B" admin 2000 true] = 1
  /\ isSent (fst r) = true
  /\ statusOf (fst r) = None
  /\ lookupGroup "g1" (snd r)
     = Some (Scenario.smithGroup [mkMember "A" member 1000 true;
                                  mkMember "B" member 2000 true])
  /\ adminCount [mkMember "A" member 1000 true; mkMember "B" member 2000 true] = 0.
Proof. vm_compute. repeat split. Qed.

(** C1 (failing input). In the freshly created group Alice is the only
    member and the only active admin.  Her [updateMember] request on her
    own entry with [{isActive: false}] is carried out and leaves the group
    with no active admin, although [removeMember] and [leaveFamilyGroup]
    refuse the same deactivation with BadRequest. *)
Theorem updateMember_breaks_sole_admin_invariant :
  let st := Scenario.created in
  let r := updateMember (Some Scenario.alice) "g1" "A"
             (mkMemberUpdates None (Some false)) st in
  Forall hasActiveAdmin (groups st)
  /\ isSent (fst r) = true
  /\ lookupGroup "g1" (snd r)
     = Some (Scenario.smithGroup [mkMember "A" admin 1000 false])
  /\ ~ Forall hasActiveAdmin (groups (snd r))
  /\ statusOf (fst (removeMember (Some Scenario.alice) "g1" "A" st)) = Some BadRequest
  /\ statusOf (fst (leaveFamilyGroup (Some Scenario.alice) "g1" st)) = Some BadRequest.
Proof.
  cbv zeta. rewrite created_eq.
  split; [repeat constructor|].
  split; [reflexivity|]. split; [vm_compute; reflexivity|].
  split; [|split; reflexivity].
  intros H. apply Forall_inv in H. vm_compute in H. lia.
Qed.

(* ------------------------------------------------------------------ *)
(** ** Creation and the roster invariants *)

Section CreationInvariants.

Lemma uniqueInviteCode_store fuel :
  forall rnd attempt st, snd (uniqueInviteCode fuel rnd attempt st) = st.
Proof.
  induction fuel as [|fuel IH]; intros rnd attempt st; [reflexivity|].
  cbn [uniqueInviteCode]. handler_unfold.
  destruct (find _ (groups st)); cbv beta iota; [apply IH | reflexivity].
Qed.

Lemma createFamilyGroupSchema_store body st :
  snd (createFamilyGroupSchema body st) = st.
Proof.
  unfold createFamilyGroupSchema, validationError, throw, ret.
  destruct (_ ++ _ ++ _)%list; reflexivity.
Qed.

(** [createFamilyGroup] leaves the stored groups alone and adds at most one
    group, built by [newFamilyGroup]. *)
Lemma createFamilyGroup_footprint fuel rnd newId now u body st :
  let st' := snd (createFamilyGroup fuel rnd newId now u body st) in
  st' = st
  \/ exists groupData uid code,
       st' = mkStore (groups st ++ [newFamilyGroup newId groupData uid now code])
               (users st).
Proof.
  cbv zeta. unfold createFamilyGroup. handler_unfold.
  destruct u as [user|]; cbv beta iota; [|unchanged].
  pose proof (createFamilyGroupSchema_store body st) as Hparse.
  destruct (createFamilyGroupSchema body st) as [[groupData| | |] st0];
    cbn [snd] in Hparse; subst st0; cbv beta iota; cbn [snd]; try unchanged.
  destruct (find _ (groups st)); cbv beta iota; [unchanged|].
  pose proof (uniqueInviteCode_store fuel rnd 0 st) as Hloop.
  destruct (uniqueInviteCode fuel rnd 0 st) as [[code| | |] st1];
    cbn [snd] in Hloop; subst st1; cbv beta iota; cbn [snd]; try unchanged.
  destruct (invalidPaths _); cbv beta iota; cbn [snd]; [|unchanged].
  right. exists groupData, (user_id user), code. reflexivity.
Qed.

(** A new group starts with one active admin and a duplicate-free roster,
    and creating it does not disturb the other groups. *)
Lemma createFamilyGroup_invariants fuel rnd newId now u body st :
  Forall hasActiveAdmin (groups st) ->
  Forall uniqueRoster (groups st) ->
  Forall hasActiveAdmin
    (groups (snd (createFamilyGroup fuel rnd newId now u body st)))
  /\ Forall uniqueRoster
       (groups (snd (createFamilyGroup fuel rnd newId now u body st))).
Proof.
  intros Hadm Huniq.
  destruct (createFamilyGroup_footprint fuel rnd newId now u body st)
    as [-> | (groupData & uid & code & ->)]; [split; assumption|].
  cbn [groups]. split; apply Forall_app; split; try assumption;
    repeat constructor.
  simpl. tauto.
Qed.

End CreationInvariants.

(* ================================================================== *)
(** * Further properties of the family controller *)

(* ------------------------------------------------------------------ *)
(** ** Reading groups *)

Section ReadHandlers.

Lemma existsb_hasUserId uid (ms : list FamilyMember) :
  existsb (hasUserId uid) ms = true <-> In uid (map userId ms).
Proof.
  rewrite existsb_exists, in_map_iff. unfold hasUserId.
  split; intros (m & H1 & H2).
  - exists m. split; [now apply String.eqb_eq | assumption].
  - exists m. split; [assumption | now apply String.eqb_eq].
Qed.

Lemma matchesMembership_iff uid g :
  matchesMembership uid g = true
  <-> In uid (map userId (members g))
      /\ exists m, In m (members g) /\ isActive m = true.
Proof.
  unfold matchesMembership.
  now rewrite andb_true_iff, existsb_hasUserId, existsb_exists.
Qed.

Lemma memberCount_pos (ms : list FamilyMember) :
  (exists m, In m ms /\ isActive m = true) -> 1 <= memberCount ms.
Proof.
  intros (m & Hin & Hact). unfold memberCount.
  assert (Hf : In m (filter isActive ms)) by (apply filter_In; auto).
  destruct (filter isActive ms); [contradiction | simpl; lia].
Qed.

End ReadHandlers.

(** X1. [getFamilyGroupById] never sends a group and never writes: the
    group is loaded populated, so [isUserFamilyMember] recognises nobody,
    and every authenticated request with a non-empty id - also one from an
    active member or from the [adminId] holder - ends in the 500 of the
    [catch], as a request for an unknown id does. *)
Theorem getFamilyGroupById_outcome user id st :
  id <> "" ->
  getFamilyGroupById (Some user) id st
  = (Thrown (mkApiError "Failed to fetch family group" 500), st).
Proof.
  intros Hid. unfold getFamilyGroupById, rethrowAs. handler_unfold.
  apply String.eqb_neq in Hid. handler_step Hid.
  destruct (lookupGroup id st) as [g|]; cbv beta iota; [|reflexivity].
  assert (E : isUserFamilyMember_populated (user_id user) g = false).
  { unfold isUserFamilyMember_populated.
    induction (members g) as [|m ms IH]; [reflexivity | exact IH]. }
  rewrite E. reflexivity.
Qed.

Lemma getFamilyGroupById_outcome_witness :
  isUserFamilyMember "A" (Scenario.smithGroup [mkMember "A" admin 1000 true]) = true
  /\ lookupGroup "g1" Scenario.created
     = Some (Scenario.smithGroup [mkMember "A" admin 1000 true])
  /\ getFamilyGroupById (Some Scenario.alice) "g1" Scenario.created
     = (Thrown (mkApiError "Failed to fetch family group" 500), Scenario.created).
Proof.
  split; [reflexivity|]. split; [vm_compute; reflexivity|].
  apply (getFamilyGroupById_outcome Scenario.alice "g1" Scenario.created).
  discriminate.
Defined.

(** X2. [getUserFamilyGroups] never writes and lists, newest first and
    each once, exactly the stored groups in which the caller has a roster
    entry (active or not) and some entry is active.  Every view carries
    the count of active entries, which is at least one, but no role and
    [isAdmin: false] - for the [adminId] holder too - because both are
    computed on the populated documents. *)
Theorem getUserFamilyGroups_listing user st :
  exists views,
    getUserFamilyGroups (Some user) st = (Sent views, st)
    /\ map view_group views
       = rev (filter (matchesMembership (user_id user)) (groups st))
    /\ (forall g,
          matchesMembership (user_id user) g = true
          <-> In (user_id user) (map userId (members g))
              /\ exists m, In m (members g) /\ isActive m = true)
    /\ (forall v, In v views ->
          view_userRole v = None /\ view_isAdmin v = false
          /\ view_memberCount v = memberCount (members (view_group v))
          /\ 1 <= view_memberCount v).
Proof.
  eexists. split; [reflexivity|]. split; [|split].
  - rewrite map_map. cbn [viewFor view_group]. apply map_id.
  - intros g. apply matchesMembership_iff.
  - intros v Hv. apply in_map_iff in Hv. destruct Hv as (g & <- & Hin).
    rewrite <- in_rev in Hin. apply filter_In in Hin. destruct Hin as [_ Hm].
    apply matchesMembership_iff in Hm. destruct Hm as [Hu Ha].
    cbn [viewFor view_userRole view_isAdmin view_memberCount view_group].
    rewrite find_populated.
    split; [reflexivity|]. split; [reflexivity|]. split; [reflexivity|].
    now apply memberCount_pos.
Qed.

(** X3. A member who was removed keeps seeing the group: as long as some
    member of the group is active, [getUserFamilyGroups] still lists it for
    a caller who has an entry but is no active member. *)
Theorem removed_member_still_listed user st g :
  In g (groups st) ->
  In (user_id user) (map userId (members g)) ->
  isUserFamilyMember (user_id user) g = false ->
  (exists m, In m (members g) /\ isActive m = true) ->
  exists views,
    fst (getUserFamilyGroups (Some user) st) = Sent views
    /\ In g (map view_group views).
Proof.
  intros Hg Hu Hm Ha.
  eexists. split; [reflexivity|].
  rewrite map_map. cbn [viewFor view_group]. rewrite map_id.
  rewrite <- in_rev. apply filter_In. split; [assumption|].
  apply matchesMembership_iff. tauto.
Qed.

Lemma removed_member_still_listed_witness :
  exists views,
    fst (getUserFamilyGroups (Some Scenario.bob) Scenario.bobRemoved) = Sent views
    /\ In (Scenario.smithGroup [mkMember "A" admin 1000 true;
                                mkMember "B" admin 2000 false])
         (map view_group views).
Proof.
  apply (removed_member_still_listed Scenario.bob Scenario.bobRemoved
           (Scenario.smithGroup [mkMember "A" admin 1000 true;
                                 mkMember "B" admin 2000 false])).
  - vm_compute. left. reflexivity.
  - simpl. tauto.
  - reflexivity.
  - exists (mkMember "A" admin 1000 true). simpl. tauto.
Defined.

(* ------------------------------------------------------------------ *)
(** ** Updating a group *)

Ltac try_unfold :=
  unfold orRaise, raiseIf, raiseApi;
  unfold tcatch, tbind, tret, traise;
  cbv beta iota.


Section UpdateFamilyGroup.

Lemma updateFamilyGroupSchema_valid (body : UpdateBody) (st : Store) :
  validUpdateBody body ->
  updateFamilyGroupSchema body st
  = (inl (mkUpdateBody (option_map JS.trim (ub_name body)) (ub_description body)
            (option_map zodSettings (ub_settings body))), st).
Proof.
  intros [Hn Hd]. unfold updateFamilyGroupSchema.
  assert (E1 : match ub_name body with
               | Some n =>
                   (if String.length n <? 1
                    then ["Family group name is required"] else [])
                   ++ (if 50 <? String.length n then ["Name too long"] else [])
               | None => []
               end = (@nil string)).
  { destruct (ub_name body) as [n|]; [|reflexivity].
    destruct (Hn n eq_refl) as [Hlo Hhi].
    apply Nat.ltb_ge in Hlo. apply Nat.ltb_ge in Hhi. now rewrite Hlo, Hhi. }
  assert (E2 : match ub_description body with
               | Some d => if 200 <? String.length d
                           then ["Description too long"] else []
               | None => []
               end = (@nil string)).
  { destruct (ub_description body) as [d|]; [|reflexivity].
    pose proof (Hd d eq_refl) as H. apply Nat.ltb_ge in H. now rewrite H. }
  rewrite E1, E2. reflexivity.
Qed.

Lemma castSettings_zod s : castSettings (zodSettings s) = specSettings (Some s).
Proof.
  destruct s as [a b c d e].
  destruct a as [[]|], b as [[]|], c as [[]|], d as [[]|], e as [[]|]; reflexivity.
Qed.

(** The run of [updateFamilyGroup] by the [adminId] holder on a found group
    with a body that passes the schema. *)
Lemma updateFamilyGroup_run user id body st g :
  id <> "" ->
  lookupGroup id st = Some g ->
  validUpdateBody body ->
  adminId g = user_id user ->
  let g' := assignGroup g
              (mkUpdateBody (option_map JS.trim (ub_name body))
                 (ub_description body)
                 (option_map zodSettings (ub_settings body))) in
  updateFamilyGroup (Some user) id body st =
  match invalidPaths g' with
  | [] => (inl g', mkStore (replaceDoc g' (groups st)) (users st))
  | paths => (inr (RaisedValidation paths), st)
  end.
Proof.
  intros Hid Hg Hbody Hadm g'. unfold updateFamilyGroup. try_unfold.
  apply String.eqb_neq in Hid. rewrite Hid. cbv beta iota.
  rewrite (updateFamilyGroupSchema_valid body st Hbody). cbv beta iota.
  rewrite Hg. cbv beta iota.
  unfold isUserFamilyAdmin. rewrite Hadm, String.eqb_refl. cbn [negb].
  cbv beta iota. unfold saveValidated. fold g'.
  destruct (invalidPaths g'); reflexivity.
Qed.

End UpdateFamilyGroup.

(** X4. [updateFamilyGroup], for a found and valid stored group and a body
    that passes the schema: a caller who is not the [adminId] holder is
    refused with 403 and nothing is written; for the holder, when the new
    name (if any) is not blank, the group is written back with the same
    [_id], [adminId], roster and invite code, the name trimmed, the
    description replaced when one is given, and - when settings are given -
    every flag the body leaves out reset to its default rather than kept;
    the group stays at its place in the collection, and the groups before
    and after it and the users are left as they are. *)
Theorem updateFamilyGroup_effect user id body st g :
  id <> "" ->
  lookupGroup id st = Some g ->
  invalidPaths g = [] ->
  validUpdateBody body ->
  let r := updateFamilyGroup (Some user) id body st in
  (adminId g <> user_id user ->
     statusOfRaised (fst r) = Some Forbidden /\ snd r = st)
  /\ (adminId g = user_id user ->
      (forall n, ub_name body = Some n -> JS.trim n <> "") ->
      exists g',
        fst r = inl g'
        /\ lookupGroup id (snd r) = Some g'
        /\ _id g' = _id g /\ adminId g' = adminId g
        /\ members g' = members g /\ inviteCode g' = inviteCode g
        /\ name g' = match ub_name body with
                     | Some n => JS.trim n
                     | None => name g
                     end
        /\ description g' = match ub_description body with
                            | Some d => Some d
                            | None => description g
                            end
        /\ settings g' = match ub_settings body with
                         | Some s => specSettings (Some s)
                         | None => settings g
                         end
        /\ (exists before after,
              groups st = before ++ g :: after
              /\ groups (snd r) = before ++ g' :: after)
        /\ users (snd r) = users st).
Proof.
  intros Hid Hg Hvalid Hbody r. subst r. split.
  - intros Hadm. unfold updateFamilyGroup. try_unfold.
    rewrite (proj2 (String.eqb_neq _ _) Hid). cbv beta iota.
    rewrite (updateFamilyGroupSchema_valid body st Hbody). cbv beta iota.
    rewrite Hg. cbv beta iota. unfold isUserFamilyAdmin.
    rewrite (proj2 (String.eqb_neq _ _) Hadm). split; reflexivity.
  - intros Hadm Hblank.
    rewrite (updateFamilyGroup_run user id body st g Hid Hg Hbody Hadm).
    set (g' := assignGroup g _).
    assert (Hname : name g' = match ub_name body with
                              | Some n => JS.trim n
                              | None => name g
                              end).
    { unfold g'. cbn [assignGroup name ub_name option_map].
      destruct (ub_name body); cbn [option_map]; [apply trim_idem | reflexivity]. }
    assert (Hset : settings g' = match ub_settings body with
                                 | Some s => specSettings (Some s)
                                 | None => settings g
                                 end).
    { unfold g'. cbn [assignGroup settings ub_settings].
      destruct (ub_settings body); cbn [option_map];
        [apply castSettings_zod | reflexivity]. }
    assert (Hok : invalidPaths g' = []).
    { apply invalidPaths_nil in Hvalid. destruct Hvalid as ((Hn0 & Hn50) & Hd & Hc).
      apply invalidPaths_nil. rewrite Hname. split; [|split].
      - destruct (ub_name body) as [n|] eqn:En; [|tauto]. split.
        + apply length_nonzero. now apply Hblank.
        + pose proof (trim_length n). destruct Hbody as [Hb _].
          specialize (Hb n En). lia.
      - unfold g'. cbn [assignGroup description ub_description].
        destruct (ub_description body) as [d'|] eqn:Ed; [|exact Hd].
        intros d Heq. injection Heq as <-. destruct Hbody as [_ Hb]. now apply Hb.
      - exact Hc. }
    rewrite Hok. exists g'. cbn [fst snd groups users].
    pose proof (lookupGroup_id _ _ _ Hg) as Hgid.
    split; [reflexivity|]. split.
    { unfold lookupGroup. cbn [groups]. now apply find_replaceDoc with (g := g). }
    do 4 (split; [reflexivity|]).
    split; [exact Hname|]. split.
    { unfold g'. cbn [assignGroup description ub_description].
      now destruct (ub_description body). }
    split; [exact Hset|]. split; [|reflexivity].
    destruct (replaceDoc_split id (groups st) g g' Hg Hgid)
      as (before & after & Hl & _ & Hr).
    exists before, after. split; assumption.
Qed.

Lemma updateFamilyGroup_effect_witness :
  let body := mkUpdateBody (Some " The Smiths ") None
                (Some (mkSettingsObj None None (Some false) None None)) in
  let r := updateFamilyGroup (Some Scenario.alice) "g1" body Scenario.invited in
  exists g',
    fst r = inl g'
    /\ name g' = "The Smiths"
    /\ settings g' = mkSettings true false false true true
    /\ members g' = [mkMember "A" admin 1000 true; mkMember "B" member 2000 true].
Proof.
  intros body r.
  assert (Hid : "g1" <> "") by discriminate.
  assert (Hg : lookupGroup "g1" Scenario.invited
               = Some (Scenario.smithGroup [mkMember "A" admin 1000 true;
                                            mkMember "B" member 2000 true]))
    by (vm_compute; reflexivity).
  assert (Hvalid : invalidPaths (Scenario.smithGroup
                                   [mkMember "A" admin 1000 true;
                                    mkMember "B" member 2000 true]) = [])
    by reflexivity.
  assert (Hbody : validUpdateBody body).
  { split.
    - intros n Hn. injection Hn as <-. simpl. lia.
    - intros d Hd. discriminate Hd. }
  destruct (updateFamilyGroup_effect Scenario.alice "g1" body Scenario.invited _
              Hid Hg Hvalid Hbody) as (_ & Hok).
  destruct Hok as (g' & Hr & _ & _ & _ & Hms & _ & Hname & _ & Hset & _).
  - reflexivity.
  - intros n Hn. injection Hn as <-. vm_compute. discriminate.
  - exists g'. split; [exact Hr|]. split; [rewrite Hname; reflexivity|].
    split; [rewrite Hset; reflexivity | exact Hms].
Defined.

(** X5. A new name made of white space only passes the schema (its length
    check runs before [trim]) but is trimmed to the empty string, which the
    [required] validator of the model rejects on [save]: the [adminId]
    holder's request ends in a mongoose validation error on [name], not in
    an [ApiError], and nothing is written. *)
Theorem updateFamilyGroup_blank_name user id body st g n :
  id <> "" ->
  lookupGroup id st = Some g ->
  invalidPaths g = [] ->
  validUpdateBody body ->
  adminId g = user_id user ->
  ub_name body = Some n ->
  JS.trim n = "" ->
  fst (updateFamilyGroup (Some user) id body st) = inr (RaisedValidation ["name"])
  /\ snd (updateFamilyGroup (Some user) id body st) = st.
Proof.
  intros Hid Hg Hvalid Hbody Hadm Hn Hblank.
  rewrite (updateFamilyGroup_run user id body st g Hid Hg Hbody Hadm).
  set (g' := assignGroup g _).
  assert (Hpaths : invalidPaths g' = ["name"]).
  { apply invalidPaths_nil in Hvalid. destruct Hvalid as (_ & Hd & Hc).
    unfold invalidPaths, g'.
    cbn [assignGroup name description inviteCode ub_name ub_description].
    rewrite Hn. cbn [option_map]. rewrite trim_idem, Hblank.
    cbn [String.length Nat.eqb orb]. apply Nat.eqb_neq in Hc. rewrite Hc.
    destruct (ub_description body) as [d|] eqn:Ed.
    - destruct Hbody as [_ Hb]. pose proof (Hb d Ed) as H.
      apply Nat.ltb_ge in H. now rewrite H.
    - destruct (description g) as [d|]; [|reflexivity].
      pose proof (Hd d eq_refl) as H. apply Nat.ltb_ge in H. now rewrite H. }
  rewrite Hpaths. split; reflexivity.
Qed.

Lemma updateFamilyGroup_blank_name_witness :
  fst (updateFamilyGroup (Some Scenario.alice) "g1"
         (mkUpdateBody (Some "   ") None None) Scenario.created)
  = inr (RaisedValidation ["name"])
  /\ snd (updateFamilyGroup (Some Scenario.alice) "g1"
            (mkUpdateBody (Some "   ") None None) Scenario.created)
     = Scenario.created.
Proof.
  apply (updateFamilyGroup_blank_name Scenario.alice "g1"
           (mkUpdateBody (Some "   ") None None) Scenario.created
           (Scenario.smithGroup [mkMember "A" admin 1000 true]) "   ").
  - discriminate.
  - vm_compute. reflexivity.
  - reflexivity.
  - split.
    + intros n Hn. injection Hn as <-. simpl. lia.
    + intros d Hd. discriminate Hd.
  - reflexivity.
  - reflexivity.
  - reflexivity.
Defined.

(* ------------------------------------------------------------------ *)
(** ** Updating a member and leaving *)

Section UpdateAndLeave.

Lemma updateMember_run st user id memberId updates g target :
  id <> "" -> memberId <> "" ->
  lookupGroup id st = Some g ->
  adminId g = user_id user ->
  find (hasUserId memberId) (members g) = Some target ->
  updateMember (Some user) id memberId updates st =
  if (memberId =? user_id user)%string
     && (match u_role updates with Some member => true | _ => false end)
     && (adminCount (members g) <=? 1)
  then (Thrown (mkApiError
                  "Cannot remove admin role. Family group must have at least one admin."
                  BadRequest), st)
  else (Sent (mkResponse 200 "Member updated successfully"
                (MemberData (assignMember target updates))),
        mkStore (replaceDoc
                   (withMembers g
                      (updateFirst (hasUserId memberId)
                         (fun m => assignMember m updates) (members g)))
                   (groups st))
          (users st)).
Proof.
  intros Hid Hmid Hg Hadm Ht. unfold updateMember. handler_unfold.
  apply String.eqb_neq in Hid, Hmid. rewrite Hid, Hmid. cbn [orb]. cbv beta iota.
  handler_step Hg. unfold isUserFamilyAdmin. rewrite Hadm, String.eqb_refl.
  cbn [negb]. cbv beta iota. handler_step Ht.
  rewrite (proj2 (find_hasUserId _ _ _ Ht)).
  destruct ((memberId =? user_id user)%string
            && (match u_role updates with Some member => true | _ => false end)
            && (adminCount (members g) <=? 1)); reflexivity.
Qed.

Lemma leaveFamilyGroup_run st user id g :
  id <> "" ->
  lookupGroup id st = Some g ->
  leaveFamilyGroup (Some user) id st =
  match find (hasUserId (user_id user)) (members g) with
  | Some m =>
      if negb (isActive m)
      then (Thrown (mkApiError "You are not a member of this family group"
                      NotFound), st)
      else if Role_eqb (role m) admin && (adminCount (members g) <=? 1)
      then (Thrown (mkApiError
                      "Cannot leave family group. You are the last admin. Please assign another admin first."
                      BadRequest), st)
      else (Sent (mkResponse 200 "Successfully left family group" NoData),
            mkStore (replaceDoc
                       (withMembers g
                          (updateFirst (hasUserId (user_id user)) (setActive false)
                             (members g)))
                       (groups st))
              (users st))
  | None => (Thrown (mkApiError "You are not a member of this family group"
                       NotFound), st)
  end.
Proof.
  intros Hid Hg. unfold leaveFamilyGroup. handler_unfold.
  apply String.eqb_neq in Hid. handler_step Hid. handler_step Hg.
  destruct (find (hasUserId (user_id user)) (members g)) as [m|];
    cbv beta iota; [|reflexivity].
  destruct (negb (isActive m)); cbv beta iota; [reflexivity|].
  destruct (Role_eqb (role m) admin && (adminCount (members g) <=? 1));
    reflexivity.
Qed.

Lemma memberCount_app l1 l2 :
  memberCount (l1 ++ l2) = memberCount l1 + memberCount l2.
Proof. unfold memberCount. now rewrite filter_app, length_app. Qed.

Lemma memberCount_cons m l :
  memberCount (m :: l) = (if isActive m then 1 else 0) + memberCount l.
Proof. unfold memberCount. simpl. destruct (isActive m); reflexivity. Qed.


End UpdateAndLeave.

(** X6. [updateMember], for a found group and a found target entry: a
    caller who is not the [adminId] holder is refused with 403 whatever
    role their own entry has; for the holder, unless the request takes
    the admin role from the holder's own entry in a group with at most one
    active admin, the fields given in the body are written onto the target
    entry - its [userId] and [joinedAt] and every other entry stay - and
    the updated entry is sent back. *)
Theorem updateMember_effect st user id memberId updates g target :
  id <> "" -> memberId <> "" ->
  lookupGroup id st = Some g ->
  find (hasUserId memberId) (members g) = Some target ->
  let r := updateMember (Some user) id memberId updates st in
  (adminId g <> user_id user ->
     statusOf (fst r) = Some Forbidden /\ snd r = st)
  /\ (adminId g = user_id user ->
      (memberId <> user_id user \/ u_role updates <> Some member
       \/ 2 <= adminCount (members g)) ->
      fst r = Sent (mkResponse 200 "Member updated successfully"
                      (MemberData (assignMember target updates)))
      /\ userId (assignMember target updates) = userId target
      /\ joinedAt (assignMember target updates) = joinedAt target
      /\ exists pre post,
           members g = pre ++ target :: post
           /\ lookupGroup id (snd r)
              = Some (withMembers g (pre ++ assignMember target updates :: post))).
Proof.
  intros Hid Hmid Hg Ht r. subst r. split.
  - intros Hadm. unfold updateMember. handler_unfold.
    rewrite (proj2 (String.eqb_neq _ _) Hid), (proj2 (String.eqb_neq _ _) Hmid).
    cbn [orb]. cbv beta iota. handler_step Hg. unfold isUserFamilyAdmin.
    rewrite (proj2 (String.eqb_neq _ _) Hadm). split; reflexivity.
  - intros Hadm Hsafe.
    rewrite (updateMember_run st user id memberId updates g target
               Hid Hmid Hg Hadm Ht).
    assert (E : (memberId =? user_id user)%string
                && (match u_role updates with Some member => true | _ => false end)
                && (adminCount (members g) <=? 1) = false).
    { destruct Hsafe as [H | [H | H]].
      - now rewrite (proj2 (String.eqb_neq _ _) H).
      - destruct (u_role updates) as [[]|]; try congruence;
          now rewrite andb_false_r.
      - apply Nat.leb_gt in H. rewrite H. now rewrite andb_false_r. }
    rewrite E. cbn [fst snd].
    split; [reflexivity|]. split; [reflexivity|]. split; [reflexivity|].
    destruct (updateFirst_split (hasUserId memberId)
                (fun m => assignMember m updates) _ _ Ht)
      as (pre & post & Hm & _ & Hup).
    exists pre, post. split; [exact Hm|]. rewrite Hup.
    unfold lookupGroup. cbn [groups].
    apply find_replaceDoc with (g := g); [exact Hg|].
    apply (lookupGroup_id _ _ _ Hg).
Qed.

Lemma updateMember_effect_witness :
  let r := updateMember (Some Scenario.alice) "g1" "B"
             (mkMemberUpdates (Some admin) None) Scenario.invited in
  fst r = Sent (mkResponse 200 "Member updated successfully"
                  (MemberData (mkMember "B" admin 2000 true)))
  /\ lookupGroup "g1" (snd r)
     = Some (Scenario.smithGroup [mkMember "A" admin 1000 true;
                                  mkMember "B" admin 2000 true]).
Proof.
  intros r.
  assert (Hid : "g1" <> "") by discriminate.
  assert (Hmid : "B" <> "") by discriminate.
  assert (Hg : lookupGroup "g1" Scenario.invited
               = Some (Scenario.smithGroup [mkMember "A" admin 1000 true;
                                            mkMember "B" member 2000 true]))
    by (vm_compute; reflexivity).
  assert (Ht : find (hasUserId "B")
                 (members (Scenario.smithGroup [mkMember "A" admin 1000 true;
                                                mkMember "B" member 2000 true]))
               = Some (mkMember "B" member 2000 true)) by reflexivity.
  destruct (updateMember_effect Scenario.invited Scenario.alice "g1" "B"
              (mkMemberUpdates (Some admin) None) _ _ Hid Hmid Hg Ht) as (_ & Hok).
  destruct Hok as (Hr & _ & _ & _).
  - reflexivity.
  - left. discriminate.
  - split; [exact Hr | vm_compute; reflexivity].
Defined.



(* ------------------------------------------------------------------ *)
(** ** Store-wide properties of the requests *)

(** Split every branch of an unfolded run, innermost test first. *)
Ltac run_cases :=
  repeat match goal with
         | |- context [match ?x with _ => _ end] =>
             lazymatch x with
             | context [match _ with _ => _ end] => fail
             | _ => destruct x eqn:?; cbv beta iota; cbn [fst snd isSent]
             end
         end.

Section Atomicity.

Lemma inviteMember_atomic isEmail now u id email st :
  isSent (fst (inviteMember isEmail now u id email st)) = false ->
  snd (inviteMember isEmail now u id email st) = st.
Proof.
  unfold inviteMember, inviteMemberSchema. handler_unfold.
  run_cases; intros H; try discriminate H; reflexivity.
Qed.

Lemma joinByInviteCode_atomic now u code st :
  isSent (fst (joinByInviteCode now u code st)) = false ->
  snd (joinByInviteCode now u code st) = st.
Proof.
  unfold joinByInviteCode, joinByInviteCodeSchema. handler_unfold.
  run_cases; intros H; try discriminate H; reflexivity.
Qed.

Lemma updateMember_atomic u id memberId updates st :
  isSent (fst (updateMember u id memberId updates st)) = false ->
  snd (updateMember u id memberId updates st) = st.
Proof.
  unfold updateMember. handler_unfold.
  run_cases; intros H; try discriminate H; reflexivity.
Qed.

Lemma removeMember_atomic u id memberId st :
  isSent (fst (removeMember u id memberId st)) = false ->
  snd (removeMember u id memberId st) = st.
Proof.
  unfold removeMember. handler_unfold.
  run_cases; intros H; try discriminate H; reflexivity.
Qed.

Lemma leaveFamilyGroup_atomic u id st :
  isSent (fst (leaveFamilyGroup u id st)) = false ->
  snd (leaveFamilyGroup u id st) = st.
Proof.
  unfold leaveFamilyGroup. handler_unfold.
  run_cases; intros H; try discriminate H; reflexivity.
Qed.

(** The invite-code loop returns only codes that no group holds and that
    the upper-casing setter leaves alone. *)
Lemma uniqueInviteCode_sound fuel :
  forall rnd attempt st code st',
    uniqueInviteCode fuel rnd attempt st = (Sent code, st') ->
    codeFree st code /\ JS.toUpperCase code = code.
Proof.
  induction fuel as [|fuel IH]; intros rnd attempt st code st' H;
    [discriminate H|].
  cbn [uniqueInviteCode] in H. revert H. handler_unfold.
  destruct (find _ (groups st)) as [h|] eqn:Hf; cbv beta iota; intros H.
  - eapply IH, H.
  - injection H as <- _. split; [|apply generateInviteCode_upper].
    intros h Hin Hc. apply (find_none _ _ Hf) in Hin.
    apply String.eqb_neq in Hin. contradiction.
Qed.

(** What [createFamilyGroup] writes, together with its outcome. *)
Lemma createFamilyGroup_written fuel rnd newId now u body st :
  let r := createFamilyGroup fuel rnd newId now u body st in
  (isSent (fst r) = false /\ snd r = st)
  \/ exists user groupData code,
       u = Some user
       /\ isSent (fst r) = true
       /\ snd r = mkStore (groups st
                           ++ [newFamilyGroup newId groupData (user_id user) now code])
                    (users st)
       /\ codeFree st code /\ JS.toUpperCase code = code
       /\ (forall h, In h (groups st) -> adminId h <> user_id user).
Proof.
  cbv zeta. unfold createFamilyGroup. handler_unfold.
  destruct u as [user|]; cbv beta iota; [|left; split; reflexivity].
  pose proof (createFamilyGroupSchema_store body st) as Hparse.
  destruct (createFamilyGroupSchema body st) as [[groupData| | |] st0];
    cbn [snd] in Hparse; subst st0; cbv beta iota;
    try (left; split; reflexivity).
  destruct (find _ (groups st)) as [h|] eqn:Hadm; cbv beta iota;
    [left; split; reflexivity|].
  pose proof (uniqueInviteCode_store fuel rnd 0 st) as Hloop.
  destruct (uniqueInviteCode fuel rnd 0 st) as [[code| | |] st1] eqn:Hrun;
    cbn [snd] in Hloop; subst st1; cbv beta iota;
    try (left; split; reflexivity).
  destruct (invalidPaths _); cbv beta iota; [|left; split; reflexivity].
  right. exists user, groupData, code.
  destruct (uniqueInviteCode_sound _ _ _ _ _ _ Hrun) as [Hfree Hup].
  repeat split; try assumption.
  intros h Hin Heq. apply (find_none _ _ Hadm) in Hin.
  apply String.eqb_neq in Hin. contradiction.
Qed.

End Atomicity.

(** X8. No partial writes: a membership request (invite, join, update
    member, remove member, leave) or a [createFamilyGroup] request that
    does not send a response leaves the store exactly as it was. *)
Theorem failed_requests_write_nothing :
  (forall op st,
     isSent (fst (runOp op st)) = false -> snd (runOp op st) = st)
  /\ (forall fuel rnd newId now u body st,
        isSent (fst (createFamilyGroup fuel rnd newId now u body st)) = false ->
        snd (createFamilyGroup fuel rnd newId now u body st) = st).
Proof.
  split.
  - intros [isEmail now u id email | now u code | u id memberId updates
           | u id memberId | u id] st; cbn [runOp].
    + apply inviteMember_atomic.
    + apply joinByInviteCode_atomic.
    + apply updateMember_atomic.
    + apply removeMember_atomic.
    + apply leaveFamilyGroup_atomic.
  - intros fuel rnd newId now u body st H.
    destruct (createFamilyGroup_written fuel rnd newId now u body st)
      as [[_ Hst] | (user & gd & code & _ & Hsent & _)]; [exact Hst|].
    congruence.
Qed.

Lemma failed_requests_write_nothing_witness :
  snd (runOp (RemoveMember (Some Scenario.alice) "g1" "A") Scenario.created)
  = Scenario.created
  /\ snd (createFamilyGroup 2 Scenario.secondTry "g2" 9000 (Some Scenario.bob)
            (mkCreateBody " " None None) Scenario.created)
     = Scenario.created.
Proof.
  destruct failed_requests_write_nothing as [Hop Hcreate]. split.
  - apply Hop. reflexivity.
  - apply Hcreate. reflexivity.
Defined.

Section StoreInvariants.

Lemma map_replaceDoc {B} (f : FamilyGroup -> B) g g' (l : list FamilyGroup) :
  find (fun h => _id h =? _id g')%string l = Some g ->
  f g' = f g ->
  map f (replaceDoc g' l) = map f l.
Proof.
  intros Hf Heq. induction l as [|h t IH]; simpl in *; [reflexivity|].
  destruct (_id h =? _id g')%string.
  - injection Hf as ->. simpl. now rewrite Heq.
  - simpl. now rewrite IH.
Qed.

Lemma sameGroupFields_refl g : sameGroupFields g g.
Proof. repeat split. Qed.

(** What [updateFamilyGroup] writes, whoever asks and whatever the body. *)
Lemma updateFamilyGroup_written u id body st :
  snd (updateFamilyGroup u id body st) = st
  \/ exists g updates,
       lookupGroup id st = Some g
       /\ snd (updateFamilyGroup u id body st)
          = mkStore (replaceDoc (assignGroup g updates) (groups st)) (users st).
Proof.
  unfold updateFamilyGroup, updateFamilyGroupSchema, saveValidated, zodAsBadRequest.
  try_unfold.
  destruct u as [user|]; cbv beta iota; [|left; reflexivity].
  destruct (id =? "")%string; cbv beta iota; [left; reflexivity|].
  destruct (_ ++ _)%list; cbv beta iota; [|left; reflexivity].
  destruct (lookupGroup id st) as [g|] eqn:Hg; cbv beta iota;
    [|left; reflexivity].
  destruct (negb (isUserFamilyAdmin (user_id user) g)); cbv beta iota;
    [left; reflexivity|].
  destruct (invalidPaths _); cbv beta iota; cbn [snd]; [|left; reflexivity].
  right. eexists. eexists. split; reflexivity.
Qed.

Lemma NoDup_snoc {B} (l : list B) (x : B) :
  NoDup l -> ~ In x l -> NoDup (l ++ [x]).
Proof.
  intros Hl Hx. apply NoDup_app; [assumption | repeat constructor; simpl; tauto|].
  intros y Hy [<-|[]]. contradiction.
Qed.

End StoreInvariants.

(** X9. A membership request never touches anything but rosters: the
    [users] collection is the same afterwards, and every stored group keeps
    its [_id], name, description, [adminId], invite code and settings. *)
Theorem membership_requests_keep_group_fields op st :
  uniqueIds st ->
  users (snd (runOp op st)) = users st
  /\ Forall2 sameGroupFields (groups st) (groups (snd (runOp op st))).
Proof.
  intros Hids.
  destruct (runOp_footprint op st Hids) as [-> | (g & ms' & Hg & -> & _)].
  - split; [reflexivity|]. apply Forall2_refl, sameGroupFields_refl.
  - split; [reflexivity|]. cbn [groups].
    apply replaceDoc_Forall2 with (id := _id g) (g := g);
      [apply sameGroupFields_refl | exact Hg | reflexivity | repeat split].
Qed.

Lemma membership_requests_keep_group_fields_witness :
  users (snd (runOp (Join 3000 (Some Scenario.carol) "aaaaaaaa") Scenario.invited))
  = users Scenario.invited
  /\ Forall2 sameGroupFields (groups Scenario.invited)
       (groups (snd (runOp (Join 3000 (Some Scenario.carol) "aaaaaaaa")
                       Scenario.invited))).
Proof.
  apply (membership_requests_keep_group_fields
           (Join 3000 (Some Scenario.carol) "aaaaaaaa") Scenario.invited).
  unfold uniqueIds. rewrite invited_eq. simpl.
  constructor; [simpl; tauto | constructor].
Defined.

(** X10. Invite codes stay unique: if no two stored groups share an invite
    code, that is still so after any membership request, after
    [createFamilyGroup] (whose loop only returns a code no group holds) and
    after [updateFamilyGroup]. *)
Theorem invite_codes_stay_unique :
  (forall op st,
     uniqueIds st -> uniqueCodes st -> uniqueCodes (snd (runOp op st)))
  /\ (forall fuel rnd newId now u body st,
        uniqueCodes st ->
        uniqueCodes (snd (createFamilyGroup fuel rnd newId now u body st)))
  /\ (forall u id body st,
        uniqueCodes st -> uniqueCodes (snd (updateFamilyGroup u id body st))).
Proof.
  unfold uniqueCodes. split; [|split].
  - intros op st Hids Hc.
    destruct (runOp_footprint op st Hids) as [-> | (g & ms' & Hg & -> & _)];
      [assumption|].
    cbn [groups]. now rewrite (map_replaceDoc inviteCode g).
  - intros fuel rnd newId now u body st Hc.
    destruct (createFamilyGroup_written fuel rnd newId now u body st)
      as [[_ ->] | (user & gd & code & _ & _ & -> & Hfree & Hup & _)];
      [assumption|].
    cbn [groups]. rewrite map_app. cbn [map newFamilyGroup inviteCode].
    apply NoDup_snoc; [assumption|]. rewrite Hup.
    intros Hin. apply in_map_iff in Hin. destruct Hin as (h & Hh & Hin).
    exact (Hfree h Hin Hh).
  - intros u id body st Hc.
    destruct (updateFamilyGroup_written u id body st)
      as [-> | (g & updates & Hg & ->)]; [assumption|].
    cbn [groups]. rewrite (map_replaceDoc inviteCode g); [assumption| |reflexivity].
    cbn [assignGroup _id]. now rewrite (lookupGroup_id _ _ _ Hg).
Qed.

Lemma invite_codes_stay_unique_witness :
  let st' := snd (createFamilyGroup 2 Scenario.secondTry "g2" 9000
                    (Some Scenario.bob) Scenario.smith Scenario.created) in
  map inviteCode (groups st') = ["AAAAAAAA"; "BBBBBBBB"] /\ uniqueCodes st'.
Proof.
  intros st'. subst st'. split; [vm_compute; reflexivity|].
  destruct invite_codes_stay_unique as (_ & Hcreate & _).
  apply Hcreate. unfold uniqueCodes. rewrite created_eq. simpl.
  constructor; [simpl; tauto | constructor].
Defined.

(** X11. One group per administrator: if no user is the [adminId] of two
    stored groups, that is still so after [createFamilyGroup] (which
    refuses a caller who already is one), after any membership request and
    after [updateFamilyGroup] (which never change an [adminId]). *)
Theorem one_group_per_admin_kept :
  (forall fuel rnd newId now u body st,
     oneGroupPerAdmin st ->
     oneGroupPerAdmin (snd (createFamilyGroup fuel rnd newId now u body st)))
  /\ (forall op st,
        uniqueIds st -> oneGroupPerAdmin st -> oneGroupPerAdmin (snd (runOp op st)))
  /\ (forall u id body st,
        oneGroupPerAdmin st ->
        oneGroupPerAdmin (snd (updateFamilyGroup u id body st))).
Proof.
  unfold oneGroupPerAdmin. split; [|split].
  - intros fuel rnd newId now u body st Hc.
    destruct (createFamilyGroup_written fuel rnd newId now u body st)
      as [[_ ->] | (user & gd & code & _ & _ & -> & _ & _ & Hadm)];
      [assumption|].
    cbn [groups]. rewrite map_app. cbn [map newFamilyGroup adminId].
    apply NoDup_snoc; [assumption|].
    intros Hin. apply in_map_iff in Hin. destruct Hin as (h & Hh & Hin).
    exact (Hadm h Hin Hh).
  - intros op st Hids Hc.
    destruct (runOp_footprint op st Hids) as [-> | (g & ms' & Hg & -> & _)];
      [assumption|].
    cbn [groups]. now rewrite (map_replaceDoc adminId g).
  - intros u id body st Hc.
    destruct (updateFamilyGroup_written u id body st)
      as [-> | (g & updates & Hg & ->)]; [assumption|].
    cbn [groups]. rewrite (map_replaceDoc adminId g); [assumption| |reflexivity].
    cbn [assignGroup _id]. now rewrite (lookupGroup_id _ _ _ Hg).
Qed.

Lemma one_group_per_admin_kept_witness :
  oneGroupPerAdmin (snd (createFamilyGroup 1 Scenario.zeros "g2" 9000
                           (Some Scenario.alice) Scenario.smith Scenario.created)).
Proof.
  destruct one_group_per_admin_kept as (Hcreate & _ & _).
  apply Hcreate. unfold oneGroupPerAdmin. rewrite created_eq. simpl.
  constructor; [simpl; tauto | constructor].
Defined.

Section RosterInvariants.

Lemma adminCount_updateFirst_mono p f (ms : list FamilyMember) :
  (forall m, Role_eqb (role m) admin && isActive m = true ->
             Role_eqb (role (f m)) admin && isActive (f m) = true) ->
  adminCount ms <= adminCount (updateFirst p f ms).
Proof.
  intros Hf. induction ms as [|m t IH]; simpl; [lia|].
  destruct (p m); rewrite !adminCount_cons.
  - specialize (Hf m).
    destruct (Role_eqb (role m) admin && isActive m);
      [rewrite Hf by reflexivity; lia | lia].
  - lia.
Qed.

Lemma assignMember_benign updates m :
  u_role updates <> Some member ->
  u_isActive updates <> Some false ->
  Role_eqb (role m) admin && isActive m = true ->
  Role_eqb (role (assignMember m updates)) admin
  && isActive (assignMember m updates) = true.
Proof.
  intros Hr Ha H. apply andb_true_iff in H. destruct H as [H1 H2].
  unfold assignMember. cbn [role isActive].
  destruct (u_role updates) as [[]|], (u_isActive updates) as [[]|];
    cbn [orDefault]; try congruence; now rewrite ?H1, ?H2.
Qed.

Lemma updateFamilyGroup_Forall (P : FamilyGroup -> Prop) u id body st :
  (forall g updates, P g -> P (assignGroup g updates)) ->
  Forall P (groups st) ->
  Forall P (groups (snd (updateFamilyGroup u id body st))).
Proof.
  intros HP Hst.
  destruct (updateFamilyGroup_written u id body st)
    as [-> | (g & updates & Hg & ->)]; [assumption|].
  cbn [groups]. apply replaceDoc_Forall; [assumption|]. apply HP.
  unfold lookupGroup in Hg. apply find_some in Hg.
  rewrite Forall_forall in Hst. now apply Hst.
Qed.

End RosterInvariants.

(** X12. The sole-admin invariant ("every group has an active admin") is
    kept by invite, join, remove member and leave, by [createFamilyGroup],
    by [updateFamilyGroup], and by every [updateMember] whose body neither
    sets [role] to member nor [isActive] to false. *)
Theorem sole_admin_invariant_kept :
  (forall op st,
     uniqueIds st ->
     (forall u id memberId updates, op <> UpdateMember u id memberId updates) ->
     Forall hasActiveAdmin (groups st) ->
     Forall hasActiveAdmin (groups (snd (runOp op st))))
  /\ (forall fuel rnd newId now u body st,
        Forall hasActiveAdmin (groups st) ->
        Forall hasActiveAdmin
          (groups (snd (createFamilyGroup fuel rnd newId now u body st))))
  /\ (forall u id body st,
        Forall hasActiveAdmin (groups st) ->
        Forall hasActiveAdmin (groups (snd (updateFamilyGroup u id body st))))
  /\ (forall u id memberId updates st,
        u_role updates <> Some member ->
        u_isActive updates <> Some false ->
        Forall hasActiveAdmin (groups st) ->
        Forall hasActiveAdmin
          (groups (snd (updateMember u id memberId updates st)))).
Proof.
  split; [|split; [|split]].
  - intros op st. apply hasActiveAdmin_preserved.
  - intros fuel rnd newId now u body st Hinv.
    destruct (createFamilyGroup_footprint fuel rnd newId now u body st)
      as [-> | (groupData & uid & code & ->)]; [assumption|].
    cbn [groups]. apply Forall_app. split; [assumption|].
    repeat constructor.
  - intros u id body st. apply updateFamilyGroup_Forall.
    intros g updates Hg. exact Hg.
  - intros u id memberId updates st Hr Ha Hinv.
    destruct (updateMember_footprint u id memberId updates st)
      as [-> | (g & ms' & Hg & -> & Hstep)]; [assumption|].
    cbn [groups]. apply replaceDoc_Forall; [assumption|].
    simpl in Hstep. subst ms'. unfold hasActiveAdmin. cbn [withMembers members].
    assert (Hgin : hasActiveAdmin g).
    { unfold lookupGroup in Hg. apply find_some in Hg.
      rewrite Forall_forall in Hinv. now apply Hinv. }
    unfold hasActiveAdmin in Hgin.
    pose proof (adminCount_updateFirst_mono (hasUserId memberId)
                  (fun m => assignMember m updates) (members g)
                  (fun m => assignMember_benign updates m Hr Ha)) as Hmono.
    lia.
Qed.

Lemma sole_admin_invariant_kept_witness :
  Forall hasActiveAdmin
    (groups (snd (runOp (Leave (Some Scenario.bob) "g1") Scenario.promoted)))
  /\ Forall hasActiveAdmin
       (groups (snd (updateMember (Some Scenario.alice) "g1" "B"
                       (mkMemberUpdates (Some admin) (Some true))
                       Scenario.bobRemoved))).
Proof.
  destruct sole_admin_invariant_kept as (Hop & _ & _ & Hupd). split.
  - apply Hop.
    + unfold uniqueIds. rewrite promoted_eq. simpl.
      constructor; [simpl; tauto | constructor].
    + intros u id memberId updates H. discriminate H.
    + rewrite promoted_eq. repeat constructor.
  - apply Hupd.
    + discriminate.
    + discriminate.
    + rewrite bobRemoved_eq. repeat constructor.
Defined.

(** X13. One roster entry per user: if no stored roster lists a user
    twice, that is still so after an invitation (which reactivates an
    existing entry instead of adding a second one), an [updateMember], a
    [removeMember] and a leave, after [createFamilyGroup] and after
    [updateFamilyGroup].  A join by invite code does not keep it: a caller
    who already has an entry in the matched group, active or not, gets a
    second one. *)
Theorem roster_entries_stay_unique :
  (forall op st,
     uniqueIds st ->
     (forall now u code, op <> Join now u code) ->
     Forall uniqueRoster (groups st) ->
     Forall uniqueRoster (groups (snd (runOp op st))))
  /\ (forall fuel rnd newId now u body st,
        Forall uniqueRoster (groups st) ->
        Forall uniqueRoster
          (groups (snd (createFamilyGroup fuel rnd newId now u body st))))
  /\ (forall u id body st,
        Forall uniqueRoster (groups st) ->
        Forall uniqueRoster (groups (snd (updateFamilyGroup u id body st))))
  /\ (forall now user raw st g,
        raw <> "" ->
        find (fun h => (inviteCode h =? JS.toUpperCase (JS.trim raw))%string)
          (groups st) = Some g ->
        In (user_id user) (map userId (members g)) ->
        ~ Forall uniqueRoster
            (groups (snd (joinByInviteCode now (Some user) raw st)))).
Proof.
  split; [|split; [|split]].
  - intros op st Hids Hop Hinv. now apply uniqueRoster_preserved.
  - intros fuel rnd newId now u body st Hinv.
    destruct (createFamilyGroup_footprint fuel rnd newId now u body st)
      as [-> | (groupData & uid & code & ->)]; [assumption|].
    cbn [groups]. apply Forall_app. split; [assumption|].
    repeat constructor. simpl. tauto.
  - intros u id body st. apply updateFamilyGroup_Forall.
    intros g updates Hg. exact Hg.
  - intros now user raw st g Hraw Hf Hin Hall.
    rewrite (joinByInviteCode_run now user raw st Hraw), Hf in Hall.
    cbv zeta in Hall. cbn [snd groups] in Hall.
    rewrite Forall_forall in Hall.
    apply find_some in Hf. destruct Hf as [Hg _].
    pose proof (Hall _ (replaceDoc_In g
                          (withMembers g
                             (members g
                              ++ [mkMember (user_id user) member now true]))
                          (groups st) Hg eq_refl)) as Hdup.
    unfold uniqueRoster in Hdup. cbn [withMembers members] in Hdup.
    rewrite map_app in Hdup. cbn [map userId] in Hdup.
    apply NoDup_remove_2 in Hdup. rewrite app_nil_r in Hdup. contradiction.
Qed.

Lemma roster_entries_stay_unique_witness :
  Forall uniqueRoster
    (groups (snd (runOp (Invite Scenario.anyEmail 5000 (Some Scenario.alice) "g1"
                           "bob@example.com")
                    Scenario.bobRemoved)))
  /\ ~ Forall uniqueRoster
         (groups (snd (joinByInviteCode 3000 (Some Scenario.bob) "aaaaaaaa"
                         Scenario.bobRemoved))).
Proof.
  destruct roster_entries_stay_unique as (Hop & _ & _ & Hjoin).
  split.
  - apply Hop.
    + unfold uniqueIds. rewrite bobRemoved_eq. simpl.
      constructor; [simpl; tauto | constructor].
    + intros now u code H. discriminate H.
    + rewrite bobRemoved_eq. constructor; [|constructor].
      unfold uniqueRoster. simpl.
      constructor; [simpl; intros [H|[]]; discriminate H|].
      constructor; [simpl; tauto | constructor].
  - apply (Hjoin 3000%Z Scenario.bob "aaaaaaaa" Scenario.bobRemoved
             (Scenario.smithGroup [mkMember "A" admin 1000 true;
                                   mkMember "B" admin 2000 false])).
    + discriminate.
    + vm_compute. reflexivity.
    + simpl. tauto.
Defined.

(* ------------------------------------------------------------------ *)
(** ** How the requests compose *)

Section Composition.

Lemma isUserFamilyMember_split uid g pre m post :
  members g = pre ++ m :: post ->
  userId m = uid -> isActive m = true ->
  isUserFamilyMember uid g = true.
Proof.
  intros Hms Hid Hact. unfold isUserFamilyMember. apply existsb_exists.
  exists m. split.
  - rewrite Hms. apply in_or_app. right. now left.
  - now rewrite Hid, String.eqb_refl, Hact.
Qed.

(** The first group holding a code and the first group with that group's
    [_id] are the same stored document, so writing it back by [_id] keeps
    it the group found by code. *)
Lemma find_code_replaceDoc code (l : list FamilyGroup) g g' :
  find (fun h => (inviteCode h =? code)%string) l = Some g ->
  find (fun h => (_id h =? _id g)%string) l = Some g ->
  _id g' = _id g -> inviteCode g' = inviteCode g ->
  find (fun h => (inviteCode h =? code)%string) (replaceDoc g' l) = Some g'.
Proof.
  intros Hc Hi Hid Hcode. rewrite <- Hid in Hi.
  induction l as [|h t IH]; simpl in *; [discriminate|].
  destruct (_id h =? _id g')%string eqn:Ei.
  - injection Hi as ->. cbn [find].
    destruct (inviteCode g =? code)%string eqn:Ec.
    + now rewrite Hcode, Ec.
    + exfalso. apply find_some in Hc. destruct Hc as [_ Hc].
      rewrite Hc in Ec. discriminate.
  - cbn [find]. destruct (inviteCode h =? code)%string eqn:Ec.
    + injection Hc as ->. rewrite Hid, String.eqb_refl in Ei. discriminate.
    + now apply IH.
Qed.

End Composition.

(** X14. A join that succeeds appends exactly one entry: with [_id] a
    key, the roster of the matched group is the old roster followed by
    [{userId: caller, role: member, isActive: true, joinedAt: now}], the
    other fields of the group, the other groups and the users stay as they
    are, the caller is an active member afterwards, the number of active
    entries has grown by one, and the response reports that number - also
    when the caller had an entry already. *)
Theorem join_adds_one_active_member now u raw st :
  uniqueIds st ->
  isSent (fst (joinByInviteCode now u raw st)) = true ->
  exists user g,
    u = Some user
    /\ find (fun h => (inviteCode h =? JS.toUpperCase (JS.trim raw))%string)
         (groups st) = Some g
    /\ let g' := withMembers g
                   (members g ++ [mkMember (user_id user) member now true]) in
       let r := joinByInviteCode now u raw st in
       lookupGroup (_id g) (snd r) = Some g'
       /\ (exists before after,
             groups st = before ++ g :: after
             /\ groups (snd r) = before ++ g' :: after)
       /\ users (snd r) = users st
       /\ isUserFamilyMember (user_id user) g' = true
       /\ memberCount (members g') = S (memberCount (members g))
       /\ fst r = Sent (mkResponse 200 "Successfully joined family group"
                          (GroupData g' member false
                             (S (memberCount (members g))))).
Proof.
  intros Hids Hsent.
  destruct (joinByInviteCode_sent_inv _ _ _ _ Hsent)
    as (user & g & -> & Hraw & Hf).
  exists user, g. split; [reflexivity|]. split; [exact Hf|].
  rewrite (joinByInviteCode_run now user raw st Hraw), Hf. cbv zeta.
  cbn [fst snd groups users].
  set (g' := withMembers g (members g ++ [mkMember (user_id user) member now true])).
  assert (Hlook : lookupGroup (_id g) st = Some g).
  { apply lookup_of_In; [exact Hids|]. now apply find_some in Hf. }
  assert (Hcount : memberCount (members g') = S (memberCount (members g))).
  { unfold g'. cbn [withMembers members].
    rewrite memberCount_app, memberCount_cons. cbn [isActive memberCount].
    unfold memberCount at 2. simpl. lia. }
  split.
  { unfold lookupGroup. cbn [groups].
    apply find_replaceDoc with (g := g); [exact Hlook | reflexivity]. }
  split.
  { destruct (replaceDoc_split (_id g) (groups st) g g' Hlook eq_refl)
      as (before & after & Hl & _ & Hr).
    exists before, after. split; assumption. }
  split; [reflexivity|]. split.
  { apply (isUserFamilyMember_split _ g' (members g)
             (mkMember (user_id user) member now true) []); reflexivity. }
  split; [exact Hcount | now rewrite Hcount].
Qed.

Lemma join_adds_one_active_member_witness :
  let r := joinByInviteCode 3000 (Some Scenario.carol) "aaaaaaaa" Scenario.invited in
  lookupGroup "g1" (snd r)
  = Some (Scenario.smithGroup [mkMember "A" admin 1000 true;
                               mkMember "B" member 2000 true;
                               mkMember "C" member 3000 true])
  /\ fst r = Sent (mkResponse 200 "Successfully joined family group"
                     (GroupData
                        (Scenario.smithGroup [mkMember "A" admin 1000 true;
                                              mkMember "B" member 2000 true;
                                              mkMember "C" member 3000 true])
                        member false 3)).
Proof.
  intros r. subst r.
  assert (Hids : uniqueIds Scenario.invited).
  { unfold uniqueIds. rewrite invited_eq. simpl.
    constructor; [simpl; tauto | constructor]. }
  destruct (join_adds_one_active_member 3000 (Some Scenario.carol) "aaaaaaaa"
              Scenario.invited Hids eq_refl)
    as (user & g & Hu & Hf & Hlook & _ & _ & _ & _ & Hr).
  injection Hu as <-.
  assert (Hg : g = Scenario.smithGroup [mkMember "A" admin 1000 true;
                                        mkMember "B" member 2000 true]).
  { rewrite invited_eq in Hf. vm_compute in Hf. now injection Hf as <-. }
  subst g. split; [exact Hlook | exact Hr].
Defined.

Section InviteTwice.

Lemma inviteMember_sent_inv isEmail now u id raw st :
  isSent (fst (inviteMember isEmail now u id raw st)) = true ->
  exists user g actor target,
    u = Some user /\ id <> "" /\ isEmail raw = true
    /\ lookupGroup id st = Some g
    /\ find (fun m => (userId m =? user_id user)%string && isActive m) (members g)
       = Some actor
    /\ (role actor = admin \/ allowMemberInvites (settings g) = true)
    /\ find (fun x => (user_email x
                       =? JS.toLowerCase (JS.trim (JS.toLowerCase raw)))%string)
         (users st) = Some target.
Proof.
  unfold inviteMember, inviteMemberSchema. handler_unfold.
  destruct u as [user|]; cbv beta iota; [|discriminate].
  destruct (id =? "")%string eqn:Hid; cbv beta iota; [discriminate|].
  destruct (isEmail raw) eqn:Hmail; cbv beta iota; [|discriminate].
  destruct (lookupGroup id st) as [g|] eqn:Hg; cbv beta iota; [|discriminate].
  destruct (find _ (members g)) as [actor|] eqn:Hactor; cbv beta iota;
    [|discriminate].
  destruct (negb (Role_eqb (role actor) admin)
            && negb (allowMemberInvites (settings g))) eqn:Hperm;
    cbv beta iota; [discriminate|].
  destruct (find _ (users st)) as [target|] eqn:Ht; cbv beta iota; [|discriminate].
  intros _. exists user, g, actor, target.
  split; [reflexivity|]. split; [now apply String.eqb_neq|].
  do 3 (split; [first [reflexivity | assumption]|]).
  split; [|first [reflexivity | assumption]].
  apply andb_false_iff in Hperm. destruct Hperm as [H|H].
  - left. destruct (role actor); [reflexivity | discriminate].
  - right. now destruct (allowMemberInvites (settings g)).
Qed.

Lemma find_app_found {B} (q : B -> bool) l l' a :
  find q l = Some a -> find q (l ++ l') = Some a.
Proof.
  induction l as [|x t IH]; simpl; [discriminate|].
  destruct (q x); [trivial | exact IH].
Qed.

Lemma find_app_none {B} (q : B -> bool) l l' :
  find q l = None -> find q (l ++ l') = find q l'.
Proof.
  induction l as [|x t IH]; simpl; [reflexivity|].
  destruct (q x); [discriminate | exact IH].
Qed.

Lemma find_swap_miss {B} (q : B -> bool) pre a b post :
  q a = false -> q b = false ->
  find q (pre ++ a :: post) = find q (pre ++ b :: post).
Proof.
  intros Ha Hb. induction pre as [|x t IH]; simpl; [now rewrite Ha, Hb|].
  destruct (q x); [reflexivity | exact IH].
Qed.

Lemma find_after_misses (p : FamilyMember -> bool) pre a post :
  Forall (fun x => p x = false) pre -> p a = true ->
  find p (pre ++ a :: post) = Some a.
Proof.
  intros Hpre Ha. induction Hpre as [|x t Hx _ IH]; simpl; [now rewrite Ha|].
  now rewrite Hx.
Qed.

End InviteTwice.

(** X15. Inviting the same e-mail twice: when an invitation of somebody
    other than the inviter has just succeeded (by appending or by
    reactivating), the same invitation repeated on the resulting store is
    refused with 409 and writes nothing - whatever the roster looks like,
    also when it holds several entries for a user. *)
Theorem invite_twice_conflicts isEmail now now' u id raw st :
  (forall user target,
     u = Some user ->
     find (fun x => (user_email x
                     =? JS.toLowerCase (JS.trim (JS.toLowerCase raw)))%string)
       (users st) = Some target ->
     user_id target <> user_id user) ->
  isSent (fst (inviteMember isEmail now u id raw st)) = true ->
  let st1 := snd (inviteMember isEmail now u id raw st) in
  statusOf (fst (inviteMember isEmail now' u id raw st1)) = Some Conflict
  /\ snd (inviteMember isEmail now' u id raw st1) = st1.
Proof.
  intros Hother Hsent.
  destruct (inviteMember_sent_inv _ _ _ _ _ _ Hsent)
    as (user & g & actor & target & -> & Hid & Hmail & Hg & Hactor & Hperm & Ht).
  specialize (Hother user target eq_refl Ht).
  pose proof (lookupGroup_id _ _ _ Hg) as Hgid.
  revert Hsent.
  rewrite (inviteMember_run isEmail now st user id raw g actor target
             Hid Hmail Hg Hactor Hperm Ht).
  destruct (find (hasUserId (user_id target)) (members g)) as [m|] eqn:Hm.
  - destruct (isActive m) eqn:Hact; [discriminate|]. intros _. cbn [snd].
    destruct (updateFirst_split _ (reactivate now) _ _ Hm)
      as (pre & post & Hms & Hpre & Hup).
    rewrite Hup.
    set (g1 := withMembers g (pre ++ reactivate now m :: post)).
    set (st1 := mkStore (replaceDoc g1 (groups st)) (users st)).
    assert (Hg1 : lookupGroup id st1 = Some g1).
    { unfold lookupGroup, st1. cbn [groups].
      now apply find_replaceDoc with (g := g). }
    assert (Hmu : userId m <> user_id user).
    { rewrite (proj2 (find_hasUserId _ _ _ Hm)). exact Hother. }
    assert (Hactor1 :
      find (fun x => (userId x =? user_id user)%string && isActive x) (members g1)
      = Some actor).
    { unfold g1. cbn [withMembers members]. rewrite <- Hactor, Hms.
      apply find_swap_miss.
      - cbn [reactivate userId]. now rewrite (proj2 (String.eqb_neq _ _) Hmu).
      - now rewrite (proj2 (String.eqb_neq _ _) Hmu). }
    rewrite (inviteMember_run isEmail now' st1 user id raw g1 actor target
               Hid Hmail Hg1 Hactor1 Hperm Ht).
    change (members g1) with (pre ++ reactivate now m :: post).
    rewrite (find_after_misses _ pre (reactivate now m) post Hpre).
    + split; reflexivity.
    + unfold hasUserId. cbn [reactivate userId].
      apply String.eqb_eq, (find_hasUserId _ _ _ Hm).
  - intros _. cbn [snd].
    set (g1 := withMembers g (members g ++ [mkMember (user_id target) member now true])).
    set (st1 := mkStore (replaceDoc g1 (groups st)) (users st)).
    assert (Hg1 : lookupGroup id st1 = Some g1).
    { unfold lookupGroup, st1. cbn [groups].
      now apply find_replaceDoc with (g := g). }
    assert (Hactor1 :
      find (fun x => (userId x =? user_id user)%string && isActive x) (members g1)
      = Some actor).
    { unfold g1. cbn [withMembers members]. now apply find_app_found. }
    rewrite (inviteMember_run isEmail now' st1 user id raw g1 actor target
               Hid Hmail Hg1 Hactor1 Hperm Ht).
    change (members g1)
      with (members g ++ [mkMember (user_id target) member now true]).
    assert (E : find (hasUserId (user_id target))
                  (members g ++ [mkMember (user_id target) member now true])
                = Some (mkMember (user_id target) member now true)).
    { rewrite (find_app_none _ _ _ Hm). unfold hasUserId. cbn [find userId].
      now rewrite String.eqb_refl. }
    rewrite E. split; reflexivity.
Qed.

Lemma invite_twice_conflicts_witness :
  let st1 := snd (inviteMember Scenario.anyEmail 4000 (Some Scenario.alice) "g1"
                    "bob@example.com" Scenario.bobRejoined) in
  statusOf (fst (inviteMember Scenario.anyEmail 4500 (Some Scenario.alice) "g1"
                   "bob@example.com" st1)) = Some Conflict
  /\ snd (inviteMember Scenario.anyEmail 4500 (Some Scenario.alice) "g1"
            "bob@example.com" st1) = st1.
Proof.
  apply (invite_twice_conflicts Scenario.anyEmail 4000 4500 (Some Scenario.alice)
           "g1" "bob@example.com" Scenario.bobRejoined).
  - intros user target Hu Ht. injection Hu as <-.
    vm_compute in Ht. injection Ht as <-. discriminate.
  - reflexivity.
Defined.

(** X16. Leaving and joining again by code is not a round trip: after a
    permitted leave the caller's join with the group's code succeeds, but it
    does not reactivate the entry the leave switched off.  That entry stays
    in its place, inactive and with the role it had, and a new entry
    [{userId: caller, role: member, isActive: true, joinedAt: now}] is
    appended: the caller is in the roster twice. *)
Theorem leave_then_rejoin st user id raw now g m :
  id <> "" -> raw <> "" ->
  lookupGroup id st = Some g ->
  find (fun h => (inviteCode h =? JS.toUpperCase (JS.trim raw))%string) (groups st)
  = Some g ->
  find (hasUserId (user_id user)) (members g) = Some m ->
  isActive m = true ->
  (role m = member \/ 2 <= adminCount (members g)) ->
  let st1 := snd (leaveFamilyGroup (Some user) id st) in
  let r := joinByInviteCode now (Some user) raw st1 in
  isSent (fst r) = true
  /\ exists pre post,
       members g = pre ++ m :: post
       /\ lookupGroup id (snd r)
          = Some (withMembers g
                    ((pre ++ setActive false m :: post)
                     ++ [mkMember (user_id user) member now true])).
Proof.
  intros Hid Hraw Hg Hcode Hm Hact Hsafe. cbv zeta.
  pose proof (lookupGroup_id _ _ _ Hg) as Hgid.
  rewrite (leaveFamilyGroup_run st user id g Hid Hg), Hm, Hact. cbn [negb].
  assert (E : Role_eqb (role m) admin && (adminCount (members g) <=? 1) = false).
  { destruct Hsafe as [Hr|Hc]; [rewrite Hr; reflexivity|].
    apply andb_false_iff. right. apply Nat.leb_gt. lia. }
  rewrite E. cbn [snd].
  destruct (updateFirst_split (hasUserId (user_id user)) (setActive false) _ _ Hm)
    as (pre & post & Hms & Hpre & Hup).
  rewrite Hup.
  set (g1 := withMembers g (pre ++ setActive false m :: post)).
  set (st1 := mkStore (replaceDoc g1 (groups st)) (users st)).
  rewrite (joinByInviteCode_run now user raw st1 Hraw).
  assert (Hcode1 :
    find (fun h => (inviteCode h =? JS.toUpperCase (JS.trim raw))%string)
      (groups st1) = Some g1).
  { unfold st1. cbn [groups]. apply find_code_replaceDoc with (g := g);
      [exact Hcode | | reflexivity | reflexivity].
    unfold lookupGroup in Hg. now rewrite Hgid. }
  rewrite Hcode1. cbv zeta.
  split; [reflexivity|]. exists pre, post. split; [exact Hms|].
  unfold lookupGroup. cbn [snd groups].
  apply find_replaceDoc with (g := g1); [|exact Hgid].
  unfold st1. cbn [groups]. now apply find_replaceDoc with (g := g).
Qed.

Lemma leave_then_rejoin_witness :
  let st1 := snd (leaveFamilyGroup (Some Scenario.bob) "g1" Scenario.promoted) in
  let r := joinByInviteCode 7000 (Some Scenario.bob) "aaaaaaaa" st1 in
  isSent (fst r) = true
  /\ lookupGroup "g1" (snd r)
     = Some (Scenario.smithGroup [mkMember "A" admin 1000 true;
                                  mkMember "B" admin 2000 false;
                                  mkMember "B" member 7000 true]).
Proof.
  assert (Hg : lookupGroup "g1" Scenario.promoted
               = Some (Scenario.smithGroup [mkMember "A" admin 1000 true;
                                            mkMember "B" admin 2000 true]))
    by (vm_compute; reflexivity).
  destruct (leave_then_rejoin Scenario.promoted Scenario.bob "g1" "aaaaaaaa" 7000
              _ (mkMember "B" admin 2000 true)
              ltac:(discriminate) ltac:(discriminate) Hg)
    as (Hsent & pre & post & _ & _).
  - vm_compute. reflexivity.
  - reflexivity.
  - reflexivity.
  - right. vm_compute. lia.
  - split; [exact Hsent | vm_compute; reflexivity].
Defined.

(* ------------------------------------------------------------------ *)
(** ** Invite codes from creation to joining *)

Section CodeRoundTrip.

Lemma codeChar_facts c :
  isCodeChar c = true ->
  JS.isWhiteSpace (JS.toLowerCaseChar c) = false
  /\ JS.toUpperCaseChar (JS.toLowerCaseChar c) = c.
Proof.
  destruct c as [[] [] [] [] [] [] [] []]; intros H;
    try discriminate H; split; reflexivity.
Qed.

Lemma trimStart_blank lead s : blank lead -> JS.trimStart (lead ++ s) = JS.trimStart s.
Proof.
  unfold blank. induction lead as [|c lead IH]; simpl; intros H; [reflexivity|].
  inversion H as [|? ? Hc Hrest]; subst. rewrite Hc. now apply IH.
Qed.

Lemma trimEnd_blank trail : blank trail -> JS.trimEnd trail = "".
Proof.
  unfold blank. induction trail as [|c trail IH]; simpl; intros H; [reflexivity|].
  inversion H as [|? ? Hc Hrest]; subst. rewrite (IH Hrest). now rewrite Hc.
Qed.

(** Trimming strips blank padding off a string without white space. *)
Lemma trim_padding lead s trail :
  blank lead -> blank trail ->
  Forall (fun c => JS.isWhiteSpace c = false) (list_ascii_of_string s) ->
  JS.trim (lead ++ s ++ trail) = s.
Proof.
  intros Hl Ht Hs. unfold JS.trim. rewrite (trimStart_blank _ _ Hl).
  induction s as [|c s IH]; simpl in *.
  - assert (E : JS.trimStart trail = "" \/ exists c r,
                  JS.trimStart trail = String c r /\ JS.isWhiteSpace c = false)
      by apply trimStart_head.
    destruct E as [-> | (c & r & Hc & Hns)]; [reflexivity|].
    exfalso. clear - Ht Hc Hns. unfold blank in Ht.
    induction trail as [|x trail IH]; simpl in *; [discriminate|].
    inversion Ht as [|? ? Hx Hrest]; subst. rewrite Hx in Hc. now apply IH.
  - inversion Hs as [|? ? Hc Hrest]; subst. rewrite Hc. cbn [JS.trimEnd].
    assert (E : JS.trimEnd (s ++ trail) = s).
    { clear - Ht Hrest. induction s as [|x s IH]; simpl in *.
      - now apply trimEnd_blank.
      - inversion Hrest as [|? ? Hx Hr]; subst. rewrite (IH Hr).
        destruct s; [now rewrite Hx | reflexivity]. }
    rewrite E. destruct s; [now rewrite Hc | reflexivity].
Qed.

Lemma lower_code_shape s :
  Forall (fun c => isCodeChar c = true) (list_ascii_of_string s) ->
  Forall (fun c => JS.isWhiteSpace c = false)
    (list_ascii_of_string (JS.toLowerCase s))
  /\ JS.toUpperCase (JS.toLowerCase s) = s.
Proof.
  unfold JS.toUpperCase, JS.toLowerCase.
  induction s as [|c s IH]; cbn [JS.smap list_ascii_of_string]; intros H.
  - split; [constructor | reflexivity].
  - inversion H as [|? ? Hc Hrest]; subst.
    destruct (codeChar_facts c Hc) as [Hws Hup].
    destruct (IH Hrest) as [IH1 IH2].
    split; [now constructor | now rewrite Hup, IH2].
Qed.

End CodeRoundTrip.

(** X17. An invite code survives retyping: the code produced by
    [generateInviteCode], typed in lower case and with blanks around it,
    is turned back into exactly that code by [joinByInviteCodeSchema]. *)
Theorem invite_code_survives_retyping rnd lead trail st :
  (forall i, i < 8 -> isUnitSample (rnd i)) ->
  blank lead -> blank trail ->
  joinByInviteCodeSchema
    (lead ++ JS.toLowerCase (generateInviteCode rnd) ++ trail) st
  = (Sent (generateInviteCode rnd), st).
Proof.
  intros Hs Hl Ht. destruct (generateInviteCode_chars rnd Hs) as [Hlen Hchars].
  destruct (lower_code_shape _ Hchars) as [Hns Hup].
  unfold joinByInviteCodeSchema.
  assert (E : (String.length
                 (lead ++ JS.toLowerCase (generateInviteCode rnd) ++ trail) <? 1)
              = false).
  { apply Nat.ltb_ge. rewrite !length_append.
    unfold JS.toLowerCase. rewrite smap_length, Hlen. lia. }
  rewrite E, (trim_padding _ _ _ Hl Ht Hns), Hup. reflexivity.
Qed.

Lemma invite_code_survives_retyping_witness :
  joinByInviteCodeSchema
    ("  " ++ JS.toLowerCase (generateInviteCode (fun k => (Z.of_nat k # 8)%Q)) ++ " ")
    Scenario.noGroups
  = (Sent (generateInviteCode (fun k => (Z.of_nat k # 8)%Q)), Scenario.noGroups).
Proof.
  apply (invite_code_survives_retyping (fun k => (Z.of_nat k # 8)%Q)).
  - intros i Hi. unfold isUnitSample, Qle, Qlt. simpl. lia.
  - repeat constructor.
  - repeat constructor.
Defined.

(** X18. Create, then join: once [createFamilyGroup] has created a group
    (valid body, non-blank name, the caller administers no group, the loop,
    with readings of [Math.random()] in [0, 1), reaches a free code, the
    new [_id] is fresh), any other user who presents a spelling of its
    invite code joins it, and the roster is then the creator as active
    admin followed by the joiner as active member. *)
Theorem create_then_join fuel rnd newId now now2 creator joiner body st :
  1 <= String.length (b_name body) <= 50 ->
  JS.trim (b_name body) <> "" ->
  (forall d, b_description body = Some d -> String.length d <= 200) ->
  (forall h, In h (groups st) -> adminId h <> user_id creator) ->
  (forall h, In h (groups st) -> _id h <> newId) ->
  (forall i, isUnitSample (rnd i)) ->
  (exists k, k < fuel
             /\ codeFree st (generateInviteCode (fun i => rnd (8 * k + i)))) ->
  user_id joiner <> user_id creator ->
  let rc := createFamilyGroup fuel rnd newId now (Some creator) body st in
  exists g,
    fst rc = Sent (mkResponse 201 "Family group created successfully"
                     (GroupData g admin true 1))
    /\ forall raw,
         raw <> "" -> JS.toUpperCase (JS.trim raw) = inviteCode g ->
         let rj := joinByInviteCode now2 (Some joiner) raw (snd rc) in
         isSent (fst rj) = true
         /\ lookupGroup newId (snd rj)
            = Some (withMembers g
                      [mkMember (user_id creator) admin now true;
                       mkMember (user_id joiner) member now2 true]).
Proof.
  intros Hname Hblank Hdesc Hnone Hfresh Hs Hloop Hother. cbv zeta.
  destruct (createFamilyGroup_run fuel rnd newId now creator body st
              Hname Hdesc Hs Hnone Hloop) as (code & Hrun & Hfree & Hup).
  cbv zeta in Hrun. rewrite Hrun.
  apply String.eqb_neq in Hblank. rewrite Hblank.
  set (g := newFamilyGroup newId _ (user_id creator) now code) in *.
  exists g. split; [reflexivity|].
  intros raw Hraw Hcode. cbn [snd].
  rewrite (joinByInviteCode_run now2 joiner raw _ Hraw). cbn [groups].
  assert (Hf : find (fun h => (inviteCode h =? JS.toUpperCase (JS.trim raw))%string)
                 (groups st ++ [g]) = Some g).
  { rewrite find_app_none.
    - cbn [find]. now rewrite Hcode, String.eqb_refl.
    - apply codeFree_find. rewrite Hcode. unfold g.
      cbn [newFamilyGroup inviteCode]. now rewrite Hup. }
  rewrite Hf. cbv zeta. cbn [fst snd isSent groups]. split; [reflexivity|].
  unfold lookupGroup. cbn [groups].
  apply find_replaceDoc with (g := g); [|reflexivity].
  rewrite find_app_none.
  - cbn [find]. unfold g at 1. cbn [newFamilyGroup _id].
    now rewrite String.eqb_refl.
  - destruct (find _ (groups st)) as [h|] eqn:E; [|reflexivity].
    exfalso. apply find_some in E. destruct E as [Hin Hh].
    apply String.eqb_eq in Hh. exact (Hfresh h Hin Hh).
Qed.

Lemma create_then_join_witness :
  let rc := createFamilyGroup 1 Scenario.zeros "g1" 1000 (Some Scenario.alice)
              Scenario.smith Scenario.noGroups in
  let rj := joinByInviteCode 4000 (Some Scenario.carol) " aaaaaaaa " (snd rc) in
  isSent (fst rj) = true
  /\ lookupGroup "g1" (snd rj)
     = Some (Scenario.smithGroup [mkMember "A" admin 1000 true;
                                  mkMember "C" member 4000 true]).
Proof.
  intros rc rj.
  destruct (create_then_join 1 Scenario.zeros "g1" 1000 4000 Scenario.alice
              Scenario.carol Scenario.smith Scenario.noGroups)
    as (g & Hrc & Hjoin).
  - simpl. lia.
  - vm_compute. discriminate.
  - intros d Hd. discriminate Hd.
  - intros h [].
  - intros h [].
  - intros i. unfold isUnitSample, Scenario.zeros, Qle, Qlt. simpl. lia.
  - exists 0. split; [lia | intros h []].
  - discriminate.
  - assert (Hg : g = Scenario.smithGroup [mkMember "A" admin 1000 true]).
    { vm_compute in Hrc. now injection Hrc as <-. }
    subst g. destruct (Hjoin " aaaaaaaa ") as (Hsent & Hlook).
    + discriminate.
    + vm_compute. reflexivity.
    + split; [exact Hsent | exact Hlook].
Defined.

(* ------------------------------------------------------------------ *)
(** ** Refusals of [inviteMember] and of [updateMember] *)

(** X19. [inviteMember] on a found group: a caller who is not an active
    member is refused with 403; an active caller whose role is member is
    refused with 403 when the group's [allowMemberInvites] is off, whereas
    a caller whose role is admin is never stopped by that setting; and a
    permitted caller gets 404 when no user has the normalised e-mail.  None
    of these writes anything. *)
Theorem inviteMember_refusals isEmail now st user id raw g :
  id <> "" ->
  isEmail raw = true ->
  lookupGroup id st = Some g ->
  let r := inviteMember isEmail now (Some user) id raw st in
  (isUserFamilyMember (user_id user) g = false ->
     statusOf (fst r) = Some Forbidden /\ snd r = st)
  /\ (forall actor,
        find (fun m => (userId m =? user_id user)%string && isActive m) (members g)
        = Some actor ->
        role actor = member -> allowMemberInvites (settings g) = false ->
        statusOf (fst r) = Some Forbidden /\ snd r = st)
  /\ (forall actor,
        find (fun m => (userId m =? user_id user)%string && isActive m) (members g)
        = Some actor ->
        (role actor = admin \/ allowMemberInvites (settings g) = true) ->
        find (fun x => (user_email x
                        =? JS.toLowerCase (JS.trim (JS.toLowerCase raw)))%string)
          (users st) = None ->
        statusOf (fst r) = Some NotFound /\ snd r = st).
Proof.
  intros Hid Hmail Hg r. subst r.
  unfold inviteMember, inviteMemberSchema. handler_unfold.
  rewrite (proj2 (String.eqb_neq _ _) Hid). cbv beta iota.
  handler_step Hmail. handler_step Hg.
  split; [|split].
  - intros Hm.
    assert (E : find (fun m => (userId m =? user_id user)%string && isActive m)
                  (members g) = None).
    { destruct (find _ (members g)) as [x|] eqn:Hf; [|reflexivity].
      exfalso. apply find_some in Hf. destruct Hf as [Hin Hx].
      unfold isUserFamilyMember in Hm.
      assert (existsb (fun m => (userId m =? user_id user)%string && isActive m)
                (members g) = true); [|congruence].
      apply existsb_exists. eauto. }
    rewrite E. split; reflexivity.
  - intros actor Hactor Hrole Hoff. handler_step Hactor.
    rewrite Hrole, Hoff. split; reflexivity.
  - intros actor Hactor Hperm Hnone. handler_step Hactor.
    assert (E : negb (Role_eqb (role actor) admin)
                && negb (allowMemberInvites (settings g)) = false).
    { destruct Hperm as [H|H]; rewrite H; [reflexivity | apply andb_false_r]. }
    handler_step E. rewrite Hnone. split; reflexivity.
Qed.

Lemma inviteMember_refusals_witness :
  statusOf (fst (inviteMember Scenario.anyEmail 5000 (Some Scenario.carol) "g1"
                   "bob@example.com" Scenario.invited)) = Some Forbidden
  /\ snd (inviteMember Scenario.anyEmail 5000 (Some Scenario.carol) "g1"
            "bob@example.com" Scenario.invited) = Scenario.invited.
Proof.
  destruct (inviteMember_refusals Scenario.anyEmail 5000 Scenario.invited
              Scenario.carol "g1" "bob@example.com"
              (Scenario.smithGroup [mkMember "A" admin 1000 true;
                                    mkMember "B" member 2000 true]))
    as (Hout & _ & _).
  - discriminate.
  - reflexivity.
  - vm_compute. reflexivity.
  - apply Hout. reflexivity.
Defined.

(** X20. The guard that [updateMember] does have: the [adminId] holder's
    request to set their own role to member is refused with 400, and
    nothing is written, whenever the group has at most one active admin -
    whatever else the body sets. *)
Theorem updateMember_refuses_last_admin_self_demotion st user id g target active' :
  id <> "" -> user_id user <> "" ->
  lookupGroup id st = Some g ->
  adminId g = user_id user ->
  find (hasUserId (user_id user)) (members g) = Some target ->
  adminCount (members g) <= 1 ->
  statusOf (fst (updateMember (Some user) id (user_id user)
                   (mkMemberUpdates (Some member) active') st)) = Some BadRequest
  /\ snd (updateMember (Some user) id (user_id user)
            (mkMemberUpdates (Some member) active') st) = st.
Proof.
  intros Hid Huid Hg Hadm Ht Hcount.
  rewrite (updateMember_run st user id (user_id user) _ g target
             Hid Huid Hg Hadm Ht).
  rewrite String.eqb_refl. cbn [u_role andb].
  apply Nat.leb_le in Hcount. rewrite Hcount. split; reflexivity.
Qed.

Lemma updateMember_refuses_last_admin_self_demotion_witness :
  statusOf (fst (updateMember (Some Scenario.alice) "g1" "A"
                   (mkMemberUpdates (Some member) (Some true)) Scenario.invited))
  = Some BadRequest
  /\ snd (updateMember (Some Scenario.alice) "g1" "A"
            (mkMemberUpdates (Some member) (Some true)) Scenario.invited)
     = Scenario.invited.
Proof.
  apply (updateMember_refuses_last_admin_self_demotion Scenario.invited
           Scenario.alice "g1"
           (Scenario.smithGroup [mkMember "A" admin 1000 true;
                                 mkMember "B" member 2000 true])
           (mkMember "A" admin 1000 true) (Some true)).
  - discriminate.
  - discriminate.
  - vm_compute. reflexivity.
  - reflexivity.
  - reflexivity.
  - vm_compute. lia.
Defined.

(* ------------------------------------------------------------------ *)
(** ** A blank name on creation *)

(** X30. A name made of white space only passes [createFamilyGroupSchema]
    (its length check runs before [trim]) but reaches the model trimmed to
    the empty string, which the [required] validator rejects on [save]: the
    request of a caller who administers no group ends in a mongoose
    validation error on [name], not in an [ApiError], and no group is
    created. *)
Theorem createFamilyGroup_blank_name fuel rnd newId now user body st :
  1 <= String.length (b_name body) <= 50 ->
  JS.trim (b_name body) = "" ->
  (forall d, b_description body = Some d -> String.length d <= 200) ->
  (forall i, isUnitSample (rnd i)) ->
  (forall h, In h (groups st) -> adminId h <> user_id user) ->
  (exists k, k < fuel
             /\ codeFree st (generateInviteCode (fun i => rnd (8 * k + i)))) ->
  createFamilyGroup fuel rnd newId now (Some user) body st
  = (Rejected ["name"], st).
Proof.
  intros Hname Hblank Hdesc Hs Hnone Hloop.
  destruct (createFamilyGroup_run fuel rnd newId now user body st
              Hname Hdesc Hs Hnone Hloop) as (code & Hrun & _).
  cbv zeta in Hrun. rewrite Hrun, Hblank. reflexivity.
Qed.

Lemma createFamilyGroup_blank_name_witness :
  createFamilyGroup 2 Scenario.secondTry "g2" 9000 (Some Scenario.bob)
    (mkCreateBody "  " None None) Scenario.created
  = (Rejected ["name"], Scenario.created).
Proof.
  apply createFamilyGroup_blank_name.
  - simpl. lia.
  - reflexivity.
  - intros d Hd. discriminate Hd.
  - intros i. unfold isUnitSample, Scenario.secondTry, Qle, Qlt.
    destruct (i <? 8); simpl; lia.
  - rewrite created_eq. intros h [<-|[]]. discriminate.
  - exists 1. split; [lia|]. rewrite created_eq.
    intros h [<-|[]]. vm_compute. discriminate.
Defined.

(* ================================================================== *)
(** * Properties of the shopping-list controller *)

Section ShoppingListFacts.

Import ShoppingList.

Local Set Default Proof Using "Type".

(** Forget the number operations a statement does not mention. *)
Ltac only_used := repeat match goal with x : _ |- _ => clear x end.

Variable Num : Type.
Variable zero : Num.
Variable plus : Num -> Num -> Num.
Variables isPositive isNonNegative truthy : Num -> bool.
Variable roundPercent : nat -> nat -> Num.

Local Abbreviation getListById :=
  (ShoppingList.getListById zero plus truthy roundPercent).
Local Abbreviation deleteList := (@ShoppingList.deleteList Num).
Local Abbreviation addItem :=
  (ShoppingList.addItem plus isPositive isNonNegative truthy).
Local Abbreviation updateItem := (ShoppingList.updateItem isPositive isNonNegative).
Local Abbreviation removeItem := (ShoppingList.removeItem isNonNegative).
Local Abbreviation markItemPurchased :=
  (ShoppingList.markItemPurchased isNonNegative).
Local Abbreviation validList := (ShoppingList.validList isNonNegative).
Local Abbreviation validItem := (ShoppingList.validItem isNonNegative).

Ltac shop_unfold :=
  unfold ShoppingList.getListById, ShoppingList.deleteList,
    ShoppingList.addItem, ShoppingList.updateItem, ShoppingList.removeItem,
    ShoppingList.markItemPurchased;
  unfold catchZodOr500, catch500, requireUser, addItemSchema, updateItemSchema,
    markPurchasedSchema, saveList;
  try_unfold.

Ltac shop_cases :=
  repeat match goal with
         | |- context [match ?x with _ => _ end] =>
             lazymatch x with
             | context [match _ with _ => _ end] => fail
             | _ => destruct x eqn:?; cbv beta iota;
                    cbn [fst snd isReturned zodAsBadRequest statusOfRaised]
             end
         end.

Lemma getListById_atomic u id ls : snd (getListById u id ls) = ls.
Proof.
  only_used.
 shop_unfold. shop_cases; reflexivity. Qed.

Lemma deleteList_atomic u id ls :
  isReturned (fst (deleteList u id ls)) = false -> snd (deleteList u id ls) = ls.
Proof.
  only_used.
 shop_unfold. shop_cases; intros H; try discriminate H; reflexivity. Qed.

Lemma addItem_atomic newItemId u id body ls :
  isReturned (fst (addItem newItemId u id body ls)) = false ->
  snd (addItem newItemId u id body ls) = ls.
Proof.
  only_used.
 shop_unfold. shop_cases; intros H; try discriminate H; reflexivity. Qed.

Lemma updateItem_atomic u id itemId body ls :
  isReturned (fst (updateItem u id itemId body ls)) = false ->
  snd (updateItem u id itemId body ls) = ls.
Proof.
  only_used.
 shop_unfold. shop_cases; intros H; try discriminate H; reflexivity. Qed.

Lemma removeItem_atomic u id itemId ls :
  isReturned (fst (removeItem u id itemId ls)) = false ->
  snd (removeItem u id itemId ls) = ls.
Proof.
  only_used.
 shop_unfold. shop_cases; intros H; try discriminate H; reflexivity. Qed.

Lemma markItemPurchased_atomic u id itemId body ls :
  isReturned (fst (markItemPurchased u id itemId body ls)) = false ->
  snd (markItemPurchased u id itemId body ls) = ls.
Proof.
  only_used.
  shop_unfold.
  destruct u as [user|]; cbv beta iota; [|reflexivity].
  destruct (minZeroIssue isNonNegative (mp_actualPrice body));
    cbv beta iota; cbn [zodAsBadRequest]; [|reflexivity].
  destruct (findOwned id (user_id user) ls) as [lst|]; cbv beta iota;
    cbn [zodAsBadRequest]; [|reflexivity].
  destruct (find (hasItemId itemId) (items lst)); cbv beta iota;
    cbn [zodAsBadRequest]; [|reflexivity].
  set (lst' := withItems lst _).
  destruct (validList lst') eqn:Hv; cbv beta iota; cbn [zodAsBadRequest];
    [|reflexivity].
  destruct (forallb _ _ && _); cbv beta iota; [|discriminate].
  assert (Hv2 : validList (withStatus lst' completed) = true) by exact Hv.
  rewrite Hv2. cbv beta iota. discriminate.
Qed.

(** X21. No partial writes in the shopping-list controller: a
    [getListById] never writes, and a [deleteList], [addItem],
    [updateItem], [removeItem] or [markItemPurchased] request that ends in
    an error leaves the collection exactly as it was. *)
Theorem shopping_failures_write_nothing :
  (forall u id ls, snd (getListById u id ls) = ls)
  /\ (forall u id ls,
        isReturned (fst (deleteList u id ls)) = false ->
        snd (deleteList u id ls) = ls)
  /\ (forall newItemId u id body ls,
        isReturned (fst (addItem newItemId u id body ls)) = false ->
        snd (addItem newItemId u id body ls) = ls)
  /\ (forall u id itemId body ls,
        isReturned (fst (updateItem u id itemId body ls)) = false ->
        snd (updateItem u id itemId body ls) = ls)
  /\ (forall u id itemId ls,
        isReturned (fst (removeItem u id itemId ls)) = false ->
        snd (removeItem u id itemId ls) = ls)
  /\ (forall u id itemId body ls,
        isReturned (fst (markItemPurchased u id itemId body ls)) = false ->
        snd (markItemPurchased u id itemId body ls) = ls).
Proof.
  only_used.
  split; [exact getListById_atomic|].
  split; [exact deleteList_atomic|].
  split; [exact addItem_atomic|].
  split; [exact updateItem_atomic|].
  split; [exact removeItem_atomic | exact markItemPurchased_atomic].
Qed.

(** X22. Whatever goes wrong, the client of the shopping-list controller
    sees an [ApiError] whose status is 400, 401 or 500: the 404s thrown
    inside the [try] blocks ("list not found", "item not found") and the
    validation errors of [save] all come out of the [catch] as 500. *)
Theorem shopping_errors_are_400_401_500 :
  (forall u id ls, refusedWith [400; 401; 500] (fst (getListById u id ls)))
  /\ (forall u id ls, refusedWith [400; 401; 500] (fst (deleteList u id ls)))
  /\ (forall newItemId u id body ls,
        refusedWith [400; 401; 500] (fst (addItem newItemId u id body ls)))
  /\ (forall u id itemId body ls,
        refusedWith [400; 401; 500] (fst (updateItem u id itemId body ls)))
  /\ (forall u id itemId ls,
        refusedWith [400; 401; 500] (fst (removeItem u id itemId ls)))
  /\ (forall u id itemId body ls,
        refusedWith [400; 401; 500] (fst (markItemPurchased u id itemId body ls))).
Proof.
  only_used.
  repeat split; intros; shop_unfold;
    shop_cases; cbn [refusedWith statusCode In];
    unfold BadRequest, Unauthorized; auto 6.
Qed.

(** *** Runs of the handlers on a list the caller owns *)

Lemma findOwned_facts id uid (ls : Lists Num) lst :
  findOwned id uid ls = Some lst ->
  In lst ls /\ _id lst = id /\ userId lst = uid.
Proof.
  only_used.
  unfold findOwned. intros H. apply find_some in H. destruct H as [Hin H].
  apply andb_true_iff in H. destruct H as [H1 H2].
  split; [assumption|]. split; now apply String.eqb_eq.
Qed.

(** After a list is written back, the owner finds the new version. *)
Lemma findOwned_replaceList id uid (ls : Lists Num) lst lst' :
  findOwned id uid ls = Some lst ->
  _id lst' = id -> userId lst' = uid ->
  findOwned id uid (replaceList lst' ls) = Some lst'.
Proof.
  only_used.
  unfold findOwned. intros Hf Hid Hu.
  induction ls as [|h t IH]; simpl in *; [discriminate|].
  rewrite Hid. destruct (_id h =? id)%string eqn:E.
  - cbn [find]. now rewrite Hid, Hu, !String.eqb_refl.
  - cbn [find]. rewrite E. cbn [andb] in *. now apply IH.
Qed.

(** With [_id] a key, writing a list back changes that list only. *)
Lemma replaceList_others id uid (ls : Lists Num) lst lst' :
  uniqueListIds ls ->
  findOwned id uid ls = Some lst ->
  _id lst' = id ->
  exists pre post, ls = pre ++ lst :: post
                   /\ replaceList lst' ls = pre ++ lst' :: post.
Proof.
  only_used.
  unfold uniqueListIds, findOwned. intros Hnd Hf Hid.
  induction ls as [|h t IH]; simpl in *; [discriminate|].
  inversion Hnd as [|? ? Hh Hnd']; subst.
  destruct ((_id h =? _id lst')%string && (userId h =? uid)%string) eqn:E.
  - injection Hf as ->. apply andb_true_iff in E. destruct E as [E _].
    rewrite E. exists [], t. split; reflexivity.
  - destruct (_id h =? _id lst')%string eqn:E1.
    + exfalso. apply find_some in Hf. destruct Hf as [Hin Hm].
      apply andb_true_iff in Hm. destruct Hm as [Hm _].
      apply String.eqb_eq in Hm, E1. apply Hh. rewrite E1, <- Hm.
      now apply in_map.
    + destruct (IH Hnd' Hf) as (pre & post & -> & Hr).
      exists (h :: pre), post. simpl. now rewrite Hr.
Qed.

Lemma addItemSchema_accepted body (ls : Lists Num) :
  acceptedAddItem isPositive isNonNegative body ->
  addItemSchema isPositive isNonNegative body ls
  = (inl (mkAddItemBody (JS.trim (ab_ingredientName body)) (ab_quantity body)
            (JS.trim (ab_unit body)) (ab_category body) (ab_notes body)
            (ab_estimatedPrice body)), ls).
Proof.
  only_used.
  intros (Hn & Hq & Hu & Hp). unfold addItemSchema.
  apply Nat.ltb_ge in Hn, Hu. rewrite Hn, Hq, Hu.
  unfold minZeroIssue, optNonNegative in *.
  destruct (ab_estimatedPrice body) as [p|]; [rewrite Hp|]; reflexivity.
Qed.

Lemma addItem_run newItemId user id body ls lst :
  id <> "" ->
  acceptedAddItem isPositive isNonNegative body ->
  findOwned id (user_id user) ls = Some lst ->
  let itemData := mkAddItemBody (JS.trim (ab_ingredientName body))
                    (ab_quantity body) (JS.trim (ab_unit body))
                    (ab_category body) (ab_notes body)
                    (ab_estimatedPrice body) in
  let lst' :=
    match find (sameIngredient (JS.trim (ab_ingredientName body))) (items lst) with
    | Some _ =>
        withItems lst
          (updateFirstItem (sameIngredient (JS.trim (ab_ingredientName body)))
             (topUp plus truthy itemData) (items lst))
    | None => withItems lst (items lst ++ [newItem newItemId itemData])
    end in
  addItem newItemId (Some user) id body ls =
  if validList lst' then (inl lst', replaceList lst' ls)
  else (inr (RaisedApi (mkApiError "Failed to add item to shopping list" 500)), ls).
Proof.
  only_used.
  intros Hid Hbody Hf. cbv zeta.
  unfold ShoppingList.addItem, catchZodOr500, requireUser, saveList. try_unfold.
  rewrite (proj2 (String.eqb_neq _ _) Hid). cbv beta iota.
  rewrite (addItemSchema_accepted body ls Hbody). cbv beta iota.
  rewrite Hf. cbv beta iota. cbn [ab_ingredientName].
  destruct (validList _); reflexivity.
Qed.

Lemma removeItem_run user id itemId ls lst it :
  id <> "" -> itemId <> "" ->
  findOwned id (user_id user) ls = Some lst ->
  find (hasItemId itemId) (items lst) = Some it ->
  let lst' := withItems lst (removeFirstItem (hasItemId itemId) (items lst)) in
  removeItem (Some user) id itemId ls =
  if validList lst' then (inl lst', replaceList lst' ls)
  else (inr (RaisedApi (mkApiError "Failed to remove item from shopping list" 500)),
        ls).
Proof.
  only_used.
  intros Hid Hiid Hf Hit. cbv zeta.
  unfold ShoppingList.removeItem, catch500, requireUser, saveList. try_unfold.
  rewrite (proj2 (String.eqb_neq _ _) Hid), (proj2 (String.eqb_neq _ _) Hiid).
  cbn [orb]. cbv beta iota. rewrite Hf. cbv beta iota. rewrite Hit. cbv beta iota.
  destruct (validList _); reflexivity.
Qed.

Lemma replaceList_twice (a b : List Num) (ls : Lists Num) :
  _id b = _id a -> replaceList b (replaceList a ls) = replaceList b ls.
Proof.
  only_used.
  intros Hid. induction ls as [|h t IH]; cbn [replaceList]; [reflexivity|].
  destruct (_id h =? _id a)%string eqn:E.
  - cbn [replaceList]. now rewrite Hid, String.eqb_refl, E.
  - cbn [replaceList]. now rewrite Hid, E, IH.
Qed.

Lemma markItemPurchased_run user id itemId body ls lst it :
  optNonNegative isNonNegative (mp_actualPrice body) = true ->
  findOwned id (user_id user) ls = Some lst ->
  find (hasItemId itemId) (items lst) = Some it ->
  let lst' := withItems lst
                (updateFirstItem (hasItemId itemId) (markItem body) (items lst)) in
  let final :=
    if forallb (@isPurchased Num) (items lst') && Status_eqb (status lst') active
    then withStatus lst' completed else lst' in
  markItemPurchased (Some user) id itemId body ls =
  if validList lst' then (inl final, replaceList final ls)
  else (inr (RaisedApi (mkApiError "Failed to update item purchase status" 500)),
        ls).
Proof.
  only_used.
  intros Hp Hf Hit. cbv zeta.
  unfold ShoppingList.markItemPurchased, catchZodOr500, requireUser,
    markPurchasedSchema, saveList. try_unfold.
  assert (E : minZeroIssue isNonNegative (mp_actualPrice body) = []).
  { unfold minZeroIssue, optNonNegative in *.
    destruct (mp_actualPrice body); [now rewrite Hp | reflexivity]. }
  rewrite E. cbv beta iota. rewrite Hf. cbv beta iota. rewrite Hit. cbv beta iota.
  set (lst' := withItems lst _).
  destruct (validList lst') eqn:Hv; cbv beta iota; [|reflexivity].
  destruct (forallb _ _ && _); cbv beta iota; [|reflexivity].
  assert (Hv2 : validList (withStatus lst' completed) = true) by exact Hv.
  rewrite Hv2. cbv beta iota. f_equal.
  now apply replaceList_twice.
Qed.

(** *** Items and validation *)

Lemma firstItem_split (p : Item Num -> bool) f (l : list (Item Num)) it :
  find p l = Some it ->
  exists pre post,
    l = pre ++ it :: post
    /\ Forall (fun x => p x = false) pre
    /\ updateFirstItem p f l = pre ++ f it :: post
    /\ removeFirstItem p l = pre ++ post.
Proof.
  only_used.
  induction l as [|x t IH]; simpl; [discriminate|].
  destruct (p x) eqn:E; intros H.
  - injection H as ->. exists [], t. repeat split; constructor.
  - destruct (IH H) as (pre & post & -> & Hpre & Hup & Hrm).
    exists (x :: pre), post. simpl. rewrite Hup, Hrm.
    repeat split. now constructor.
Qed.

Lemma validList_parts (lst : List Num) :
  validList lst = true
  <-> name lst <> "" /\ forallb validItem (items lst) = true
      /\ optNonNegative isNonNegative (totalBudget lst) = true.
Proof.
  only_used.
  unfold ShoppingList.validList. rewrite !andb_true_iff, negb_true_iff.
  rewrite String.eqb_neq. tauto.
Qed.

Lemma validList_withItems (lst : List Num) its :
  validList lst = true -> forallb validItem its = true ->
  validList (withItems lst its) = true.
Proof.
  only_used.
  intros Hv Hits. apply validList_parts in Hv. apply validList_parts.
  cbn [withItems name items totalBudget]. tauto.
Qed.

Lemma forallb_middle (q : Item Num -> bool) pre a post :
  forallb q (pre ++ a :: post) = true
  <-> forallb q pre = true /\ q a = true /\ forallb q post = true.
Proof.
  only_used.
  rewrite forallb_app. cbn [forallb]. rewrite !andb_true_iff. tauto.
Qed.

Lemma validItem_markItem body (it : Item Num) :
  optNonNegative isNonNegative (mp_actualPrice body) = true ->
  validItem it = true -> validItem (markItem body it) = true.
Proof.
  only_used.
  unfold ShoppingList.validItem, markItem.
  cbn [ingredientName item_unit quantity estimatedPrice actualPrice].
  intros Hp Hv. repeat (apply andb_true_iff in Hv; destruct Hv as [Hv ?]).
  repeat (apply andb_true_iff; split); try assumption.
  destruct (mp_actualPrice body); assumption.
Qed.

Lemma validItem_topUp itemData (it : Item Num) :
  numbersBehave plus isPositive isNonNegative ->
  isPositive (ab_quantity itemData) = true ->
  optNonNegative isNonNegative (ab_estimatedPrice itemData) = true ->
  validItem it = true -> validItem (topUp plus truthy itemData it) = true.
Proof.
  only_used.
  unfold ShoppingList.validItem, topUp.
  cbn [ingredientName item_unit quantity estimatedPrice actualPrice].
  intros [_ Hplus] Hq Hp Hv.
  repeat (apply andb_true_iff in Hv; destruct Hv as [Hv ?]).
  repeat (apply andb_true_iff; split); try assumption.
  - now apply Hplus.
  - destruct (ab_estimatedPrice itemData) as [p|]; [|assumption].
    destruct (truthy p); assumption.
Qed.

(** X23. [removeItem] on an owned, valid list with [_id] a key: the first
    item carrying the given id is taken out, every other item stays in
    place and in order, the new list is what the owner finds afterwards,
    and no other list of the collection changes. *)
Theorem removeItem_effect user id itemId ls lst it :
  id <> "" -> itemId <> "" ->
  uniqueListIds ls ->
  findOwned id (user_id user) ls = Some lst ->
  validList lst = true ->
  find (hasItemId itemId) (items lst) = Some it ->
  let r := removeItem (Some user) id itemId ls in
  exists pre post,
    items lst = pre ++ it :: post
    /\ Forall (fun x => item_id x <> itemId) pre
    /\ fst r = inl (withItems lst (pre ++ post))
    /\ findOwned id (user_id user) (snd r) = Some (withItems lst (pre ++ post))
    /\ exists before after,
         ls = before ++ lst :: after
         /\ snd r = before ++ withItems lst (pre ++ post) :: after.
Proof.
  only_used.
  intros Hid Hiid Hkey Hf Hv Hit r. subst r.
  rewrite (removeItem_run user id itemId ls lst it
             Hid Hiid Hf Hit).
  destruct (firstItem_split (hasItemId itemId) (fun x => x) _ _ Hit)
    as (pre & post & Hitems & Hpre & _ & Hrm).
  rewrite Hrm. cbv zeta.
  assert (Hv' : validList (withItems lst (pre ++ post)) = true).
  { apply validList_withItems; [exact Hv|].
    apply validList_parts in Hv. destruct Hv as (_ & Hits & _).
    rewrite Hitems in Hits. apply forallb_middle in Hits.
    rewrite forallb_app. apply andb_true_iff. tauto. }
  rewrite Hv'. cbn [fst snd]. destruct (findOwned_facts _ _ _ _ Hf) as (_ & Hi & Hu).
  exists pre, post. split; [exact Hitems|]. split.
  { eapply Forall_impl; [|exact Hpre]. intros x Hx. unfold hasItemId in Hx.
    now apply String.eqb_neq. }
  split; [reflexivity|]. split.
  { now apply findOwned_replaceList with (lst := lst). }
  apply (replaceList_others id (user_id user) ls lst _ Hkey Hf). exact Hi.
Qed.

(** X24. [markItemPurchased] on an owned, valid list: the first item with
    the given id gets the new [isPurchased] (and [actualPrice] when one is
    given); the list's status becomes [completed] exactly when, after
    that, every item is purchased and the status was [active]; in every
    other case the status stays what it was - un-purchasing an item never
    reopens a completed list. *)
Theorem markItemPurchased_status user id itemId body ls lst it :
  optNonNegative isNonNegative (mp_actualPrice body) = true ->
  findOwned id (user_id user) ls = Some lst ->
  validList lst = true ->
  find (hasItemId itemId) (items lst) = Some it ->
  let r := markItemPurchased (Some user) id itemId body ls in
  exists pre post,
    items lst = pre ++ it :: post
    /\ (forallb (@isPurchased Num) (pre ++ markItem body it :: post) = true ->
        status lst = active ->
        fst r = inl (withStatus (withItems lst (pre ++ markItem body it :: post))
                       completed))
    /\ (forallb (@isPurchased Num) (pre ++ markItem body it :: post) = false
        \/ status lst <> active ->
        fst r = inl (withItems lst (pre ++ markItem body it :: post)))
    /\ exists final,
         fst r = inl final
         /\ items final = pre ++ markItem body it :: post
         /\ (status lst <> active -> status final = status lst)
         /\ findOwned id (user_id user) (snd r) = Some final.
Proof.
  only_used.
  intros Hp Hf Hv Hit r. subst r.
  rewrite (markItemPurchased_run user id itemId body ls lst it
             Hp Hf Hit).
  destruct (firstItem_split (hasItemId itemId) (markItem body) _ _ Hit)
    as (pre & post & Hitems & _ & Hup & _).
  rewrite Hup. cbv zeta.
  set (its' := pre ++ markItem body it :: post).
  assert (Hv' : validList (withItems lst its') = true).
  { apply validList_withItems; [exact Hv|].
    apply validList_parts in Hv. destruct Hv as (_ & Hits & _).
    rewrite Hitems in Hits. apply forallb_middle in Hits.
    apply forallb_middle. destruct Hits as (H1 & H2 & H3).
    split; [exact H1|]. split; [|exact H3].
    now apply validItem_markItem. }
  rewrite Hv'. cbn [fst snd withItems items status]. subst its'.
  destruct (findOwned_facts _ _ _ _ Hf) as (_ & Hi & Hu).
  exists pre, post. split; [exact Hitems|]. split; [|split].
  - intros Hall Hact. now rewrite Hall, Hact.
  - intros [Hnot | Hst].
    + now rewrite Hnot.
    + destruct (status lst); try congruence; now rewrite andb_false_r.
  - eexists. split; [reflexivity|].
    destruct (forallb (@isPurchased Num) (pre ++ markItem body it :: post)
              && Status_eqb (status lst) active) eqn:E.
    + split; [reflexivity|]. split.
      * intros Hst. apply andb_true_iff in E. destruct E as [_ E].
        destruct (status lst); try discriminate E. congruence.
      * now apply findOwned_replaceList with (lst := lst).
    + split; [reflexivity|]. split; [reflexivity|].
      now apply findOwned_replaceList with (lst := lst).
Qed.

Lemma validItem_newItem newItemId itemData :
  numbersBehave plus isPositive isNonNegative ->
  JS.trim (ab_ingredientName itemData) <> "" ->
  ab_unit itemData <> "" ->
  isPositive (ab_quantity itemData) = true ->
  optNonNegative isNonNegative (ab_estimatedPrice itemData) = true ->
  validItem (newItem newItemId itemData) = true.
Proof.
  only_used.
  intros [Hpos _] Hn Hu Hq Hp. unfold ShoppingList.validItem, newItem.
  cbn [ingredientName item_unit quantity estimatedPrice actualPrice].
  apply String.eqb_neq in Hn, Hu. rewrite Hn, Hu, (Hpos _ Hq), Hp. reflexivity.
Qed.

(** X25. [addItem] merges by ingredient name, ignoring case: on an owned,
    valid list and for an accepted body whose name and unit are not
    blank, if some item has the same name up to case, the first such item
    has its quantity increased by the given one (its name, unit and
    purchase state stay) and no item is added; otherwise one new,
    unpurchased item with the trimmed name is appended.  The owner finds
    the list so updated. *)
Theorem addItem_merges_by_name newItemId user id body ls lst :
  id <> "" ->
  numbersBehave plus isPositive isNonNegative ->
  findOwned id (user_id user) ls = Some lst ->
  validList lst = true ->
  acceptedAddItem isPositive isNonNegative body ->
  JS.trim (ab_ingredientName body) <> "" ->
  JS.trim (ab_unit body) <> "" ->
  let itemData := mkAddItemBody (JS.trim (ab_ingredientName body))
                    (ab_quantity body) (JS.trim (ab_unit body))
                    (ab_category body) (ab_notes body)
                    (ab_estimatedPrice body) in
  let r := addItem newItemId (Some user) id body ls in
  (forall existing,
     find (sameIngredient (JS.trim (ab_ingredientName body))) (items lst)
     = Some existing ->
     exists pre post,
       items lst = pre ++ existing :: post
       /\ fst r = inl (withItems lst
                         (pre ++ topUp plus truthy itemData existing :: post))
       /\ findOwned id (user_id user) (snd r)
          = Some (withItems lst
                    (pre ++ topUp plus truthy itemData existing :: post))
       /\ quantity (topUp plus truthy itemData existing)
          = plus (quantity existing) (ab_quantity body)
       /\ List.length (pre ++ topUp plus truthy itemData existing :: post)
          = List.length (items lst))
  /\ (find (sameIngredient (JS.trim (ab_ingredientName body))) (items lst) = None ->
      fst r = inl (withItems lst (items lst ++ [newItem newItemId itemData]))
      /\ findOwned id (user_id user) (snd r)
         = Some (withItems lst (items lst ++ [newItem newItemId itemData]))
      /\ isPurchased (newItem newItemId itemData) = false
      /\ ingredientName (newItem newItemId itemData)
         = JS.trim (ab_ingredientName body)).
Proof.
  only_used.
  intros Hid Hnum Hf Hv Hbody Hname Hunit itemData r. subst r.
  rewrite (addItem_run newItemId user id body ls lst Hid Hbody Hf). fold itemData.
  destruct (findOwned_facts _ _ _ _ Hf) as (_ & Hi & Hu).
  destruct Hbody as (_ & Hq & _ & Hp).
  pose proof Hv as Hparts. apply validList_parts in Hparts.
  destruct Hparts as (_ & Hits & _).
  split.
  - intros existing He. rewrite He.
    destruct (firstItem_split (sameIngredient (JS.trim (ab_ingredientName body)))
                (topUp plus truthy itemData) _ _ He)
      as (pre & post & Hitems & _ & Hup & _).
    rewrite Hup.
    assert (Hv' : validList (withItems lst
                    (pre ++ topUp plus truthy itemData existing :: post)) = true).
    { apply validList_withItems; [exact Hv|].
      rewrite Hitems in Hits. apply forallb_middle in Hits.
      apply forallb_middle. destruct Hits as (H1 & H2 & H3).
      split; [exact H1|]. split; [|exact H3].
      now apply validItem_topUp. }
    rewrite Hv'. cbn [fst snd]. exists pre, post.
    split; [exact Hitems|]. split; [reflexivity|]. split.
    { now apply findOwned_replaceList with (lst := lst). }
    split; [reflexivity|]. rewrite Hitems, !length_app. reflexivity.
  - intros Hnone. rewrite Hnone.
    assert (Hv' : validList (withItems lst (items lst ++ [newItem newItemId itemData]))
                  = true).
    { apply validList_withItems; [exact Hv|].
      rewrite forallb_app, Hits. cbn [forallb andb]. rewrite andb_true_r.
      apply validItem_newItem; try assumption.
      unfold itemData. cbn [ab_ingredientName]. now rewrite trim_idem. }
    rewrite Hv'. cbn [fst snd]. split; [reflexivity|]. split.
    { now apply findOwned_replaceList with (lst := lst). }
    split; [reflexivity|]. unfold newItem, itemData.
    cbn [ingredientName ab_ingredientName]. apply trim_idem.
Qed.

(** *** What the item requests write *)

Lemma replaceList_Forall (P : List Num -> Prop) lst' (ls : Lists Num) :
  Forall P ls -> P lst' -> Forall P (replaceList lst' ls).
Proof.
  only_used.
  intros Hl Hp. induction Hl as [|h t Hh Ht IH]; simpl; [constructor|].
  destruct (_id h =? _id lst')%string; constructor; assumption.
Qed.

Lemma updateFirstItem_names p f (l : list (Item Num)) :
  (forall i, ingredientName (f i) = ingredientName i) ->
  map (fun i => JS.toLowerCase (ingredientName i)) (updateFirstItem p f l)
  = map (fun i => JS.toLowerCase (ingredientName i)) l.
Proof.
  only_used.
  intros Hf. induction l as [|x t IH]; simpl; [reflexivity|].
  destruct (p x); simpl; [now rewrite Hf | now rewrite IH].
Qed.

Lemma removeFirstItem_NoDup {B} (g : Item Num -> B) p (l : list (Item Num)) :
  NoDup (map g l) -> NoDup (map g (removeFirstItem p l)).
Proof.
  only_used.
  induction l as [|x t IH]; simpl; [trivial|].
  intros H. inversion H as [|? ? Hx Ht]; subst.
  destruct (p x); [exact Ht|]. simpl. constructor; [|now apply IH].
  intros Hin. apply Hx. clear - Hin.
  induction t as [|y t IH]; simpl in *; [contradiction|].
  destruct (p y); [now right|]. destruct Hin as [Hin|Hin]; [now left|].
  right. now apply IH.
Qed.

Lemma writesBack_Forall (P : List Num -> Prop) ls ls' :
  writesBack P ls ls' -> Forall P ls -> Forall P ls'.
Proof.
  only_used.
  intros [-> | (lst & final & Hin & -> & Himp)] Hall; [assumption|].
  apply replaceList_Forall; [assumption|]. apply Himp.
  rewrite Forall_forall in Hall. now apply Hall.
Qed.

Lemma addItem_names newItemId u id body ls :
  writesBack (@distinctIngredients Num) ls (snd (addItem newItemId u id body ls)).
Proof.
  only_used.
  unfold ShoppingList.addItem, catchZodOr500, requireUser, addItemSchema, saveList.
  try_unfold.
  destruct u as [user|]; cbv beta iota; [|now left].
  destruct (id =? "")%string; cbv beta iota; [now left|].
  destruct (_ ++ _ ++ _ ++ _)%list; cbv beta iota; cbn [zodAsBadRequest];
    [|now left].
  destruct (findOwned id (user_id user) ls) as [lst|] eqn:Hf; cbv beta iota;
    cbn [zodAsBadRequest ab_ingredientName]; [|now left].
  destruct (findOwned_facts _ _ _ _ Hf) as (Hin & _ & _).
  destruct (find _ (items lst)) as [existing|] eqn:He.
  - destruct (validList _); cbv beta iota; cbn [snd zodAsBadRequest]; [|now left].
    right. eexists. eexists. split; [exact Hin|]. split; [reflexivity|].
    unfold distinctIngredients. cbn [withItems items].
    now rewrite updateFirstItem_names.
  - destruct (validList _); cbv beta iota; cbn [snd zodAsBadRequest]; [|now left].
    right. eexists. eexists. split; [exact Hin|]. split; [reflexivity|].
    unfold distinctIngredients. cbn [withItems items]. intros Hnd.
    rewrite map_app. cbn [map newItem ingredientName ab_ingredientName].
    rewrite trim_idem. apply NoDup_snoc; [exact Hnd|].
    intros Hdup. apply in_map_iff in Hdup. destruct Hdup as (x & Hx & Hxin).
    apply (find_none _ _ He) in Hxin. unfold sameIngredient in Hxin.
    rewrite Hx, String.eqb_refl in Hxin. discriminate.
Qed.

Lemma updateItem_names u id itemId body ls :
  writesBack (@distinctIngredients Num) ls (snd (updateItem u id itemId body ls)).
Proof.
  only_used.
  unfold ShoppingList.updateItem, catchZodOr500, requireUser, updateItemSchema,
    saveList.
  try_unfold.
  destruct u as [user|]; cbv beta iota; [|now left].
  destruct ((id =? "") || (itemId =? ""))%string; cbv beta iota; [now left|].
  destruct (_ ++ _ ++ _ ++ _)%list; cbv beta iota; cbn [zodAsBadRequest];
    [|now left].
  destruct (findOwned id (user_id user) ls) as [lst|] eqn:Hf; cbv beta iota;
    cbn [zodAsBadRequest]; [|now left].
  destruct (findOwned_facts _ _ _ _ Hf) as (Hin & _ & _).
  destruct (find _ (items lst)); cbv beta iota; cbn [zodAsBadRequest]; [|now left].
  destruct (validList _); cbv beta iota; cbn [snd zodAsBadRequest]; [|now left].
  right. eexists. eexists. split; [exact Hin|]. split; [reflexivity|].
  unfold distinctIngredients. cbn [withItems items].
  now rewrite updateFirstItem_names.
Qed.

Lemma removeItem_names u id itemId ls :
  writesBack (@distinctIngredients Num) ls (snd (removeItem u id itemId ls)).
Proof.
  only_used.
  unfold ShoppingList.removeItem, catch500, requireUser, saveList. try_unfold.
  destruct u as [user|]; cbv beta iota; [|now left].
  destruct ((id =? "") || (itemId =? ""))%string; cbv beta iota; [now left|].
  destruct (findOwned id (user_id user) ls) as [lst|] eqn:Hf; cbv beta iota;
    [|now left].
  destruct (findOwned_facts _ _ _ _ Hf) as (Hin & _ & _).
  destruct (find _ (items lst)); cbv beta iota; [|now left].
  destruct (validList _); cbv beta iota; cbn [snd]; [|now left].
  right. eexists. eexists. split; [exact Hin|]. split; [reflexivity|].
  unfold distinctIngredients. cbn [withItems items].
  apply removeFirstItem_NoDup.
Qed.

Lemma markItemPurchased_names u id itemId body ls :
  writesBack (@distinctIngredients Num) ls
    (snd (markItemPurchased u id itemId body ls)).
Proof.
  only_used.
  unfold ShoppingList.markItemPurchased, catchZodOr500, requireUser,
    markPurchasedSchema, saveList.
  try_unfold.
  destruct u as [user|]; cbv beta iota; [|now left].
  destruct (minZeroIssue isNonNegative (mp_actualPrice body));
    cbv beta iota; cbn [zodAsBadRequest]; [|now left].
  destruct (findOwned id (user_id user) ls) as [lst|] eqn:Hf; cbv beta iota;
    cbn [zodAsBadRequest]; [|now left].
  destruct (findOwned_facts _ _ _ _ Hf) as (Hin & _ & _).
  destruct (find (hasItemId itemId) (items lst)); cbv beta iota;
    cbn [zodAsBadRequest]; [|now left].
  set (lst' := withItems lst _).
  assert (Hnames : distinctIngredients lst -> distinctIngredients lst').
  { unfold distinctIngredients, lst'. cbn [withItems items].
    now rewrite updateFirstItem_names. }
  destruct (validList lst') eqn:Hv; cbv beta iota; cbn [zodAsBadRequest];
    [|now left].
  destruct (forallb _ _ && _); cbv beta iota.
  - assert (Hv2 : validList (withStatus lst' completed) = true) by exact Hv.
    rewrite Hv2. cbv beta iota. cbn [snd].
    right. exists lst, (withStatus lst' completed). split; [exact Hin|]. split.
    + now apply replaceList_twice.
    + exact Hnames.
  - cbn [snd]. right. exists lst, lst'. split; [exact Hin|]. split; [reflexivity|].
    exact Hnames.
Qed.

(** X26. Distinct ingredient names are kept: if no list of the collection
    holds two items with the same name up to case, this is still so after
    any [addItem] (which merges instead of adding a second one),
    [updateItem], [removeItem] or [markItemPurchased] request. *)
Theorem item_requests_keep_names_distinct ls :
  Forall (@distinctIngredients Num) ls ->
  (forall newItemId u id body,
     Forall (@distinctIngredients Num) (snd (addItem newItemId u id body ls)))
  /\ (forall u id itemId body,
        Forall (@distinctIngredients Num) (snd (updateItem u id itemId body ls)))
  /\ (forall u id itemId,
        Forall (@distinctIngredients Num) (snd (removeItem u id itemId ls)))
  /\ (forall u id itemId body,
        Forall (@distinctIngredients Num)
          (snd (markItemPurchased u id itemId body ls))).
Proof.
  only_used.
  intros Hall. repeat split; intros.
  - eapply writesBack_Forall; [apply addItem_names | exact Hall].
  - eapply writesBack_Forall; [apply updateItem_names | exact Hall].
  - eapply writesBack_Forall; [apply removeItem_names | exact Hall].
  - eapply writesBack_Forall; [apply markItemPurchased_names | exact Hall].
Qed.

(** *** Deleting and reading a list *)

Lemma deleteOwned_split id uid (ls : Lists Num) lst :
  findOwned id uid ls = Some lst ->
  exists before after,
    ls = before ++ lst :: after
    /\ deleteOwned id uid ls = before ++ after
    /\ findOwned id uid before = None.
Proof.
  only_used.
  unfold findOwned. induction ls as [|h t IH]; simpl; [discriminate|].
  destruct ((_id h =? id)%string && (userId h =? uid)%string) eqn:E; intros H.
  - injection H as ->. exists [], t. repeat split.
  - destruct (IH H) as (before & after & -> & Hdel & Hnone).
    exists (h :: before), after. simpl. rewrite Hdel, E. repeat split.
    exact Hnone.
Qed.

(** X27. [deleteList] removes the caller's list with that id and nothing
    else: the rest of the collection keeps its content and order, and -
    with [_id] a key - the same request repeated finds nothing and ends in
    the 500 of the [catch]. *)
Theorem deleteList_effect user id ls lst :
  id <> "" ->
  uniqueListIds ls ->
  findOwned id (user_id user) ls = Some lst ->
  let r := deleteList (Some user) id ls in
  exists before after,
    ls = before ++ lst :: after
    /\ fst r = inl tt
    /\ snd r = before ++ after
    /\ statusOfRaised (fst (deleteList (Some user) id (snd r))) = Some 500
    /\ snd (deleteList (Some user) id (snd r)) = snd r.
Proof.
  only_used.
  intros Hid Hkey Hf r. subst r.
  destruct (deleteOwned_split _ _ _ _ Hf) as (before & after & Hls & Hdel & Hnone).
  assert (Hrun : deleteList (Some user) id ls = (inl tt, before ++ after)).
  { unfold ShoppingList.deleteList, catch500, requireUser. try_unfold.
    rewrite (proj2 (String.eqb_neq _ _) Hid). cbv beta iota.
    rewrite Hf. cbv beta iota. now rewrite Hdel. }
  rewrite Hrun. cbn [fst snd]. exists before, after.
  split; [exact Hls|]. split; [reflexivity|]. split; [reflexivity|].
  assert (Hgone : findOwned id (user_id user) (before ++ after) = None).
  { unfold findOwned in *. rewrite find_app_none by exact Hnone.
    destruct (find _ after) as [x|] eqn:Hx; [|reflexivity].
    exfalso. apply find_some in Hx. destruct Hx as [Hxin Hxm].
    apply andb_true_iff in Hxm. destruct Hxm as [Hxi _].
    apply String.eqb_eq in Hxi.
    destruct (findOwned_facts _ _ _ _ Hf) as (_ & Hi & _).
    unfold uniqueListIds in Hkey. rewrite Hls, map_app in Hkey. simpl in Hkey.
    apply NoDup_remove_2 in Hkey. apply Hkey. apply in_or_app. right.
    rewrite Hi, <- Hxi. now apply in_map. }
  unfold ShoppingList.deleteList, catch500, requireUser. try_unfold.
  rewrite (proj2 (String.eqb_neq _ _) Hid). cbv beta iota.
  rewrite Hgone. split; reflexivity.
Qed.

(** X28. [getListById] shows a list to its owner only and never writes:
    the owner gets the list with statistics in which the purchased and the
    remaining items add up to the total; any caller who owns no list with
    that id - also when the list exists and belongs to someone else - gets
    the 500 of the [catch]. *)
Theorem getListById_outcome user id ls :
  id <> "" ->
  let r := getListById (Some user) id ls in
  snd r = ls
  /\ (forall lst,
        findOwned id (user_id user) ls = Some lst ->
        exists stats,
          fst r = inl (lst, stats)
          /\ totalItems stats = List.length (items lst)
          /\ purchasedItems stats + remainingItems stats = totalItems stats)
  /\ (findOwned id (user_id user) ls = None ->
      fst r = inr (RaisedApi (mkApiError "Failed to fetch shopping list" 500))).
Proof.
  only_used.
  intros Hid r. subst r.
  unfold ShoppingList.getListById, catch500, requireUser. try_unfold.
  rewrite (proj2 (String.eqb_neq _ _) Hid). cbv beta iota.
  destruct (findOwned id (user_id user) ls) as [lst|]; cbv beta iota; cbn [fst snd].
  - split; [reflexivity|]. split; [|discriminate].
    intros lst' Heq. injection Heq as <-. eexists. split; [reflexivity|].
    cbn [statisticsOf totalItems purchasedItems remainingItems].
    split; [reflexivity|].
    pose proof (filter_length_le (@isPurchased Num) (items lst)). lia.
  - split; [reflexivity|]. split; [discriminate | reflexivity].
Qed.

(** X29. Lists are private to their owner: when the caller owns no list
    with the given id, [deleteList], [addItem], [updateItem], [removeItem]
    and [markItemPurchased] all end in an error and write nothing, whoever
    else may own a list with that id. *)
Theorem lists_are_private user id ls :
  findOwned id (user_id user) ls = None ->
  (isReturned (fst (deleteList (Some user) id ls)) = false
   /\ snd (deleteList (Some user) id ls) = ls)
  /\ (forall newItemId body,
        isReturned (fst (addItem newItemId (Some user) id body ls)) = false
        /\ snd (addItem newItemId (Some user) id body ls) = ls)
  /\ (forall itemId body,
        isReturned (fst (updateItem (Some user) id itemId body ls)) = false
        /\ snd (updateItem (Some user) id itemId body ls) = ls)
  /\ (forall itemId,
        isReturned (fst (removeItem (Some user) id itemId ls)) = false
        /\ snd (removeItem (Some user) id itemId ls) = ls)
  /\ (forall itemId body,
        isReturned (fst (markItemPurchased (Some user) id itemId body ls)) = false
        /\ snd (markItemPurchased (Some user) id itemId body ls) = ls).
Proof.
  only_used.
  intros Hnone. repeat split; intros; shop_unfold; rewrite ?Hnone;
    shop_cases; rewrite ?Hnone; cbv beta iota;
    cbn [fst snd isReturned zodAsBadRequest];
    first [reflexivity | congruence].
Qed.

End ShoppingListFacts.

(* ------------------------------------------------------------------ *)
(** ** The shopping-list properties on two concrete lists *)

Section ShoppingWitnesses.

Import ShoppingList ShoppingScenario.

Lemma numbersBehave_Z : numbersBehave Z.add isPositive isNonNegative.
Proof.
  unfold numbersBehave, isPositive, isNonNegative. split.
  - intros a H. apply Z.ltb_lt in H. apply Z.leb_le. lia.
  - intros a b Ha Hb. apply Z.leb_le in Ha. apply Z.ltb_lt in Hb.
    apply Z.leb_le. lia.
Qed.

Lemma lists_key : uniqueListIds lists.
Proof.
  unfold uniqueListIds. simpl.
  constructor; [simpl; intros [H|[]]; discriminate H|].
  constructor; [simpl; tauto | constructor].
Qed.

End ShoppingWitnesses.


Lemma shopping_failures_write_nothing_witness :
  snd (ShoppingList.removeItem ShoppingScenario.isNonNegative
         (Some Scenario.alice) "l1" "i9" ShoppingScenario.lists)
  = ShoppingScenario.lists.
Proof.
  destruct (shopping_failures_write_nothing Z 0%Z Z.add
              ShoppingScenario.isPositive ShoppingScenario.isNonNegative
              ShoppingScenario.truthy ShoppingScenario.roundPercent)
    as (_ & _ & _ & _ & Hremove & _).
  apply Hremove. reflexivity.
Defined.

Lemma removeItem_effect_shopping_witness :
  exists pre post,
    ShoppingList.items ShoppingScenario.groceries
    = pre ++ ShoppingScenario.milk :: post
    /\ fst (ShoppingList.removeItem ShoppingScenario.isNonNegative
              (Some Scenario.alice) "l1" "i1" ShoppingScenario.lists)
       = inl (ShoppingList.withItems ShoppingScenario.groceries (pre ++ post)).
Proof.
  destruct (removeItem_effect Z ShoppingScenario.isNonNegative Scenario.alice
              "l1" "i1" ShoppingScenario.lists ShoppingScenario.groceries
              ShoppingScenario.milk)
    as (pre & post & Hitems & _ & Hfst & _).
  - discriminate.
  - discriminate.
  - exact lists_key.
  - reflexivity.
  - reflexivity.
  - reflexivity.
  - exists pre, post. split; assumption.
Defined.

Lemma markItemPurchased_status_witness :
  exists final,
    fst (ShoppingList.markItemPurchased ShoppingScenario.isNonNegative
           (Some Scenario.alice) "l1" "i1"
           (ShoppingList.mkMarkPurchasedBody true (Some 3%Z))
           ShoppingScenario.lists) = inl final
    /\ ShoppingList.findOwned "l1" "A"
         (snd (ShoppingList.markItemPurchased ShoppingScenario.isNonNegative
                 (Some Scenario.alice) "l1" "i1"
                 (ShoppingList.mkMarkPurchasedBody true (Some 3%Z))
                 ShoppingScenario.lists)) = Some final.
Proof.
  destruct (markItemPurchased_status Z ShoppingScenario.isNonNegative
              Scenario.alice "l1" "i1"
              (ShoppingList.mkMarkPurchasedBody true (Some 3%Z))
              ShoppingScenario.lists ShoppingScenario.groceries
              ShoppingScenario.milk)
    as (pre & post & _ & _ & _ & final & Hfst & _ & _ & Hfind).
  - reflexivity.
  - reflexivity.
  - reflexivity.
  - reflexivity.
  - exists final. split; assumption.
Defined.

Lemma addItem_merges_by_name_witness :
  exists pre post merged,
    ShoppingList.items ShoppingScenario.groceries
    = pre ++ ShoppingScenario.milk :: post
    /\ fst (ShoppingList.addItem Z.add ShoppingScenario.isPositive
              ShoppingScenario.isNonNegative ShoppingScenario.truthy "i3"
              (Some Scenario.alice) "l1"
              (ShoppingList.mkAddItemBody " MILK" 3%Z "l" None None None)
              ShoppingScenario.lists)
       = inl (ShoppingList.withItems ShoppingScenario.groceries
                (pre ++ merged :: post))
    /\ ShoppingList.quantity merged = 5%Z.
Proof.
  destruct (addItem_merges_by_name Z Z.add ShoppingScenario.isPositive
              ShoppingScenario.isNonNegative ShoppingScenario.truthy "i3"
              Scenario.alice "l1"
              (ShoppingList.mkAddItemBody " MILK" 3%Z "l" None None None)
              ShoppingScenario.lists ShoppingScenario.groceries)
    as (Hmerge & _).
  - discriminate.
  - exact numbersBehave_Z.
  - reflexivity.
  - reflexivity.
  - repeat split; simpl; lia.
  - vm_compute. discriminate.
  - vm_compute. discriminate.
  - destruct (Hmerge ShoppingScenario.milk) as (pre & post & Hitems & Hfst & _ & Hq & _).
    + vm_compute. reflexivity.
    + exists pre, post. eexists. split; [exact Hitems|]. split; [exact Hfst|].
      rewrite Hq. reflexivity.
Defined.

Lemma item_requests_keep_names_distinct_witness :
  Forall (@ShoppingList.distinctIngredients Z)
    (snd (ShoppingList.addItem Z.add ShoppingScenario.isPositive
            ShoppingScenario.isNonNegative ShoppingScenario.truthy "i3"
            (Some Scenario.alice) "l1"
            (ShoppingList.mkAddItemBody "eggs" 6%Z "pcs" None None None)
            ShoppingScenario.lists)).
Proof.
  destruct (item_requests_keep_names_distinct Z Z.add ShoppingScenario.isPositive
              ShoppingScenario.isNonNegative ShoppingScenario.truthy
              ShoppingScenario.lists) as (Hadd & _).
  - constructor; [|constructor; [constructor|constructor]].
    unfold ShoppingList.distinctIngredients. simpl.
    constructor; [simpl; intros [H|[]]; vm_compute in H; discriminate H|].
    constructor; [simpl; tauto | constructor].
  - apply Hadd.
Defined.

Lemma deleteList_effect_witness :
  exists before after,
    ShoppingScenario.lists = before ++ ShoppingScenario.groceries :: after
    /\ snd (ShoppingList.deleteList (Some Scenario.alice) "l1"
              ShoppingScenario.lists) = before ++ after.
Proof.
  destruct (deleteList_effect Z Scenario.alice "l1" ShoppingScenario.lists
              ShoppingScenario.groceries)
    as (before & after & Hls & _ & Hsnd & _).
  - discriminate.
  - exact lists_key.
  - reflexivity.
  - exists before, after. split; assumption.
Defined.

Lemma getListById_outcome_shopping_witness :
  fst (ShoppingList.getListById 0%Z Z.add ShoppingScenario.truthy
         ShoppingScenario.roundPercent (Some Scenario.bob) "l1"
         ShoppingScenario.lists)
  = inr (RaisedApi (mkApiError "Failed to fetch shopping list" 500))
  /\ snd (ShoppingList.getListById 0%Z Z.add ShoppingScenario.truthy
            ShoppingScenario.roundPercent (Some Scenario.bob) "l1"
            ShoppingScenario.lists)
     = ShoppingScenario.lists.
Proof.
  destruct (getListById_outcome Z 0%Z Z.add ShoppingScenario.truthy
              ShoppingScenario.roundPercent Scenario.bob "l1"
              ShoppingScenario.lists) as (Hsnd & _ & Hnone).
  - discriminate.
  - split; [apply Hnone; reflexivity | exact Hsnd].
Defined.

Lemma lists_are_private_witness :
  isReturned (fst (ShoppingList.deleteList (Some Scenario.bob) "l1"
                     ShoppingScenario.lists)) = false
  /\ snd (ShoppingList.deleteList (Some Scenario.bob) "l1" ShoppingScenario.lists)
     = ShoppingScenario.lists.
Proof.
  destruct (lists_are_private Z Z.add ShoppingScenario.isPositive
              ShoppingScenario.isNonNegative ShoppingScenario.truthy
              Scenario.bob "l1" ShoppingScenario.lists) as (Hdel & _).
  - reflexivity.
  - exact Hdel.
Defined.
